(** * The service-day simulation of the cosmic cafe game

    A shallow embedding of [game/systems/service.py], [game/systems/chaos.py]
    and [game/systems/upgrades.py], and the properties of the specification
    that concern them.

    Python values are modelled as follows.
    - [int] is [Z]; [str] is [string]; [bool] is [bool]; [Optional[X]] is
      [option X]; a [list] is a [list], a [dict] keyed by strings a [gmap].
    - [float] is a type [F] with the operations the code uses, given by the
      class [PyFloat].  Two instances are provided: [float] (IEEE 754
      binary64, the arithmetic CPython runs) and [Q] (exact rationals, the
      arithmetic the specification reasons in).  Every definition of the
      model is written once, for an arbitrary instance.
    - A raised exception is the [Raise] outcome of the [result] monad; every
      function that can raise returns a [result].
    - [random.choice] and [random.uniform] take their outcome from an extra
      argument. *)

From Stdlib Require Import ZArith QArith Lia Lqa.
From Stdlib Require Import PrimFloat SpecFloat FloatOps.
From stdpp Require Import base option list gmap strings.

Set Default Proof Using "Type".

(** ** Python's run-time conventions *)

Module Py.

Inductive exn : Type :=
| ZeroDivisionError
| IndexError
| ValueError
| OverflowError.

Inductive result (A : Type) : Type :=
| Ok (a : A)
| Raise (e : exn).
Global Arguments Ok {A} a.
Global Arguments Raise {A} e.

Definition bind {A B : Type} (m : result A) (k : A → result B) : result B :=
  match m with
  | Ok a => k a
  | Raise e => Raise e
  end.

Definition returns {A : Type} (m : result A) : Prop := ∃ a, m = Ok a.

(** [l[i]] for a Python [int] index: negative indices count from the end,
    anything outside [-len, len) raises [IndexError]. *)
Definition index {A : Type} (l : list A) (i : Z) : result A :=
  let n := Z.of_nat (length l) in
  let j := if (i <? 0)%Z then (n + i)%Z else i in
  if ((0 <=? j) && (j <? n))%Z
  then match l !! Z.to_nat j with Some a => Ok a | None => Raise IndexError end
  else Raise IndexError.

(** [random.choice(l)]: [IndexError] on an empty sequence, otherwise the
    element at the position the generator draws, here [rnd mod len(l)]. *)
Definition choice {A : Type} (l : list A) (rnd : nat) : result A :=
  match l with
  | [] => Raise IndexError
  | _ => match l !! (rnd mod length l)%nat with
         | Some a => Ok a
         | None => Raise IndexError
         end
  end.

(** [d.get(key, default)] *)
Definition get {V : Type} (d : gmap string V) (key : string) (default : V) : V :=
  match d !! key with
  | Some v => v
  | None => default
  end.

(** The call returned the integer [z]. *)
Definition returns_int (m : result Z) (z : Z) : bool :=
  match m with
  | Ok z' => (z' =? z)%Z
  | Raise _ => false
  end.

End Py.

Export Py(exn(..), result(..)).

#[export] Instance result_ret : MRet result := @Ok.
#[export] Instance result_bind : MBind result := λ A B k m, Py.bind m k.
#[export] Instance result_fmap : FMap result :=
  λ A B f m, Py.bind m (λ a, Ok (f a)).

(** ** Floating-point numbers *)

(** The operations of Python's [float] that the simulation uses. *)
Class PyFloat (F : Type) : Type := {
  (** a decimal literal of the source text, such as [1.2] *)
  lit : Q → F;
  (** the implicit [int] to [float] conversion of mixed arithmetic *)
  float_of_int : Z → result F;
  fadd : F → F → F;
  fsub : F → F → F;
  fmul : F → F → F;
  (** [x / y], raising [ZeroDivisionError] when [y == 0] *)
  fdiv : F → F → result F;
  (** [x <= y] and [x < y] *)
  fle : F → F → bool;
  flt : F → F → bool;
  (** [int(x)]: truncation towards zero *)
  int_of_float : F → result Z;
}.

Declare Scope pyfloat_scope.
Delimit Scope pyfloat_scope with py.
Infix "⊕" := fadd (at level 50, left associativity) : pyfloat_scope.
Infix "⊖" := fsub (at level 50, left associativity) : pyfloat_scope.
Infix "⊗" := fmul (at level 40, left associativity) : pyfloat_scope.
Infix "≼" := fle (at level 70, no associativity) : pyfloat_scope.
Infix "≺" := flt (at level 70, no associativity) : pyfloat_scope.

(** Exact rational arithmetic. *)
Module ExactArith.

Definition trunc (q : Q) : Z := Z.quot (Qnum q) (Zpos (Qden q)).

Definition div (x y : Q) : result Q :=
  if Qeq_bool y 0 then Raise ZeroDivisionError else Ok (x / y)%Q.

Definition ltb (x y : Q) : bool := negb (Qle_bool y x).

End ExactArith.

#[export] Instance Q_float : PyFloat Q := {|
  lit q := q;
  float_of_int z := Ok (inject_Z z);
  fadd := Qplus;
  fsub := Qminus;
  fmul := Qmult;
  fdiv := ExactArith.div;
  fle := Qle_bool;
  flt := ExactArith.ltb;
  int_of_float q := Ok (ExactArith.trunc q);
|}.

(** IEEE 754 binary64 with round-to-nearest-even, as CPython computes. *)
Module Binary64.

(** The nearest double to an integer; CPython raises [OverflowError] where
    rounding would give an infinity. *)
Definition of_int (z : Z) : result float :=
  match binary_normalize prec emax z 0 false with
  | S754_infinity _ => Raise OverflowError
  | sf => Ok (SF2Prim sf)
  end.

Definition of_Z (z : Z) : float :=
  SF2Prim (binary_normalize prec emax z 0 false).

(** A decimal literal: numerator and denominator are exact doubles for
    every literal of the source, so the correctly rounded quotient is the
    double the literal denotes. *)
Definition of_Q (q : Q) : float :=
  PrimFloat.div (of_Z (Qnum q)) (of_Z (Zpos (Qden q))).

Definition div (x y : float) : result float :=
  if PrimFloat.eqb y 0%float then Raise ZeroDivisionError
  else Ok (PrimFloat.div x y).

Definition trunc (x : float) : result Z :=
  match Prim2SF x with
  | S754_nan => Raise ValueError
  | S754_infinity _ => Raise OverflowError
  | S754_zero _ => Ok 0%Z
  | S754_finite s m e =>
      let a := match e with
               | Z0 => Zpos m
               | Zpos k => Z.shiftl (Zpos m) (Zpos k)
               | Zneg k => Z.shiftr (Zpos m) (Zpos k)
               end in
      Ok (if s then Z.opp a else a)
  end.

End Binary64.

#[export] Instance binary64_float : PyFloat float := {|
  lit := Binary64.of_Q;
  float_of_int := Binary64.of_int;
  fadd := PrimFloat.add;
  fsub := PrimFloat.sub;
  fmul := PrimFloat.mul;
  fdiv := Binary64.div;
  fle := PrimFloat.leb;
  flt := PrimFloat.ltb;
  int_of_float := Binary64.trunc;
|}.

(** ** [service.py] *)

Module Customer.
Section WithFloat.
Context {F : Type} `{PyFloat F}.
Local Open Scope pyfloat_scope.

(** class [Customer] *)
Record t : Type := mk {
  name : string;
  species : string;
  quirk : option string;
  patience : F;
  max_patience : F;
  tip_range : list Z;
  desired_recipe : option string;
  is_visible : bool;
  reveal_timer : F;
}.

Definition set_patience (c : t) (p : F) : t :=
  mk (name c) (species c) (quirk c) p (max_patience c) (tip_range c)
     (desired_recipe c) (is_visible c) (reveal_timer c).

Definition set_is_visible (c : t) (v : bool) : t :=
  mk (name c) (species c) (quirk c) (patience c) (max_patience c) (tip_range c)
     (desired_recipe c) v (reveal_timer c).

Definition set_reveal_timer (c : t) (r : F) : t :=
  mk (name c) (species c) (quirk c) (patience c) (max_patience c) (tip_range c)
     (desired_recipe c) (is_visible c) r.

Definition is_invisible_quirk (c : t) : bool :=
  bool_decide (quirk c = Some "invisible").

(** [Customer.update]: the object is mutated in place; the model returns
    the customer after the call. *)
Definition update (c : t) (dt : F) (modifiers : gmap string F) : t :=
  let patience_modifier := Py.get modifiers "patience_decay" (lit 1) in
  let c := set_patience c (patience c ⊖ dt ⊗ patience_modifier) in
  if is_invisible_quirk c && (lit 0 ≺ reveal_timer c) then
    let c := set_reveal_timer c (reveal_timer c ⊖ dt) in
    if reveal_timer c ≼ lit 0 then set_is_visible c false else c
  else c.

(** [Customer.reveal] *)
Definition reveal (c : t) (duration : F) : t :=
  if is_invisible_quirk c
  then set_reveal_timer (set_is_visible c true) duration
  else c.

(** [Customer.calculate_tip] *)
Definition calculate_tip (c : t) (correct_drink : bool)
    (remaining_patience_ratio : F) : result Z :=
  if negb correct_drink then mret 0%Z
  else
    base_tip ← Py.index (tip_range c) 0;
    hi ← Py.index (tip_range c) 1;
    lo ← Py.index (tip_range c) 0;
    span ← float_of_int (hi - lo);
    bonus ← int_of_float (span ⊗ remaining_patience_ratio);
    mret (base_tip + bonus)%Z.

End WithFloat.
Global Arguments t F : clear implicits.
End Customer.

Module Recipe.

(** class [Recipe] *)
Record t : Type := mk {
  id : string;
  name : string;
  steps : list string;
  difficulty : Z;
}.

(** [Recipe.matches] *)
Definition matches (r : t) (steps' : list string) : bool :=
  bool_decide (steps' = steps r).

End Recipe.

Module RecipeBook.

(** class [RecipeBook]: the [recipes] dictionary. *)
Record t : Type := mk {
  recipes : gmap string Recipe.t;
}.

(** [r.id.startswith('banishing')] *)
Definition is_special (r : Recipe.t) : Prop :=
  String.prefix "banishing" (Recipe.id r) = true.

#[export] Instance is_special_dec r : Decision (is_special r).
Proof. unfold is_special. apply _. Defined.

(** [RecipeBook.find]; a [desired_recipe] of [None] is no key of the
    dictionary. *)
Definition find (b : t) (recipe_id : option string) : option Recipe.t :=
  match recipe_id with
  | Some k => recipes b !! k
  | None => None
  end.

(** [self.recipes.values()] *)
Definition values (b : t) : list Recipe.t := (map_to_list (recipes b)).*2.

Definition regular_recipes (b : t) : list Recipe.t :=
  filter (λ r, ¬ is_special r) (values b).

(** [RecipeBook.get_random_recipe]; [rnd] is the draw of [random.choice]. *)
Definition get_random_recipe (b : t) (rnd : nat) : result Recipe.t :=
  Py.choice (regular_recipes b) rnd.

(** [RecipeBook.load_recipes], given the recipes built from the entries of
    the table, in order: every recipe is stored under its id, a later one
    replacing an earlier one of the same id.  (The loop ends at the first
    entry that raises, and the exception is swallowed; a table that cannot
    be read at all leaves the dictionary as it is.) *)
Definition load_recipes (b : t) (data : list Recipe.t) : t :=
  mk (foldl (λ recipes recipe, <[Recipe.id recipe := recipe]> recipes)
            (recipes b) data).

(** [RecipeBook.__init__], given the parsed recipe table. *)
Definition init (data : list Recipe.t) : t := load_recipes (mk ∅) data.

End RecipeBook.

Module CustomerQueue.
Section WithFloat.
Context {F : Type} `{PyFloat F}.
Local Open Scope pyfloat_scope.

(** class [CustomerQueue] *)
Record t : Type := mk {
  customers : list (option (Customer.t F));
  max_size : nat;
}.

(** [CustomerQueue.__init__] *)
Definition init (max_size : nat) : t := mk (replicate max_size None) max_size.

(** [self.customers[i] = v], for an index [i] that was just read. *)
Definition store (q : t) (i : nat) (v : option (Customer.t F)) : t :=
  mk (<[i := v]> (customers q)) (max_size q).

(** The loop of [add_customer] over the remaining indices [idx]. *)
Fixpoint add_customer_from (idx : list nat) (q : t) (customer : Customer.t F)
    : result (t * bool) :=
  match idx with
  | [] => mret (q, false)
  | i :: rest =>
      slot ← Py.index (customers q) (Z.of_nat i);
      match slot with
      | None => mret (store q i (Some customer), true)
      | Some _ => add_customer_from rest q customer
      end
  end.

(** [CustomerQueue.add_customer] *)
Definition add_customer (q : t) (customer : Customer.t F) : result (t * bool) :=
  add_customer_from (seq 0 (max_size q)) q customer.

(** [CustomerQueue.remove_customer] *)
Definition remove_customer (q : t) (index : Z)
    : result (t * option (Customer.t F)) :=
  if ((0 <=? index) && (index <? Z.of_nat (max_size q)))%Z then
    customer ← Py.index (customers q) index;
    mret (store q (Z.to_nat index) None, customer)
  else mret (q, None).

(** [CustomerQueue.get_active_customers] *)
Definition get_active_customers (q : t) : list (Customer.t F) :=
  omap id (customers q).

(** The loop of [update] over the remaining indices [idx]; [left_customers]
    accumulates the customers who left.  [Customer.update] mutates the
    object the slot refers to, so the slot holds the updated customer. *)
Fixpoint update_from (idx : list nat) (q : t) (dt : F) (modifiers : gmap string F)
    (left_customers : list (Customer.t F)) : result (t * list (Customer.t F)) :=
  match idx with
  | [] => mret (q, left_customers)
  | i :: rest =>
      slot ← Py.index (customers q) (Z.of_nat i);
      match slot with
      | Some c =>
          let c := Customer.update c dt modifiers in
          if Customer.patience c ≼ lit 0
          then update_from rest (store q i None) dt modifiers (left_customers ++ [c])
          else update_from rest (store q i (Some c)) dt modifiers left_customers
      | None => update_from rest q dt modifiers left_customers
      end
  end.

(** [CustomerQueue.update] *)
Definition update (q : t) (dt : F) (modifiers : gmap string F)
    : result (t * list (Customer.t F)) :=
  update_from (seq 0 (max_size q)) q dt modifiers [].

(** The number of occupied slots. *)
Definition occupied (q : t) : nat := length (get_active_customers q).

(** What [__init__] and [start_day] establish: one slot per unit of
    capacity. *)
Definition well_formed (q : t) : Prop := length (customers q) = max_size q.

End WithFloat.
Global Arguments t F : clear implicits.
End CustomerQueue.

Module BrewingStation.
Section WithFloat.
Context {F : Type} `{PyFloat F}.
Local Open Scope pyfloat_scope.

(** class [BrewingStation] *)
Record t : Type := mk {
  current_recipe : list string;
  available_ingredients : list string;
  brew_time_per_step : F;
  current_brew_time : F;
  is_brewing : bool;
  selected_customer_index : option Z;
}.

(** [BrewingStation.__init__] *)
Definition init : t :=
  mk [] ["beans"; "milk"; "stardust"; "meteor_shot"; "moonlight"; "sigil"]
     (lit 1.2) (lit 0) false None.

(** [BrewingStation.start_order] *)
Definition start_order (b : t) (customer_index : Z) : t :=
  mk [] (available_ingredients b) (brew_time_per_step b) (lit 0) true
     (Some customer_index).

(** [BrewingStation.add_ingredient] *)
Definition add_ingredient (b : t) (ingredient : string) : t * bool :=
  if bool_decide (ingredient ∈ available_ingredients b)
     && (length (current_recipe b) <? 3)%nat
  then (mk (current_recipe b ++ [ingredient]) (available_ingredients b)
           (brew_time_per_step b) (lit 0) (is_brewing b)
           (selected_customer_index b), true)
  else (b, false).

(** [BrewingStation.update] *)
Definition update (b : t) (dt : F) (modifiers : gmap string F) : t * bool :=
  if is_brewing b && negb (bool_decide (current_recipe b = [])) then
    let brew_speed := Py.get modifiers "brew_speed" (lit 1) in
    let b := mk (current_recipe b) (available_ingredients b)
                (brew_time_per_step b) (current_brew_time b ⊕ dt ⊗ brew_speed)
                (is_brewing b) (selected_customer_index b) in
    if brew_time_per_step b ≼ current_brew_time b then (b, true) else (b, false)
  else (b, false).

(** [BrewingStation.complete_order] *)
Definition complete_order (b : t) : t * list string :=
  (mk [] (available_ingredients b) (brew_time_per_step b) (current_brew_time b)
      false None, current_recipe b).

(** [BrewingStation.cancel_order] *)
Definition cancel_order (b : t) : t :=
  mk [] (available_ingredients b) (brew_time_per_step b) (current_brew_time b)
     false None.

End WithFloat.
Global Arguments t F : clear implicits.
End BrewingStation.

Module ServiceController.
Section WithFloat.
Context {F : Type} `{PyFloat F}.
Local Open Scope pyfloat_scope.

(** An entry of [customer_pool], as loaded from the customer table:
    [template['name']], [template['species']], [template['quirk']],
    [float(template['patience'])] and [template['tip']]. *)
Record template : Type := mk_template {
  t_name : string;
  t_species : string;
  t_quirk : option string;
  t_patience : F;
  t_tip : list Z;
}.

(** class [ServiceController] *)
Record t : Type := mk {
  recipe_book : RecipeBook.t;
  customer_queue : CustomerQueue.t F;
  brewing_station : BrewingStation.t F;
  customer_pool : list template;
  day_time : F;
  time_remaining : F;
  customers_served : Z;
  total_tips : Z;
  spawn_timer : F;
  spawn_interval : F;
  cafe_heat : F;
  active : bool;
}.

(** The draws of the random generator that one call may consume:
    [random.choice(self.customer_pool)], the [random.choice] of
    [get_random_recipe] and [random.uniform(-2, 2)]. *)
Record draws : Type := mk_draws {
  template_draw : nat;
  recipe_draw : nat;
  jitter : F;
}.

(** The dictionary [serve_drink] returns.  [success] holds the value of
    [desired_recipe and desired_recipe.matches(recipe_steps)], which is
    Python's [None] when the recipe is unknown. *)
Record serve_result : Type := mk_serve_result {
  success : option bool;
  tip : Z;
  message : string;
}.

(** The dictionary [update] returns. *)
Record events : Type := mk_events {
  customers_left : list (Customer.t F);
  day_ended : bool;
}.

(** [ServiceController.__init__], given the loaded recipe book and customer
    pool. *)
Definition init (book : RecipeBook.t) (pool : list template) : t :=
  mk book (CustomerQueue.init 5) BrewingStation.init pool
     (lit 90) (lit 90) 0 0 (lit 0) (lit 12) (lit 0) false.

Definition set_queue (s : t) (q : CustomerQueue.t F) : t :=
  mk (recipe_book s) q (brewing_station s) (customer_pool s) (day_time s)
     (time_remaining s) (customers_served s) (total_tips s) (spawn_timer s)
     (spawn_interval s) (cafe_heat s) (active s).

Definition set_station (s : t) (b : BrewingStation.t F) : t :=
  mk (recipe_book s) (customer_queue s) b (customer_pool s) (day_time s)
     (time_remaining s) (customers_served s) (total_tips s) (spawn_timer s)
     (spawn_interval s) (cafe_heat s) (active s).

Definition set_spawn_timer (s : t) (x : F) : t :=
  mk (recipe_book s) (customer_queue s) (brewing_station s) (customer_pool s)
     (day_time s) (time_remaining s) (customers_served s) (total_tips s) x
     (spawn_interval s) (cafe_heat s) (active s).

Definition set_cafe_heat (s : t) (x : F) : t :=
  mk (recipe_book s) (customer_queue s) (brewing_station s) (customer_pool s)
     (day_time s) (time_remaining s) (customers_served s) (total_tips s)
     (spawn_timer s) (spawn_interval s) x (active s).

Definition set_clock (s : t) (remaining : F) (act : bool) : t :=
  mk (recipe_book s) (customer_queue s) (brewing_station s) (customer_pool s)
     (day_time s) remaining (customers_served s) (total_tips s)
     (spawn_timer s) (spawn_interval s) (cafe_heat s) act.

Definition set_stats (s : t) (served tips : Z) : t :=
  mk (recipe_book s) (customer_queue s) (brewing_station s) (customer_pool s)
     (day_time s) (time_remaining s) served tips
     (spawn_timer s) (spawn_interval s) (cafe_heat s) (active s).

(** The [Customer(...)] that [spawn_customer] builds from a template, with
    the ghost made invisible. *)
Definition new_customer (tpl : template) (recipe : Recipe.t) : Customer.t F :=
  let customer :=
    Customer.mk (t_name tpl) (t_species tpl) (t_quirk tpl) (t_patience tpl)
                (t_patience tpl) (t_tip tpl) (Some (Recipe.id recipe)) true (lit 0) in
  if Customer.is_invisible_quirk customer
  then Customer.set_is_visible customer false
  else customer.

(** [ServiceController.spawn_customer] *)
Definition spawn_customer (s : t) (rnd : draws) : result (t * bool) :=
  if bool_decide (customer_pool s = []) || negb (active s) then mret (s, false)
  else
    tpl ← Py.choice (customer_pool s) (template_draw rnd);
    recipe ← RecipeBook.get_random_recipe (recipe_book s) (recipe_draw rnd);
    '(q, added) ← CustomerQueue.add_customer (customer_queue s) (new_customer tpl recipe);
    mret (set_queue s q, added).

(** [ServiceController.start_day] *)
Definition start_day (s : t) (day : Z) (rnd : draws) : result t :=
  let q := CustomerQueue.mk
             (replicate (CustomerQueue.max_size (customer_queue s)) None)
             (CustomerQueue.max_size (customer_queue s)) in
  let s := mk (recipe_book s) q (brewing_station s) (customer_pool s)
              (day_time s) (day_time s) 0 0 (lit 2) (spawn_interval s)
              (lit 0) true in
  '(s, _) ← spawn_customer s rnd;
  mret s.

(** Python's [max(a, b)] and [min(a, b)]: the first argument is kept unless
    the second is strictly greater (smaller). *)
Definition py_max (a b : F) : F := if a ≺ b then b else a.
Definition py_min (a b : F) : F := if b ≺ a then b else a.

(** [any(c and c.species == "fire_elemental" for c in ...customers)] *)
Definition has_fire_elemental (q : CustomerQueue.t F) : bool :=
  existsb (λ slot, match slot with
                   | Some c => bool_decide (Customer.species c = "fire_elemental")
                   | None => false
                   end) (CustomerQueue.customers q).

(** [ServiceController.update] *)
Definition update (s : t) (dt : F) (modifiers : gmap string F) (rnd : draws)
    : result (t * events) :=
  if negb (active s) then mret (s, mk_events [] false)
  else
    (* Update time *)
    let remaining := time_remaining s ⊖ dt in
    let '(s, ended) :=
      if remaining ≼ lit 0 then (set_clock s (lit 0) false, true)
      else (set_clock s remaining (active s), false) in
    (* Spawn timer *)
    let s := set_spawn_timer s (spawn_timer s ⊖ dt) in
    s ← (if (spawn_timer s ≼ lit 0)
            && (customers_served s
                + Z.of_nat (length (CustomerQueue.get_active_customers (customer_queue s)))
                <? 8)%Z
         then
           '(s, spawned) ← spawn_customer s rnd;
           mret (if (spawned : bool)
                 then set_spawn_timer s (spawn_interval s ⊕ jitter rnd)
                 else s)
         else mret s);
    (* Update customers *)
    '(q, left_customers) ← CustomerQueue.update (customer_queue s) dt modifiers;
    let s := set_queue s q in
    (* Update brewing *)
    let s := set_station s (BrewingStation.update (brewing_station s) dt modifiers).1 in
    (* Update cafe heat *)
    let s :=
      if has_fire_elemental (customer_queue s)
      then set_cafe_heat s (py_min (lit 100) (cafe_heat s ⊕ dt ⊗ lit 10))
      else set_cafe_heat s (py_max (lit 0) (cafe_heat s ⊖ dt ⊗ lit 5)) in
    mret (s, mk_events left_customers ended).

(** Python's truth value of [desired_recipe and desired_recipe.matches(...)] *)
Definition truthy (v : option bool) : bool :=
  match v with
  | Some b => b
  | None => false
  end.

(** The result [serve_drink] starts from and returns when there is nobody
    to serve. *)
Definition no_service : serve_result := mk_serve_result (Some false) 0 "".

(** [ServiceController.serve_drink] *)
Definition serve_drink (s : t) (recipe_steps : list string)
    : result (t * serve_result) :=
  match BrewingStation.selected_customer_index (brewing_station s) with
  | None => mret (s, no_service)
  | Some customer_index =>
      slot ← Py.index (CustomerQueue.customers (customer_queue s)) customer_index;
      match slot with
      | None => mret (s, no_service)
      | Some customer =>
          (* Check if recipe matches *)
          let desired_recipe :=
            RecipeBook.find (recipe_book s) (Customer.desired_recipe customer) in
          let correct :=
            match desired_recipe with
            | Some r => Some (Recipe.matches r recipe_steps)
            | None => None
            end in
          (* Calculate tip *)
          patience_ratio ← fdiv (Customer.patience customer) (Customer.max_patience customer);
          tip ← Customer.calculate_tip customer (truthy correct) patience_ratio;
          (* Update stats *)
          let s := set_stats s (customers_served s + 1) (total_tips s + tip) in
          (* Remove customer *)
          '(q, _) ← CustomerQueue.remove_customer (customer_queue s) customer_index;
          let s := set_queue s q in
          let message :=
            match desired_recipe with
            | Some r =>
                if Recipe.matches r recipe_steps
                then Customer.name customer +:+ " loved their " +:+ Recipe.name r +:+ "!"
                else Customer.name customer +:+ " didn't get what they ordered..."
            | None => Customer.name customer +:+ " didn't get what they ordered..."
            end in
          mret (s, mk_serve_result correct tip message)
      end
  end.

(** [ServiceController.ring_bell]; [customer.reveal()] uses the default
    duration of 2.0. *)
Definition ring_bell (s : t) : t :=
  set_queue s
    (CustomerQueue.mk
       ((λ slot : option (Customer.t F),
           match slot with
           | Some customer =>
               if Customer.is_invisible_quirk customer
               then Some (Customer.reveal customer (lit 2))
               else Some customer
           | None => None
           end) <$> CustomerQueue.customers (customer_queue s))
       (CustomerQueue.max_size (customer_queue s))).

(** [ServiceController.get_ice_melt_rate] *)
Definition get_ice_melt_rate (s : t) : result F := fdiv (cafe_heat s) (lit 100).

End WithFloat.
Global Arguments t F : clear implicits.
Global Arguments template F : clear implicits.
Global Arguments draws F : clear implicits.
Global Arguments events F : clear implicits.
End ServiceController.

(** ** [chaos.py] *)

Module PortalEvent.
Section WithFloat.
Context {F : Type} `{PyFloat F}.
Local Open Scope pyfloat_scope.

(** class [PortalEvent], with the fields of its base class [ChaosEvent] *)
Record t : Type := mk {
  active : bool;
  resolved : bool;
  timer : F;
  rift_stability : F;
  drain_rate : F;
  pastries_lost : Z;
  max_pastries_lost : Z;
}.

(** The dictionaries [update] returns. *)
Inductive report : Type :=
| no_report
| portal_failed (pastries_lost : Z) (message : string)
| snapshot (rift_stability : F) (pastries_lost : Z).

(** The dictionary [resolve] returns; its message reads "Portal banished!
    Saved [saved] pastries!". *)
Record closed : Type := mk_closed {
  bonus : Z;
  saved : Z;
}.

(** The [data] argument of [can_resolve], of any type. *)
Inductive any : Type :=
| a_list (l : list string)
| not_a_list.

(** [PortalEvent.__init__] *)
Definition init : t := mk false false (lit 0) (lit 100) (lit 5) 0 10.

(** [PortalEvent.start] *)
Definition start (e : t) : t :=
  mk true false (timer e) (lit 100) (drain_rate e) 0 (max_pastries_lost e).

(** [max(0, x)] *)
Definition max0 (x : F) : F := if lit 0 ≺ x then x else lit 0.

(** [PortalEvent.update] *)
Definition update (e : t) (dt : F) : t * report :=
  if negb (active e) || resolved e then (e, no_report)
  else
    (* Drain rift stability *)
    let rift := max0 (rift_stability e ⊖ drain_rate e ⊗ dt) in
    (* Lose pastries periodically *)
    let timer' := timer e ⊕ dt in
    let '(timer', lost) :=
      if lit 2 ≼ timer' then (lit 0, (pastries_lost e + 1)%Z)
      else (timer', pastries_lost e) in
    (* Check fail condition *)
    if (rift ≼ lit 0) || (max_pastries_lost e <=? lost)%Z
    then (mk false (resolved e) timer' rift (drain_rate e) lost (max_pastries_lost e),
          portal_failed lost "The portal consumed too many pastries!")
    else (mk (active e) (resolved e) timer' rift (drain_rate e) lost (max_pastries_lost e),
          snapshot rift lost).

(** [PortalEvent.can_resolve] *)
Definition can_resolve (e : t) (action : string) (data : any) : bool :=
  match data with
  | a_list l =>
      if negb (bool_decide (action = "serve_drink")) then false
      else bool_decide (l = ["beans"; "moonlight"; "sigil"])
  | not_a_list => false
  end.

(** [PortalEvent.resolve] *)
Definition resolve (e : t) : result (t * closed) :=
  let e := mk false true (timer e) (rift_stability e) (drain_rate e)
              (pastries_lost e) (max_pastries_lost e) in
  (* Bonus based on remaining stability *)
  tenth ← fdiv (rift_stability e) (lit 10);
  bonus ← int_of_float tenth;
  mret (e, mk_closed bonus (10 - pastries_lost e)).

End WithFloat.
Global Arguments t F : clear implicits.
Global Arguments report F : clear implicits.
End PortalEvent.

Module ChaosManager.
Section WithFloat.
Context {F : Type} `{PyFloat F}.
Local Open Scope pyfloat_scope.

(** class [ChaosManager] *)
Record t : Type := mk {
  current_event : option (PortalEvent.t F);
  event_triggered : bool;
  trigger_time : F;
}.

(** [ChaosManager.__init__] *)
Definition init : t := mk None false (lit 45).

(** [ChaosManager.reset] *)
Definition reset (m : t) : t := mk None false (trigger_time m).

(** [ChaosManager.check_trigger] *)
Definition check_trigger (m : t) (time_remaining : F) : t * bool :=
  if negb (event_triggered m) && (time_remaining ≼ trigger_time m)
  then (mk (Some (PortalEvent.start PortalEvent.init)) true (trigger_time m), true)
  else (m, false).

(** [ChaosManager.update] *)
Definition update (m : t) (dt : F) : t * PortalEvent.report F :=
  match current_event m with
  | Some e =>
      if PortalEvent.active e then
        let '(e, r) := PortalEvent.update e dt in
        (mk (Some e) (event_triggered m) (trigger_time m), r)
      else (m, PortalEvent.no_report)
  | None => (m, PortalEvent.no_report)
  end.

(** [ChaosManager.try_resolve] *)
Definition try_resolve (m : t) (action : string) (data : PortalEvent.any)
    : result (t * option PortalEvent.closed) :=
  match current_event m with
  | Some e =>
      if negb (PortalEvent.active e) then mret (m, None)
      else if PortalEvent.can_resolve e action data then
        '(e, c) ← PortalEvent.resolve e;
        mret (mk (Some e) (event_triggered m) (trigger_time m), Some c)
      else mret (m, None)
  | None => mret (m, None)
  end.

(** [ChaosManager.is_active] *)
Definition is_active (m : t) : bool :=
  match current_event m with
  | Some e => PortalEvent.active e
  | None => false
  end.

End WithFloat.
Global Arguments t F : clear implicits.
End ChaosManager.

(** ** [upgrades.py] *)

Module Upgrade.
Section WithFloat.
Context {F : Type}.

(** class [Upgrade] *)
Record t : Type := mk {
  id : string;
  name : string;
  description : string;
  cost : Z;
  effect_key : string;
  effect_value : F;
  icon : option string;
}.

End WithFloat.
Global Arguments t F : clear implicits.
End Upgrade.

Module UpgradeManager.
Section WithFloat.
Context {F : Type} `{PyFloat F}.
Local Open Scope pyfloat_scope.

(** class [UpgradeManager] *)
Record t : Type := mk {
  available_upgrades : gmap string (Upgrade.t F);
  purchased_upgrades : list string;
  modifiers : gmap string F;
}.

(** The dictionary [__init__] and [reset] assign to [modifiers]. *)
Definition base_modifiers : gmap string F :=
  <["brew_speed" := lit 1]> (<["patience_decay" := lit 1]>
    (<["tip_multiplier" := lit 1]> ∅)).

(** [UpgradeManager._init_upgrades] *)
Definition _init_upgrades : gmap string (Upgrade.t F) :=
  <["enchanted_grinder" :=
      Upgrade.mk "enchanted_grinder" "Enchanted Grinder" "Reduces brew time by 20%"
                 15 "brew_speed" (lit 1.2) (Some "upgrade_grinder")]>
  (<["calming_fern" :=
      Upgrade.mk "calming_fern" "Calming Fern" "Slows patience decay by 15%"
                 20 "patience_decay" (lit 0.85) (Some "upgrade_fern")]> ∅).

(** [UpgradeManager.__init__] *)
Definition init : t := mk _init_upgrades [] base_modifiers.

(** [UpgradeManager.can_afford] *)
Definition can_afford (m : t) (upgrade_id : string) (coins : Z) : bool :=
  match available_upgrades m !! upgrade_id with
  | Some upgrade => (Upgrade.cost upgrade <=? coins)%Z
  | None => false
  end.

(** [UpgradeManager.is_purchased] *)
Definition is_purchased (m : t) (upgrade_id : string) : bool :=
  bool_decide (upgrade_id ∈ purchased_upgrades m).

(** [UpgradeManager._apply_upgrade]: both branches of the source multiply. *)
Definition _apply_upgrade (m : t) (upgrade : Upgrade.t F) : t :=
  match modifiers m !! Upgrade.effect_key upgrade with
  | Some v =>
      mk (available_upgrades m) (purchased_upgrades m)
         (<[Upgrade.effect_key upgrade := v ⊗ Upgrade.effect_value upgrade]> (modifiers m))
  | None => m
  end.

(** [UpgradeManager.purchase] *)
Definition purchase (m : t) (upgrade_id : string) (coins : Z) : t * option Z :=
  if bool_decide (upgrade_id ∈ purchased_upgrades m) then (m, None)
  else
    match available_upgrades m !! upgrade_id with
    | None => (m, None)
    | Some upgrade =>
        if (coins <? Upgrade.cost upgrade)%Z then (m, None)
        else
          let m := mk (available_upgrades m) (purchased_upgrades m ++ [upgrade_id])
                      (modifiers m) in
          (_apply_upgrade m upgrade, Some (coins - Upgrade.cost upgrade)%Z)
    end.

(** The three reasons for which a purchase is refused: the upgrade is
    already purchased, it is not in the catalogue, or it costs more than
    [coins]. *)
Definition refused (m : t) (upgrade_id : string) (coins : Z) : Prop :=
  upgrade_id ∈ purchased_upgrades m
  ∨ available_upgrades m !! upgrade_id = None
  ∨ ∃ u, available_upgrades m !! upgrade_id = Some u ∧ (coins < Upgrade.cost u)%Z.

(** [UpgradeManager.get_modifiers] *)
Definition get_modifiers (m : t) : gmap string F := modifiers m.

(** [UpgradeManager.reset] *)
Definition reset (m : t) : t := mk (available_upgrades m) [] base_modifiers.

(** [UpgradeManager.get_shop_upgrades]; the values of the dictionary come
    in the order of the map, which need not be the order of insertion. *)
Definition get_shop_upgrades (m : t) : list (Upgrade.t F) :=
  filter (λ u, Upgrade.id u ∉ purchased_upgrades m)
         (map_to_list (available_upgrades m)).*2.

(** [UpgradeManager.get_purchased_upgrades] *)
Definition get_purchased_upgrades (m : t) : list (Upgrade.t F) :=
  omap (λ uid, available_upgrades m !! uid) (purchased_upgrades m).

End WithFloat.
Global Arguments t F : clear implicits.
End UpgradeManager.

(** ** Sequences of calls

    The host drives the simulation through its public operations.  A run is
    the list of the calls made, in order; a call that raises ends the run
    with that exception. *)

Module QueueRun.
Section WithFloat.
Context {F : Type} `{PyFloat F}.

(** The calls of [CustomerQueue].  Every [add_customer] passes a customer
    object of its own, as [spawn_customer] does. *)
Inductive call : Type :=
| add_customer (customer : Customer.t F)
| remove_customer (index : Z)
| update (dt : F) (modifiers : gmap string F).

Definition step (q : CustomerQueue.t F) (c : call) : result (CustomerQueue.t F) :=
  match c with
  | add_customer customer => fst <$> CustomerQueue.add_customer q customer
  | remove_customer index => fst <$> CustomerQueue.remove_customer q index
  | update dt modifiers => fst <$> CustomerQueue.update q dt modifiers
  end.

Fixpoint run (q : CustomerQueue.t F) (calls : list call) : result (CustomerQueue.t F) :=
  match calls with
  | [] => mret q
  | c :: rest => q ← step q c; run q rest
  end.

(** What a tick makes of a slot: the customer in it ages, and leaves the
    slot empty when the patience is used up. *)
Definition aged (dt : F) (modifiers : gmap string F) (slot : option (Customer.t F))
    : option (Customer.t F) :=
  match slot with
  | Some c =>
      let c := Customer.update c dt modifiers in
      if (Customer.patience c ≼ lit 0)%py then None else Some c
  | None => None
  end.

(** The customer whom a tick makes leave a slot, if any. *)
Definition leaver (dt : F) (modifiers : gmap string F) (slot : option (Customer.t F))
    : option (Customer.t F) :=
  match slot with
  | Some c =>
      let c := Customer.update c dt modifiers in
      if (Customer.patience c ≼ lit 0)%py then Some c else None
  | None => None
  end.

(** Slot [i] is the first empty slot. *)
Definition first_empty (q : CustomerQueue.t F) (i : nat) : Prop :=
  CustomerQueue.customers q !! i = Some None
  ∧ ∀ j, j < i → ∃ c, CustomerQueue.customers q !! j = Some (Some c).

End WithFloat.
Global Arguments call F : clear implicits.
End QueueRun.

Module BrewRun.
Section WithFloat.
Context {F : Type} `{PyFloat F}.

(** What successive [BrewingStation.update] calls return, with nothing else
    touching the station in between; a tick is the pair of arguments. *)
Fixpoint updates (b : BrewingStation.t F) (ticks : list (F * gmap string F))
    : list bool :=
  match ticks with
  | [] => []
  | (dt, modifiers) :: rest =>
      let '(b, finished) := BrewingStation.update b dt modifiers in
      finished :: updates b rest
  end.

(** The current step is complete: the station is brewing a sequence that
    is not empty and the accumulated time has reached the threshold. *)
Definition complete (b : BrewingStation.t F) : Prop :=
  BrewingStation.is_brewing b = true
  ∧ BrewingStation.current_recipe b ≠ []
  ∧ (BrewingStation.brew_time_per_step b ≼ BrewingStation.current_brew_time b)%py = true.

(** A tick that does not move the brew time backwards:
    [dt * brew_speed >= 0]. *)
Definition advancing (tick : F * gmap string F) : Prop :=
  (lit 0 ≼ tick.1 ⊗ Py.get tick.2 "brew_speed" (lit 1))%py = true.

End WithFloat.
End BrewRun.

Module PortalRun.
Section WithFloat.
Context {F : Type} `{PyFloat F}.

(** The event after [n] calls of [update dt]. *)
Fixpoint ticks (n : nat) (dt : F) (e : PortalEvent.t F) : PortalEvent.t F :=
  match n with
  | O => e
  | S n => ticks n dt (PortalEvent.update e dt).1
  end.

(** The number of the first of at most [fuel] calls of [update dt] that
    reports [portal_failed], counted from [k + 1], with the event it
    leaves. *)
Fixpoint first_failure (fuel : nat) (k : nat) (dt : F) (e : PortalEvent.t F)
    : option (nat * PortalEvent.t F) :=
  match fuel with
  | O => None
  | S fuel =>
      match PortalEvent.update e dt with
      | (e, PortalEvent.portal_failed _ _) => Some (S k, e)
      | (e, _) => first_failure fuel (S k) dt e
      end
  end.

(** What the host can read off an event: whether it is active, whether it
    is resolved, whether its stability is used up ([rift_stability <= 0]),
    and the pastries lost. *)
Definition observe (e : PortalEvent.t F) : bool * bool * bool * Z :=
  (PortalEvent.active e, PortalEvent.resolved e,
   (PortalEvent.rift_stability e ≼ lit 0)%py, PortalEvent.pastries_lost e).

(** The first failure within [fuel] ticks of [dt]: the number of the tick
    and what is observed of the event after it. *)
Definition failure (fuel : nat) (dt : F) (e : PortalEvent.t F)
    : option (nat * (bool * bool * bool * Z)) :=
  match first_failure fuel 0 dt e with
  | Some (n, e) => Some (n, observe e)
  | None => None
  end.

(** The event after one [update] per element of [dts]. *)
Definition after (e : PortalEvent.t F) (dts : list F) : PortalEvent.t F :=
  foldl (λ e dt, (PortalEvent.update e dt).1) e dts.

End WithFloat.
End PortalRun.

Module ChaosRun.
Section WithFloat.
Context {F : Type} `{PyFloat F}.

(** The calls of [ChaosManager] within one day. *)
Inductive call : Type :=
| check_trigger (time_remaining : F)
| update (dt : F)
| try_resolve (action : string) (data : PortalEvent.any).

(** What a call returned. *)
Inductive returned : Type :=
| triggered (b : bool)
| reported (r : PortalEvent.report F)
| resolution (r : option PortalEvent.closed).

Definition step (m : ChaosManager.t F) (c : call)
    : result (ChaosManager.t F * returned) :=
  match c with
  | check_trigger time_remaining =>
      let '(m, b) := ChaosManager.check_trigger m time_remaining in
      mret (m, triggered b)
  | update dt =>
      let '(m, r) := ChaosManager.update m dt in
      mret (m, reported r)
  | try_resolve action data =>
      '(m, r) ← ChaosManager.try_resolve m action data;
      mret (m, resolution r)
  end.

Fixpoint run (m : ChaosManager.t F) (calls : list call)
    : result (ChaosManager.t F * list returned) :=
  match calls with
  | [] => mret (m, [])
  | c :: rest =>
      '(m, r) ← step m c;
      '(m, rs) ← run m rest;
      mret (m, r :: rs)
  end.

(** A [check_trigger] call whose argument is at most the trigger time of
    the manager. *)
Definition fires (m : ChaosManager.t F) (c : call) : bool :=
  match c with
  | check_trigger time_remaining =>
      (time_remaining ≼ ChaosManager.trigger_time m)%py
  | _ => false
  end.

(** A return value that tells the end of the portal event: the report of
    its failure, or its resolution. *)
Definition ending (r : returned) : bool :=
  match r with
  | reported (PortalEvent.portal_failed _ _) => true
  | resolution (Some _) => true
  | _ => false
  end.

(** A return value that tells nothing: [False], [{}] or [None]. *)
Definition quiet (r : returned) : bool :=
  match r with
  | triggered false => true
  | reported PortalEvent.no_report => true
  | resolution None => true
  | _ => false
  end.

(** An [update] call that does not run the clock backwards: [dt >= 0]. *)
Definition forward (c : call) : Prop :=
  match c with
  | update dt => (lit 0 ≼ dt)%py = true
  | _ => True
  end.

(** No event was triggered yet. *)
Definition fresh (m : ChaosManager.t F) : Prop :=
  ChaosManager.current_event m = None ∧ ChaosManager.event_triggered m = false.

(** The portal is open: the event is active, not resolved, and fewer than
    ten pastries are lost. *)
Definition live (m : ChaosManager.t F) : Prop :=
  ∃ e, ChaosManager.current_event m = Some e
       ∧ ChaosManager.event_triggered m = true
       ∧ PortalEvent.active e = true
       ∧ PortalEvent.resolved e = false
       ∧ PortalEvent.max_pastries_lost e = 10%Z
       ∧ (0 ≤ PortalEvent.pastries_lost e < 10)%Z.

(** The portal event is over. *)
Definition over (m : ChaosManager.t F) : Prop :=
  ∃ e, ChaosManager.current_event m = Some e
       ∧ ChaosManager.event_triggered m = true
       ∧ PortalEvent.active e = false
       ∧ (0 ≤ PortalEvent.pastries_lost e ≤ 10)%Z.

(** The shape of a day's returns: nothing that tells an end, then perhaps
    one end, after which everything is quiet. *)
Definition one_end (m' : ChaosManager.t F) (outs : list returned) : Prop :=
  (Forall (λ r, ending r = false) outs ∧ (fresh m' ∨ live m'))
  ∨ ∃ before r after,
      outs = before ++ r :: after
      ∧ Forall (λ r, ending r = false) before
      ∧ ending r = true
      ∧ Forall (λ r, quiet r = true) after
      ∧ over m'
      ∧ ∀ cl, r = resolution (Some cl) → (1 ≤ PortalEvent.saved cl ≤ 10)%Z.

(** The stability of the current event, if any, is between 0 and 100, and
    it does not drain backwards. *)
Definition stable (m : ChaosManager.t F) : Prop :=
  ∀ e, ChaosManager.current_event m = Some e →
       (lit 0 ≼ PortalEvent.rift_stability e)%py = true
       ∧ (PortalEvent.rift_stability e ≼ lit 100)%py = true
       ∧ (lit 0 ≼ PortalEvent.drain_rate e)%py = true.

End WithFloat.
Global Arguments call F : clear implicits.
Global Arguments returned F : clear implicits.
End ChaosRun.

Module ServiceRun.
Section WithFloat.
Context {F : Type} `{PyFloat F}.

(** The calls of [ServiceController] and of the [BrewingStation] it owns. *)
Inductive call : Type :=
| start_day (day : Z) (rnd : ServiceController.draws F)
| update (dt : F) (modifiers : gmap string F) (rnd : ServiceController.draws F)
| spawn_customer (rnd : ServiceController.draws F)
| serve_drink (recipe_steps : list string)
| ring_bell
| start_order (customer_index : Z)
| add_ingredient (ingredient : string)
| complete_order
| cancel_order.

(** A call's effect on the controller, with the customers it handed back in
    [customers_left] (none for a call other than [update]). *)
Definition step (s : ServiceController.t F) (c : call)
    : result (ServiceController.t F * list (Customer.t F)) :=
  match c with
  | start_day day rnd =>
      s ← ServiceController.start_day s day rnd; mret (s, [])
  | update dt modifiers rnd =>
      '(s, ev) ← ServiceController.update s dt modifiers rnd;
      mret (s, ServiceController.customers_left ev)
  | spawn_customer rnd =>
      '(s, _) ← ServiceController.spawn_customer s rnd; mret (s, [])
  | serve_drink recipe_steps =>
      '(s, _) ← ServiceController.serve_drink s recipe_steps; mret (s, [])
  | ring_bell => mret (ServiceController.ring_bell s, [])
  | start_order customer_index =>
      mret (ServiceController.set_station s
              (BrewingStation.start_order (ServiceController.brewing_station s)
                 customer_index), [])
  | add_ingredient ingredient =>
      mret (ServiceController.set_station s
              (BrewingStation.add_ingredient (ServiceController.brewing_station s)
                 ingredient).1, [])
  | complete_order =>
      mret (ServiceController.set_station s
              (BrewingStation.complete_order (ServiceController.brewing_station s)).1, [])
  | cancel_order =>
      mret (ServiceController.set_station s
              (BrewingStation.cancel_order (ServiceController.brewing_station s)), [])
  end.

(** The controller after the calls, and every customer they handed back. *)
Fixpoint run (s : ServiceController.t F) (calls : list call)
    : result (ServiceController.t F * list (Customer.t F)) :=
  match calls with
  | [] => mret (s, [])
  | c :: rest =>
      '(s, gone) ← step s c;
      '(s, gone') ← run s rest;
      mret (s, gone ++ gone')
  end.

(** The customers in the slots of the queue. *)
Definition queued (s : ServiceController.t F) : list (Customer.t F) :=
  CustomerQueue.get_active_customers (ServiceController.customer_queue s).

(** The station is bound to slot [i] of the queue, which has one slot per
    unit of capacity. *)
Definition bound_to_slot (s : ServiceController.t F) (i : Z) : Prop :=
  BrewingStation.selected_customer_index (ServiceController.brewing_station s) = Some i
  ∧ (0 ≤ i < Z.of_nat (CustomerQueue.max_size (ServiceController.customer_queue s)))%Z
  ∧ CustomerQueue.well_formed (ServiceController.customer_queue s).

(** The content of slot [i]. *)
Definition slot (s : ServiceController.t F) (i : Z) : option (option (Customer.t F)) :=
  CustomerQueue.customers (ServiceController.customer_queue s) !! Z.to_nat i.







(** A call that does not run the clock backwards: [dt >= 0]. *)
Definition forward (c : call) : Prop :=
  match c with
  | update dt _ _ => (lit 0 ≼ dt)%py = true
  | _ => True
  end.

(** The fields that only [start_day] and [update] assign are the same in
    [s] and [s']. *)
Definition same_clock (s s' : ServiceController.t F) : Prop :=
  ServiceController.time_remaining s' = ServiceController.time_remaining s
  ∧ ServiceController.day_time s' = ServiceController.day_time s
  ∧ ServiceController.cafe_heat s' = ServiceController.cafe_heat s
  ∧ ServiceController.active s' = ServiceController.active s
  ∧ ServiceController.recipe_book s' = ServiceController.recipe_book s
  ∧ ServiceController.customer_pool s' = ServiceController.customer_pool s.

(** The day lasts 90 seconds, the time left is between 0 and 90 and the
    heat between 0 and 100. *)
Definition clock_inv (s : ServiceController.t F) : Prop :=
  ServiceController.day_time s = lit 90
  ∧ (lit 0 ≼ ServiceController.time_remaining s)%py = true
  ∧ (ServiceController.time_remaining s ≼ lit 90)%py = true
  ∧ (lit 0 ≼ ServiceController.cafe_heat s)%py = true
  ∧ (ServiceController.cafe_heat s ≼ lit 100)%py = true.

End WithFloat.
Global Arguments call F : clear implicits.
End ServiceRun.

(** ** A small cafe

    Sample tables in the format of the recipe and customer tables, on which
    the properties below are exercised. *)

Module Cafe.
Section WithFloat.
Context {F : Type} `{PyFloat F}.

Definition stardust_latte : Recipe.t :=
  Recipe.mk "stardust_latte" "Stardust Latte" ["beans"; "milk"; "stardust"] 1.

Definition banishing_espresso : Recipe.t :=
  Recipe.mk "banishing_espresso" "Banishing Espresso"
            ["beans"; "moonlight"; "sigil"] 3.

Definition book : RecipeBook.t :=
  RecipeBook.mk (<["stardust_latte" := stardust_latte]>
                   (<["banishing_espresso" := banishing_espresso]> ∅)).

(** A book that holds the reserved recipe only. *)
Definition only_banishing : RecipeBook.t :=
  RecipeBook.mk {[ "banishing_espresso" := banishing_espresso ]}.

(** A customer with 30 s of patience who tips between 2 and 5. *)
Definition zorp : Customer.t F :=
  Customer.mk "Zorp" "alien" None (lit 30) (lit 30) [2; 5]%Z
              (Some "stardust_latte") true (lit 0).

(** A station with one ingredient of an order in progress. *)
Definition brewing : BrewingStation.t F :=
  (BrewingStation.add_ingredient
     (BrewingStation.start_order BrewingStation.init 0) "beans").1.

(** The tick of the host loop, [1.0 / 60.0]. *)
Definition fixed_timestep : F := lit (1 # 60).

(** A freshly started portal event. *)
Definition portal : PortalEvent.t F := PortalEvent.start PortalEvent.init.

(** Calls of the chaos manager in the course of a day. *)
Definition day_calls : list (ChaosRun.call F) :=
  [ChaosRun.check_trigger (lit 60); ChaosRun.update fixed_timestep;
   ChaosRun.check_trigger (lit 45); ChaosRun.check_trigger (lit 30)].

(** The customer table: a single kind of customer. *)
Definition zorp_template : ServiceController.template F :=
  ServiceController.mk_template "Zorp" "alien" None (lit 30) [2; 5]%Z.

(** A template without any patience. *)
Definition worn_out_template : ServiceController.template F :=
  ServiceController.mk_template "Zorp" "alien" None (lit 0) [2; 5]%Z.

(** A template whose tip range is written in descending order. *)
Definition inverted_template : ServiceController.template F :=
  ServiceController.mk_template "Zorp" "alien" None (lit 30) [5; 2]%Z.

Definition no_draws : ServiceController.draws F :=
  ServiceController.mk_draws 0 0 (lit 0).

(** The cafe on the morning of day 1, its only kind of customer given by
    [tpl], with the first customer selected for brewing. *)
Definition opened (tpl : ServiceController.template F)
    : result (ServiceController.t F * list (Customer.t F)) :=
  ServiceRun.run (ServiceController.init book [tpl])
    [ServiceRun.start_day 1 no_draws; ServiceRun.start_order 0].

(** A controller with the sample book and customer table. *)
Definition cafe : ServiceController.t F :=
  ServiceController.init book [zorp_template].

(** The cafe on the morning of day 1, the first customer selected. *)
Definition morning : ServiceController.t F :=
  match opened zorp_template with
  | Ok (s, _) => s
  | Raise _ => cafe
  end.




(** A customer who tips between [lo] and [hi]. *)
Definition tipper (lo hi : Z) : Customer.t F :=
  Customer.mk "Zorp" "alien" None (lit 30) (lit 30) [lo; hi]
              (Some "stardust_latte") true (lit 0).

(** [calculate_tip(True, 1.0) == hi] and [calculate_tip(True, 0.0) == lo]
    for a customer who tips between [lo] and [hi]. *)
Definition endpoints (lo hi : nat) : bool :=
  Py.returns_int
    (Customer.calculate_tip (tipper (Z.of_nat lo) (Z.of_nat hi)) true (lit 1))
    (Z.of_nat hi)
  && Py.returns_int
       (Customer.calculate_tip (tipper (Z.of_nat lo) (Z.of_nat hi)) true (lit 0))
       (Z.of_nat lo).

End WithFloat.
End Cafe.

(** ** [dialogue.py] *)

Module DialogueLine.

(** class [DialogueLine] *)
Record t : Type := mk {
  speaker : string;
  text : string;
}.

End DialogueLine.

Module DialogueScene.

(** class [DialogueScene] *)
Record t : Type := mk {
  id : string;
  lines : list DialogueLine.t;
  context : string;
}.

End DialogueScene.

Module DialogueManager.

(** class [DialogueManager]; [scenes] is the dictionary as the list of its
    items, in the order of insertion. *)
Record t : Type := mk {
  scenes : list (string * list DialogueScene.t);
  current_scene : option DialogueScene.t;
  current_line_index : Z;
}.

(** [DialogueManager._init_dialogue] *)
Definition _init_dialogue : list (string * list DialogueScene.t) :=
  [("day_intro",
    [DialogueScene.mk "intro_1"
       [DialogueLine.mk "Mysterious Voice" "The veil between worlds grows thin today...";
        DialogueLine.mk "You" "Just another day at Eldritch Espresso!";
        DialogueLine.mk "Mysterious Voice" "Indeed. The coffee must flow."]
       "day_intro";
     DialogueScene.mk "intro_2"
       [DialogueLine.mk "Azzu" "The stars align favorably for lattes today.";
        DialogueLine.mk "You" "I'll keep that in mind!"]
       "day_intro";
     DialogueScene.mk "intro_3"
       [DialogueLine.mk "Ignis" "The flames speak of busy times ahead.";
        DialogueLine.mk "You" "Let's hope they're good tippers!";
        DialogueLine.mk "Ignis" "*crackles warmly*"]
       "day_intro"]);
   ("day_results",
    [DialogueScene.mk "results_1"
       [DialogueLine.mk "Whim" "The ethereal beans were perfectly balanced today.";
        DialogueLine.mk "You" "Thanks! I've been practicing.";
        DialogueLine.mk "Whim" "*phases through the wall contentedly*"]
       "day_results";
     DialogueScene.mk "results_2"
       [DialogueLine.mk "Elder Thing" "Ph'nglui mglw'nafh Caffeine R'lyeh wgah'nagl fhtagn!";
        DialogueLine.mk "You" "...I'll take that as a compliment?"]
       "day_results";
     DialogueScene.mk "results_3"
       [DialogueLine.mk "Cosmic Barista" "Your brewing resonates across dimensions.";
        DialogueLine.mk "You" "Just doing my best!";
        DialogueLine.mk "Cosmic Barista" "The multiverse appreciates good coffee."]
       "day_results"])].

(** [DialogueManager.__init__] *)
Definition init : t := mk _init_dialogue None 0.

(** [self.scenes[context]], if [context in self.scenes]. *)
Fixpoint scenes_of (items : list (string * list DialogueScene.t)) (context : string)
    : option (list DialogueScene.t) :=
  match items with
  | [] => None
  | (key, ctx_scenes) :: rest =>
      if bool_decide (key = context) then Some ctx_scenes else scenes_of rest context
  end.

(** Python's truth value of an [Optional[str]]. *)
Definition given (x : option string) : option string :=
  match x with
  | Some "" => None
  | _ => x
  end.

(** [DialogueManager.get_random_scene]; [rnd] is the draw of
    [random.choice]. *)
Definition get_random_scene (m : t) (context : string) (rnd : nat)
    : result (option DialogueScene.t) :=
  match scenes_of (scenes m) context with
  | Some (scene :: ctx_scenes) => Some <$> Py.choice (scene :: ctx_scenes) rnd
  | _ => mret None
  end.

(** The inner loop of [start_scene]: the first scene of the list with the
    given id. *)
Fixpoint find_scene (ctx_scenes : list DialogueScene.t) (scene_id : string)
    : option DialogueScene.t :=
  match ctx_scenes with
  | [] => None
  | scene :: rest =>
      if bool_decide (DialogueScene.id scene = scene_id) then Some scene
      else find_scene rest scene_id
  end.

(** The outer loop of [start_scene], over [self.scenes.values()]. *)
Fixpoint find_in_scenes (items : list (string * list DialogueScene.t))
    (scene_id : string) : option DialogueScene.t :=
  match items with
  | [] => None
  | (_, ctx_scenes) :: rest =>
      match find_scene ctx_scenes scene_id with
      | Some scene => Some scene
      | None => find_in_scenes rest scene_id
      end
  end.

(** [DialogueManager.start_scene] *)
Definition start_scene (m : t) (scene_id context : option string) (rnd : nat)
    : result (t * bool) :=
  match given scene_id with
  | Some scene_id =>
      match find_in_scenes (scenes m) scene_id with
      | Some scene => mret (mk (scenes m) (Some scene) 0, true)
      | None => mret (m, false)
      end
  | None =>
      match given context with
      | Some context =>
          scene ← get_random_scene m context rnd;
          mret (mk (scenes m) scene 0, bool_decide (is_Some scene))
      | None => mret (m, false)
      end
  end.

(** [DialogueManager.get_current_line] *)
Definition get_current_line (m : t) : result (option DialogueLine.t) :=
  match current_scene m with
  | None => mret None
  | Some scene =>
      if (Z.of_nat (length (DialogueScene.lines scene)) <=? current_line_index m)%Z
      then mret None
      else Some <$> Py.index (DialogueScene.lines scene) (current_line_index m)
  end.

(** [DialogueManager.advance] *)
Definition advance (m : t) : t * bool :=
  match current_scene m with
  | None => (m, false)
  | Some scene =>
      (mk (scenes m) (current_scene m) (current_line_index m + 1),
       (current_line_index m + 1 <? Z.of_nat (length (DialogueScene.lines scene)))%Z)
  end.

(** [DialogueManager.is_complete] *)
Definition is_complete (m : t) : bool :=
  match current_scene m with
  | None => true
  | Some scene =>
      (Z.of_nat (length (DialogueScene.lines scene)) <=? current_line_index m)%Z
  end.

(** [DialogueManager.end_scene] *)
Definition end_scene (m : t) : t := mk (scenes m) None 0.

(** The lines a reader sees who looks at the current line and advances, at
    most [fuel] times, until there is no line to show. *)
Fixpoint shown (fuel : nat) (m : t) : result (list DialogueLine.t) :=
  match fuel with
  | O => mret []
  | S fuel =>
      line ← get_current_line m;
      match line with
      | None => mret []
      | Some line => rest ← shown fuel (advance m).1; mret (line :: rest)
      end
  end.

End DialogueManager.

(** ** [screens.py]: the service screen *)

Module ServiceState.
Section WithFloat.
Context {F : Type} `{PyFloat F}.
Local Open Scope pyfloat_scope.

(** class [ServiceState]: the simulation it owns. *)
Record t : Type := mk {
  service_controller : ServiceController.t F;
  chaos_manager : ChaosManager.t F;
  upgrade_manager : UpgradeManager.t F;
}.

(** The results [update] passes on when the day ended: the entries
    [customers_served], [tips_earned] and [time_bonus] (the entry [day] is
    the application's). *)
Record results_data : Type := mk_results_data {
  customers_served : Z;
  tips_earned : Z;
  time_bonus : Z;
}.

(** [ServiceState.__init__], given the loaded recipe book and customer
    pool. *)
Definition init (book : RecipeBook.t) (pool : list (ServiceController.template F)) : t :=
  mk (ServiceController.init book pool) ChaosManager.init UpgradeManager.init.

Definition set_controller (st : t) (s : ServiceController.t F) : t :=
  mk s (chaos_manager st) (upgrade_manager st).

Definition set_station (st : t) (b : BrewingStation.t F) : t :=
  set_controller st (ServiceController.set_station (service_controller st) b).

Definition station (st : t) : BrewingStation.t F :=
  ServiceController.brewing_station (service_controller st).

(** [ServiceState.ring_bell] *)
Definition ring_bell (st : t) : t :=
  set_controller st (ServiceController.ring_bell (service_controller st)).

(** [ServiceState.add_ingredient] *)
Definition add_ingredient (st : t) (ingredient : string) : t :=
  match BrewingStation.selected_customer_index (station st) with
  | Some _ => set_station st (BrewingStation.add_ingredient (station st) ingredient).1
  | None => st
  end.

(** [ServiceState.serve_drink]; it returns nothing, the model hands out what
    [serve_drink] and [try_resolve] returned to it. *)
Definition serve_drink (st : t)
    : result (t * option ServiceController.serve_result * option PortalEvent.closed) :=
  let recipe := BrewingStation.current_recipe (station st) in
  match recipe, BrewingStation.selected_customer_index (station st) with
  | _ :: _, Some _ =>
      '(s, served) ← ServiceController.serve_drink (service_controller st) recipe;
      (* Check if this resolves chaos event *)
      '(cm, resolution) ←
        (if ChaosManager.is_active (chaos_manager st)
         then ChaosManager.try_resolve (chaos_manager st) "serve_drink"
                (PortalEvent.a_list recipe)
         else mret (chaos_manager st, None));
      (* Complete brewing *)
      let s := ServiceController.set_station s
                 (BrewingStation.complete_order (ServiceController.brewing_station s)).1 in
      mret (mk s cm (upgrade_manager st), Some served, resolution)
  | _, _ => mret (st, None, None)
  end.

(** [ServiceState.cancel_order] *)
Definition cancel_order (st : t) : t :=
  set_station st (BrewingStation.cancel_order (station st)).

(** [ServiceState.select_customer] *)
Definition select_customer (st : t) (index : Z) : result t :=
  customer ← Py.index
    (CustomerQueue.customers (ServiceController.customer_queue (service_controller st)))
    index;
  match customer with
  | Some _ => mret (set_station st (BrewingStation.start_order (station st) index))
  | None => mret st
  end.

(** [ServiceState.on_enter], for the day given in [data]. *)
Definition on_enter (st : t) (day : Z) (rnd : ServiceController.draws F) : result t :=
  s ← ServiceController.start_day (service_controller st) day rnd;
  mret (mk s (ChaosManager.reset (chaos_manager st)) (upgrade_manager st)).

(** [ServiceState.update]; when the day ended the screen changes to the
    day's results, and the model hands out the data passed along. *)
Definition update (st : t) (dt : F) (rnd : ServiceController.draws F)
    : result (t * option results_data) :=
  let modifiers := UpgradeManager.get_modifiers (upgrade_manager st) in
  (* Update service *)
  '(s, ev) ← ServiceController.update (service_controller st) dt modifiers rnd;
  (* Check for day end *)
  if ServiceController.day_ended ev then
    time_bonus ← int_of_float (ServiceController.time_remaining s);
    mret (set_controller st s,
          Some (mk_results_data (ServiceController.customers_served s)
                  (ServiceController.total_tips s) time_bonus))
  else
    (* Update chaos events *)
    let cm := (ChaosManager.check_trigger (chaos_manager st)
                 (ServiceController.time_remaining s)).1 in
    let cm := (ChaosManager.update cm dt).1 in
    mret (mk s cm (upgrade_manager st), None).

(** [DayResultsState.on_enter]: the total earnings of the day. *)
Definition total_earnings (data : results_data) : Z :=
  (tips_earned data + time_bonus data)%Z.

End WithFloat.
Global Arguments t F : clear implicits.
End ServiceState.

(** ** More sequences of calls *)

Module StationRun.
Section WithFloat.
Context {F : Type} `{PyFloat F}.

(** The calls of [BrewingStation]. *)
Inductive call : Type :=
| start_order (customer_index : Z)
| add_ingredient (ingredient : string)
| update (dt : F) (modifiers : gmap string F)
| complete_order
| cancel_order.

Definition step (b : BrewingStation.t F) (c : call) : BrewingStation.t F :=
  match c with
  | start_order customer_index => BrewingStation.start_order b customer_index
  | add_ingredient ingredient => (BrewingStation.add_ingredient b ingredient).1
  | update dt modifiers => (BrewingStation.update b dt modifiers).1
  | complete_order => (BrewingStation.complete_order b).1
  | cancel_order => BrewingStation.cancel_order b
  end.

Definition run (b : BrewingStation.t F) (calls : list call) : BrewingStation.t F :=
  foldl step b calls.

(** The station after [add_ingredient] is called for each element of
    [ingredients], in order. *)
Definition add_all (b : BrewingStation.t F) (ingredients : list string)
    : BrewingStation.t F :=
  foldl (λ b ingredient, (BrewingStation.add_ingredient b ingredient).1) b ingredients.

(** The sequence holds at most three ingredients, each one available. *)
Definition inv (b : BrewingStation.t F) : Prop :=
  length (BrewingStation.current_recipe b) ≤ 3
  ∧ Forall (λ x, x ∈ BrewingStation.available_ingredients b)
           (BrewingStation.current_recipe b).

End WithFloat.
Global Arguments call F : clear implicits.
End StationRun.

Module UpgradeRun.
Section WithFloat.
Context {F : Type} `{PyFloat F}.

(** The calls that change an [UpgradeManager]. *)
Inductive call : Type :=
| purchase (upgrade_id : string) (coins : Z)
| reset.

Definition step (m : UpgradeManager.t F) (c : call) : UpgradeManager.t F :=
  match c with
  | purchase upgrade_id coins => (UpgradeManager.purchase m upgrade_id coins).1
  | reset => UpgradeManager.reset m
  end.

Definition run (m : UpgradeManager.t F) (calls : list call) : UpgradeManager.t F :=
  foldl step m calls.

(** The modifiers that go with a list of purchases: each purchased upgrade
    has multiplied its modifier once. *)
Definition expected_modifiers (purchased : list string) : gmap string F :=
  <["brew_speed" :=
      if bool_decide ("enchanted_grinder" ∈ purchased)
      then (lit 1 ⊗ lit 1.2)%py else lit 1]>
  (<["patience_decay" :=
      if bool_decide ("calming_fern" ∈ purchased)
      then (lit 1 ⊗ lit 0.85)%py else lit 1]>
  (<["tip_multiplier" := lit 1]> ∅)).

(** What purchases and resets keep true of a manager. *)
Definition inv (m : UpgradeManager.t F) : Prop :=
  UpgradeManager.available_upgrades m = UpgradeManager._init_upgrades
  ∧ NoDup (UpgradeManager.purchased_upgrades m)
  ∧ Forall (λ k, k ∈ ["enchanted_grinder"; "calming_fern"])
           (UpgradeManager.purchased_upgrades m)
  ∧ UpgradeManager.modifiers m
    = expected_modifiers (UpgradeManager.purchased_upgrades m).

End WithFloat.
End UpgradeRun.

Module GhostRun.
Section WithFloat.
Context {F : Type} `{PyFloat F}.

(** The customer after one [update] per element of [dts]. *)
Definition after (c : Customer.t F) (dts : list F) (modifiers : gmap string F)
    : Customer.t F :=
  foldl (λ c dt, Customer.update c dt modifiers) c dts.


End WithFloat.
End GhostRun.

Module DialogueRun.

(** The calls that change a [DialogueManager]. *)
Inductive call : Type :=
| start_scene (scene_id context : option string) (rnd : nat)
| advance
| end_scene.

Definition step (m : DialogueManager.t) (c : call) : result DialogueManager.t :=
  match c with
  | start_scene scene_id context rnd =>
      fst <$> DialogueManager.start_scene m scene_id context rnd
  | advance => mret (DialogueManager.advance m).1
  | end_scene => mret (DialogueManager.end_scene m)
  end.

Fixpoint run (m : DialogueManager.t) (calls : list call) : result DialogueManager.t :=
  match calls with
  | [] => mret m
  | c :: rest => m ← step m c; run m rest
  end.

(** The line index never goes below 0. *)
Definition index_inv (m : DialogueManager.t) : Prop :=
  (0 ≤ DialogueManager.current_line_index m)%Z.

End DialogueRun.

(** ** [screens.py]: the upgrade shop *)

Module UpgradeShopState.
Section WithFloat.
Context {F : Type} `{PyFloat F}.

(** class [UpgradeShopState]: its upgrade manager, and the ["coins"] entry
    of [app.game_data], [None] when the key is absent. *)
Record t : Type := mk {
  upgrade_manager : UpgradeManager.t F;
  coins : option Z;
}.

(** [UpgradeShopState.__init__], with the game data as it stands. *)
Definition init (coins : option Z) : t := mk UpgradeManager.init coins.

(** [UpgradeShopState.purchase_upgrade] *)
Definition purchase_upgrade (st : t) (upgrade_id : string) : t :=
  let '(m, remaining_coins) :=
    UpgradeManager.purchase (upgrade_manager st) upgrade_id (default 0%Z (coins st)) in
  match remaining_coins with
  | Some remaining_coins => mk m (Some remaining_coins)
  | None => mk m (coins st)
  end.

(** What the purchased upgrades cost together. *)
Definition spent (st : t) : Z :=
  foldr (λ u total, (Upgrade.cost u + total)%Z) 0%Z
        (UpgradeManager.get_purchased_upgrades (upgrade_manager st)).

End WithFloat.
Global Arguments t F : clear implicits.
End UpgradeShopState.

Module HostRun.
Section WithFloat.
Context {F : Type} `{PyFloat F}.

(** What the service screen does to its simulation: entering the screen,
    a tick, a click on a customer card, an ingredient button, the serve and
    cancel buttons and the bell. *)
Inductive call : Type :=
| on_enter (day : Z) (rnd : ServiceController.draws F)
| update (dt : F) (rnd : ServiceController.draws F)
| select_customer (index : Z)
| add_ingredient (ingredient : string)
| serve_drink
| cancel_order
| ring_bell.

Definition step (st : ServiceState.t F) (c : call) : result (ServiceState.t F) :=
  match c with
  | on_enter day rnd => ServiceState.on_enter st day rnd
  | update dt rnd => fst <$> ServiceState.update st dt rnd
  | select_customer index => ServiceState.select_customer st index
  | add_ingredient ingredient => mret (ServiceState.add_ingredient st ingredient)
  | serve_drink => '(st, _, _) ← ServiceState.serve_drink st; mret st
  | cancel_order => mret (ServiceState.cancel_order st)
  | ring_bell => mret (ServiceState.ring_bell st)
  end.

Fixpoint run (st : ServiceState.t F) (calls : list call) : result (ServiceState.t F) :=
  match calls with
  | [] => mret st
  | c :: rest => st ← step st c; run st rest
  end.

(** The screen selects customers by the number of the card clicked, one of
    its five cards. *)
Definition card (c : call) : Prop :=
  match c with
  | select_customer index => (0 ≤ index < 5)%Z
  | _ => True
  end.

(** What the calls of the screen keep true of its simulation. *)
Definition inv (st : ServiceState.t F) : Prop :=
  let s := ServiceState.service_controller st in
  CustomerQueue.well_formed (ServiceController.customer_queue s)
  ∧ CustomerQueue.max_size (ServiceController.customer_queue s) = 5
  ∧ (∀ i, BrewingStation.selected_customer_index (ServiceController.brewing_station s)
          = Some i → (0 ≤ i < 5)%Z)
  ∧ (0 ≤ ServiceController.customers_served s)%Z
  ∧ (ServiceController.customers_served s
     + Z.of_nat (CustomerQueue.occupied (ServiceController.customer_queue s)) ≤ 8)%Z
  ∧ ServiceState.upgrade_manager st = UpgradeManager.init.

End WithFloat.
Global Arguments call F : clear implicits.
End HostRun.

(** ** More sample data *)

Module Counter.
Section WithFloat.
Context {F : Type} `{PyFloat F}.

(** A queue of five slots with customers in the first and the third. *)
Definition two_waiting : CustomerQueue.t F :=
  CustomerQueue.mk [Some Cafe.zorp; None; Some Cafe.zorp; None; None] 5.


(** The recipe table of the sample book. *)
Definition recipe_table : list Recipe.t :=
  [Cafe.stardust_latte; Cafe.banishing_espresso].

(** A fire elemental. *)
Definition ignis_template : ServiceController.template F :=
  ServiceController.mk_template "Ignis" "fire_elemental" None (lit 30) [2; 5]%Z.

(** A day with a fire elemental in the queue for three seconds. *)
Definition hot_day : list (ServiceRun.call F) :=
  [ServiceRun.start_day 1 Cafe.no_draws; ServiceRun.update (lit 3) ∅ Cafe.no_draws].

(** A manager whose portal has just opened. *)
Definition portal_open : ChaosManager.t F :=
  (ChaosManager.check_trigger ChaosManager.init (lit 45)).1.

(** A day on which the portal opens and is banished a tick later. *)
Definition portal_day : list (ChaosRun.call F) :=
  [ChaosRun.check_trigger (lit 45); ChaosRun.update Cafe.fixed_timestep;
   ChaosRun.try_resolve "serve_drink" (PortalEvent.a_list ["beans"; "moonlight"; "sigil"]);
   ChaosRun.update Cafe.fixed_timestep; ChaosRun.check_trigger (lit 30)].

(** The service screen of the sample cafe. *)
Definition screen : ServiceState.t F :=
  ServiceState.init Cafe.book [Cafe.zorp_template].

(** The screen after the calls, or as it was if one of them raised. *)
Definition after (calls : list (HostRun.call F)) : ServiceState.t F :=
  match HostRun.run screen calls with
  | Ok st => st
  | Raise _ => screen
  end.

(** The first customer of the day is selected and a stardust latte is in
    the making. *)
Definition ordering : list (HostRun.call F) :=
  [HostRun.on_enter 1 Cafe.no_draws; HostRun.select_customer 0;
   HostRun.add_ingredient "beans"; HostRun.add_ingredient "milk";
   HostRun.add_ingredient "stardust"].

(** Half a day passes, the portal opens, a customer arrives and is
    selected, and a banishing espresso is in the making. *)
Definition rush : list (HostRun.call F) :=
  [HostRun.on_enter 1 Cafe.no_draws;
   HostRun.update (lit 44) Cafe.no_draws; HostRun.update (lit 1) Cafe.no_draws;
   HostRun.update (lit 12) Cafe.no_draws; HostRun.select_customer 0;
   HostRun.add_ingredient "beans"; HostRun.add_ingredient "moonlight";
   HostRun.add_ingredient "sigil"].

End WithFloat.
End Counter.

(** * Properties *)

(** ** Facts about the run-time conventions *)

Lemma index_nat {A : Type} (l : list A) (i : nat) :
  Py.index l (Z.of_nat i) =
  match l !! i with Some a => Ok a | None => Raise IndexError end.
Proof.
  unfold Py.index.
  destruct (Z.ltb_spec (Z.of_nat i) 0) as [Hneg|_]; [lia|].
  rewrite Nat2Z.id.
  destruct (Z.leb_spec 0 (Z.of_nat i)) as [_|Hneg]; [|lia].
  destruct (Z.ltb_spec (Z.of_nat i) (Z.of_nat (length l))) as [Hlt|Hge]; simpl.
  - done.
  - rewrite lookup_ge_None_2; [done | lia].
Qed.

Lemma index_slot {A : Type} (l : list A) (i : Z) :
  (0 ≤ i)%Z →
  Py.index l i = match l !! Z.to_nat i with Some a => Ok a | None => Raise IndexError end.
Proof.
  intros Hi. rewrite <- (Z2Nat.id i) at 1 by done. apply index_nat.
Qed.

Section Purchase.
Context {F : Type} `{PyFloat F}.
Implicit Types (m : UpgradeManager.t F) (u : Upgrade.t F).

Lemma apply_upgrade_purchased m u :
  UpgradeManager.purchased_upgrades (UpgradeManager._apply_upgrade m u)
  = UpgradeManager.purchased_upgrades m.
Proof.
  unfold UpgradeManager._apply_upgrade.
  by destruct (UpgradeManager.modifiers m !! Upgrade.effect_key u).
Qed.

Lemma purchase_refused m upgrade_id coins :
  UpgradeManager.refused m upgrade_id coins →
  UpgradeManager.purchase m upgrade_id coins = (m, None).
Proof.
  unfold UpgradeManager.purchase.
  intros [Hin | [Hnone | (u & Hu & Hlt)]].
  - by rewrite bool_decide_eq_true_2.
  - case_bool_decide; [done|]. by rewrite Hnone.
  - case_bool_decide; [done|]. rewrite Hu.
    by destruct (Z.ltb_spec coins (Upgrade.cost u)); [|lia].
Qed.

Lemma purchase_accepted m upgrade_id coins :
  ¬ UpgradeManager.refused m upgrade_id coins →
  ∃ u, UpgradeManager.available_upgrades m !! upgrade_id = Some u
       ∧ (UpgradeManager.purchase m upgrade_id coins).2
         = Some (coins - Upgrade.cost u)%Z
       ∧ upgrade_id ∈ UpgradeManager.purchased_upgrades
                        (UpgradeManager.purchase m upgrade_id coins).1.
Proof.
  unfold UpgradeManager.refused, UpgradeManager.purchase. intros Hok.
  case_bool_decide as Hin; [tauto|].
  destruct (UpgradeManager.available_upgrades m !! upgrade_id) as [u|] eqn:Hu;
    [|tauto].
  destruct (Z.ltb_spec coins (Upgrade.cost u)) as [Hlt|Hge].
  { exfalso. apply Hok. right; right. by exists u. }
  exists u. simpl. split_and!; [done..|].
  rewrite apply_upgrade_purchased. simpl. set_solver.
Qed.

Lemma refused_dec m upgrade_id coins :
  UpgradeManager.refused m upgrade_id coins ∨ ¬ UpgradeManager.refused m upgrade_id coins.
Proof.
  unfold UpgradeManager.refused.
  destruct (decide (upgrade_id ∈ UpgradeManager.purchased_upgrades m)); [tauto|].
  destruct (UpgradeManager.available_upgrades m !! upgrade_id) as [u|]; [|tauto].
  destruct (Z.ltb_spec coins (Upgrade.cost u)).
  - left. right; right. by exists u.
  - right. intros [?|[?|(u' & [= <-] & ?)]]; [done..|lia].
Qed.

(** C5. [purchase] returns nothing exactly when the upgrade is already
    purchased, unknown, or too expensive; a refused purchase leaves the
    manager (purchased list and modifiers) as it was; an accepted purchase
    returns [coins - cost], and purchasing the same upgrade again, with any
    amount of coins, is refused and changes nothing. *)
Theorem purchase_spec m upgrade_id coins :
  let after := UpgradeManager.purchase m upgrade_id coins in
  (after.2 = None ↔ UpgradeManager.refused m upgrade_id coins)
  ∧ (after.2 = None → after.1 = m)
  ∧ (∀ remaining, after.2 = Some remaining →
       ∃ u, UpgradeManager.available_upgrades m !! upgrade_id = Some u
            ∧ remaining = (coins - Upgrade.cost u)%Z)
  ∧ (∀ remaining coins', after.2 = Some remaining →
       UpgradeManager.purchase after.1 upgrade_id coins' = (after.1, None)).
Proof.
  intros after. subst after.
  destruct (refused_dec m upgrade_id coins) as [Href|Hacc].
  - rewrite (purchase_refused _ _ _ Href). simpl.
    split_and!; [done | done | intros ? [=] | intros ? ? [=]].
  - destruct (purchase_accepted _ _ _ Hacc) as (u & Hu & Hret & Hin).
    rewrite Hret. split_and!.
    + split; [intros [=] | done].
    + intros [=].
    + intros remaining [= <-]. by exists u.
    + intros remaining coins' _. apply purchase_refused. by left.
Qed.

End Purchase.

(** ** Random choice *)

Lemma choice_elem {A : Type} (l : list A) (rnd : nat) (a : A) :
  Py.choice l rnd = Ok a → a ∈ l.
Proof.
  unfold Py.choice. destruct l as [|x l]; [done|].
  destruct ((x :: l) !! (rnd mod length (x :: l))%nat) as [y|] eqn:Hy; [|done].
  intros [= <-]. by eapply list_elem_of_lookup_2.
Qed.

Lemma choice_returns {A : Type} (l : list A) (rnd : nat) :
  l ≠ [] → ∃ a, Py.choice l rnd = Ok a.
Proof.
  intros Hne. unfold Py.choice. destruct l as [|x l]; [done|].
  destruct (lookup_lt_is_Some_2 (x :: l) (rnd mod length (x :: l))%nat) as [y Hy].
  { apply Nat.mod_upper_bound. simpl. lia. }
  rewrite Hy. by exists y.
Qed.

(** ** The recipe book *)

Lemma elem_of_values (b : RecipeBook.t) (r : Recipe.t) :
  r ∈ RecipeBook.values b ↔ ∃ k, RecipeBook.recipes b !! k = Some r.
Proof.
  unfold RecipeBook.values. rewrite list_elem_of_fmap. split.
  - intros ([k r'] & -> & Hin). exists k. by apply elem_of_map_to_list.
  - intros (k & Hk). exists (k, r). split; [done|]. by apply elem_of_map_to_list.
Qed.

Lemma elem_of_regular_recipes (b : RecipeBook.t) (r : Recipe.t) :
  r ∈ RecipeBook.regular_recipes b
  ↔ ¬ RecipeBook.is_special r ∧ ∃ k, RecipeBook.recipes b !! k = Some r.
Proof.
  unfold RecipeBook.regular_recipes.
  by rewrite list_elem_of_filter, elem_of_values.
Qed.

(** C6, as stated, fails: a book that is not empty but holds the reserved
    recipe only makes [get_random_recipe] raise, whatever is drawn. *)
Lemma only_banishing_raises :
  RecipeBook.recipes Cafe.only_banishing ≠ ∅
  ∧ ∀ rnd, RecipeBook.get_random_recipe Cafe.only_banishing rnd = Raise IndexError.
Proof.
  split.
  - intros Hempty.
    assert (RecipeBook.recipes Cafe.only_banishing !! "banishing_espresso" = None) as Hnone
      by (rewrite Hempty; apply lookup_empty).
    simpl in Hnone. by rewrite lookup_singleton_eq in Hnone.
  - intros rnd. unfold RecipeBook.get_random_recipe.
    assert (RecipeBook.regular_recipes Cafe.only_banishing = []) as ->; [|done].
    apply elem_of_nil_inv. intros r.
    rewrite elem_of_regular_recipes. intros (Hord & k & Hk).
    simpl in Hk. apply lookup_singleton_Some in Hk as [_ <-].
    apply Hord. reflexivity.
Qed.

(** C6, as amended.  [get_random_recipe] returns only ordinary recipes of
    the book; it raises ([IndexError]) when the book holds no ordinary
    recipe, returns whenever the book holds one, and so raises in
    particular on the empty book. *)
Theorem get_random_recipe_spec (b : RecipeBook.t) (rnd : nat) :
  (∀ r, RecipeBook.get_random_recipe b rnd = Ok r →
        ¬ RecipeBook.is_special r ∧ ∃ k, RecipeBook.recipes b !! k = Some r)
  ∧ ((∀ k r, RecipeBook.recipes b !! k = Some r → RecipeBook.is_special r) →
     RecipeBook.get_random_recipe b rnd = Raise IndexError)
  ∧ (∀ k r, RecipeBook.recipes b !! k = Some r → ¬ RecipeBook.is_special r →
     ∃ r', RecipeBook.get_random_recipe b rnd = Ok r')
  ∧ (RecipeBook.recipes b = ∅ →
     RecipeBook.get_random_recipe b rnd = Raise IndexError).
Proof.
  assert (∀ r, RecipeBook.get_random_recipe b rnd = Ok r →
        ¬ RecipeBook.is_special r ∧ ∃ k, RecipeBook.recipes b !! k = Some r) as Hret.
  { intros r Hr. apply elem_of_regular_recipes. by eapply choice_elem. }
  assert ((∀ k r, RecipeBook.recipes b !! k = Some r → RecipeBook.is_special r) →
     RecipeBook.get_random_recipe b rnd = Raise IndexError) as Hraise.
  { intros Hall. unfold RecipeBook.get_random_recipe.
    assert (RecipeBook.regular_recipes b = []) as ->; [|done].
    apply elem_of_nil_inv. intros r.
    rewrite elem_of_regular_recipes. intros (Hord & k & Hk). eauto. }
  split_and!; [done | done | |].
  - intros k r Hk Hord. apply choice_returns.
    intros Hnil.
    assert (r ∈ RecipeBook.regular_recipes b) as Hin
      by (apply elem_of_regular_recipes; eauto).
    rewrite Hnil in Hin. by apply elem_of_nil in Hin.
  - intros Hempty. apply Hraise. intros k r. rewrite Hempty, lookup_empty. done.
Qed.

(** ** Exact arithmetic *)

Lemma Q_fle (x y : Q) : fle x y = true ↔ (x <= y)%Q.
Proof. apply Qle_bool_iff. Qed.

Lemma Q_fle_false (x y : Q) : fle x y = false ↔ (y < x)%Q.
Proof.
  simpl. rewrite <- not_true_iff_false, Qle_bool_iff. split.
  - apply Qnot_le_lt.
  - apply Qlt_not_le.
Qed.

Lemma Q_flt (x y : Q) : flt x y = true ↔ (x < y)%Q.
Proof.
  simpl. unfold ExactArith.ltb. rewrite negb_true_iff. apply (Q_fle_false y x).
Qed.

Lemma trunc_nonneg (q : Q) : (0 <= q)%Q → (0 ≤ ExactArith.trunc q)%Z.
Proof.
  unfold Qle, ExactArith.trunc. simpl. intros Hq.
  apply Z.quot_pos; lia.
Qed.



Lemma Q_div_returns (x y : Q) :
  ¬ (y == 0)%Q → fdiv x y = Ok (x / y)%Q.
Proof.
  intros Hy. simpl. unfold ExactArith.div.
  destruct (Qeq_bool y 0) eqn:Heq; [|done].
  by apply Qeq_bool_iff in Heq.
Qed.

(** ** Binary64 *)

(** The literals of the source denote the doubles CPython reads them as. *)
Example binary64_literals :
  lit (F:=float) 1.2 = 0x1.3333333333333p+0%float
  ∧ lit (F:=float) 0.85 = 0x1.b333333333333p-1%float
  ∧ lit (F:=float) 45 = 45%float
  ∧ lit (F:=float) (1 # 60) = 0x1.1111111111111p-6%float.
Proof. split_and!; vm_compute; reflexivity. Qed.

(** C1's two failures occur in binary64 as they do in exact arithmetic. *)
Example serve_drink_binary64 :
  ('(s, _) ← Cafe.opened (F:=float) Cafe.worn_out_template;
   snd <$> ServiceController.serve_drink s (Recipe.steps Cafe.stardust_latte))
  = Raise ZeroDivisionError
  ∧ ('(s, _) ← Cafe.opened (F:=float) Cafe.inverted_template;
     snd <$> ServiceController.serve_drink s (Recipe.steps Cafe.stardust_latte))
    = Ok (ServiceController.mk_serve_result (Some true) 2
            "Zorp loved their Stardust Latte!").
Proof. split; vm_compute; reflexivity. Qed.

(** ** Tips *)

Lemma calculate_tip_wrong {F : Type} `{PyFloat F} (c : Customer.t F) (ratio : F) :
  Customer.calculate_tip c false ratio = Ok 0%Z.
Proof. reflexivity. Qed.




(** The same endpoints in binary64, for every tip range between 0 and 100
    coins, by evaluation. *)
Lemma endpoints_binary64_checked :
  forallb (λ lo, forallb (Cafe.endpoints (F:=float) lo) (seq 0 101)) (seq 0 101) = true.
Proof. vm_compute. reflexivity. Qed.

Lemma returns_int_spec (m : result Z) (z : Z) : Py.returns_int m z = true → m = Ok z.
Proof. destruct m as [z'|ex]; simpl; [|done]. by intros ->%Z.eqb_eq. Qed.

Lemma calculate_tip_endpoints_binary64 (lo hi : nat) :
  lo ≤ 100 → hi ≤ 100 →
  Customer.calculate_tip (F:=float) (Cafe.tipper (Z.of_nat lo) (Z.of_nat hi)) true (lit 1)
  = Ok (Z.of_nat hi)
  ∧ Customer.calculate_tip (F:=float) (Cafe.tipper (Z.of_nat lo) (Z.of_nat hi)) true (lit 0)
    = Ok (Z.of_nat lo).
Proof.
  intros Hlo Hhi. pose proof endpoints_binary64_checked as Hall.
  rewrite forallb_forall in Hall.
  specialize (Hall lo). rewrite forallb_forall in Hall.
  assert (Cafe.endpoints (F:=float) lo hi = true) as [H1 H2]%andb_prop.
  { apply Hall; apply in_seq; lia. }
  split; by apply returns_int_spec.
Qed.

(** ** Brewing *)

(** In every arithmetic, [BrewingStation.update] returns true exactly when
    the station is brewing a sequence that is not empty and the brew time,
    this tick included, has reached the threshold. *)
Lemma brewing_update_true {F : Type} `{PyFloat F} (b : BrewingStation.t F) dt modifiers :
  (BrewingStation.update b dt modifiers).2 = true ↔
  BrewingStation.is_brewing b = true
  ∧ BrewingStation.current_recipe b ≠ []
  ∧ (BrewingStation.brew_time_per_step b
     ≼ BrewingStation.current_brew_time b ⊕ dt ⊗ Py.get modifiers "brew_speed" (lit 1))%py
    = true.
Proof.
  unfold BrewingStation.update.
  destruct (BrewingStation.is_brewing b); simpl; [|by split; [|intros []]].
  case_bool_decide as Hrec; simpl; [by split; [|intros (_ & ? & _)]|].
  destruct (fle _ _) eqn:Hcmp; simpl; [by split|].
  split; [done|]. by intros (_ & _ & ?).
Qed.

Lemma update_true (b : BrewingStation.t Q) dt modifiers :
  (BrewingStation.update b dt modifiers).2 = true →
  BrewRun.complete (BrewingStation.update b dt modifiers).1.
Proof.
  unfold BrewingStation.update, BrewRun.complete.
  destruct (BrewingStation.is_brewing b) eqn:Hbrew; simpl; [|done].
  case_bool_decide as Hrec; simpl; [done|].
  destruct (Qle_bool _ _) eqn:Hle; simpl; done.
Qed.

Lemma update_complete (b : BrewingStation.t Q) dt modifiers :
  BrewRun.complete b → BrewRun.advancing (dt, modifiers) →
  (BrewingStation.update b dt modifiers).2 = true.
Proof.
  unfold BrewingStation.update, BrewRun.complete, BrewRun.advancing.
  intros (-> & Hrec & Hle%Q_fle) Hadv%Q_fle. simpl in *.
  rewrite bool_decide_eq_false_2 by done. simpl.
  destruct (Qle_bool _ _) eqn:Hcmp; [done|].
  apply not_true_iff_false in Hcmp. exfalso. apply Hcmp.
  apply Qle_bool_iff. lra.
Qed.

Lemma updates_cons {F : Type} `{PyFloat F} (b : BrewingStation.t F) dt modifiers ticks :
  BrewRun.updates b ((dt, modifiers) :: ticks)
  = (BrewingStation.update b dt modifiers).2
    :: BrewRun.updates (BrewingStation.update b dt modifiers).1 ticks.
Proof. simpl. by destruct (BrewingStation.update b dt modifiers). Qed.

Lemma updates_complete (b : BrewingStation.t Q) ticks :
  BrewRun.complete b → Forall BrewRun.advancing ticks →
  ∀ j, j < length ticks → BrewRun.updates b ticks !! j = Some true.
Proof.
  intros Hb Hadv. revert b Hb.
  induction Hadv as [|[dt modifiers] ticks Hhd Htl IH]; intros b Hb j Hj;
    simpl in Hj; [lia|].
  rewrite updates_cons.
  pose proof (update_complete b dt modifiers Hb Hhd) as Htrue.
  destruct j as [|j]; simpl; [by rewrite Htrue|].
  apply IH; [by apply update_true | lia].
Qed.

(** C3, as stated, fails: with ticks of one second a station that is
    brewing returns false, true and true again, in exact arithmetic and in
    binary64 alike; with the ticks of the host loop, in binary64, it returns
    true on the 72nd tick and on each of the 128 ticks that follow. *)
Lemma brewing_updates_twice_true :
  BrewRun.updates (F:=Q) Cafe.brewing [(lit 1, ∅); (lit 1, ∅); (lit 1, ∅)]
  = [false; true; true]
  ∧ BrewRun.updates (F:=float) Cafe.brewing [(lit 1, ∅); (lit 1, ∅); (lit 1, ∅)]
    = [false; true; true]
  ∧ BrewRun.updates (F:=float) Cafe.brewing (replicate 200 (Cafe.fixed_timestep, ∅))
    = replicate 71 false ++ replicate 129 true.
Proof. split_and!; vm_compute; reflexivity. Qed.

(** C3, as amended.  [update] returns true when, and only when, the station
    is brewing a sequence that is not empty and the brew time accumulated
    for the current step, this tick included, has reached the threshold;
    since [update] never resets that time, in a sequence of updates with
    [dt * brew_speed >= 0] and nothing else touching the station, every call
    after one that returned true returns true too: a level, not a pulse
    (in exact arithmetic). *)
Theorem update_level_signal (b : BrewingStation.t Q) (ticks : list (Q * gmap string Q)) :
  Forall BrewRun.advancing ticks →
  (∀ i j, i ≤ j → j < length ticks →
     BrewRun.updates b ticks !! i = Some true →
     BrewRun.updates b ticks !! j = Some true)
  ∧ (∀ dt modifiers,
       (BrewingStation.update b dt modifiers).2 = true ↔
       BrewingStation.is_brewing b = true
       ∧ BrewingStation.current_recipe b ≠ []
       ∧ (BrewingStation.brew_time_per_step b
          <= BrewingStation.current_brew_time b
             + dt * Py.get modifiers "brew_speed" 1)%Q).
Proof.
  intros Hadv. split.
  - revert b.
    induction Hadv as [|[dt modifiers] ticks Hhd Htl IH]; intros b i j Hij Hj;
      simpl in Hj; [lia|].
    rewrite updates_cons.
    destruct i as [|i]; simpl.
    + intros [= Htrue]. destruct j as [|j]; simpl; [by rewrite Htrue|].
      apply updates_complete; [by apply update_true | done | lia].
    + destruct j as [|j]; [lia|]. simpl. apply IH; lia.
  - intros dt modifiers. unfold BrewingStation.update.
    destruct (BrewingStation.is_brewing b); simpl; [|by split; [|intros []]].
    case_bool_decide as Hrec; simpl; [by split; [|intros (_ & ? & _)]|].
    destruct (Qle_bool _ _) eqn:Hcmp; simpl.
    + apply Qle_bool_iff in Hcmp. by split.
    + split; [done|]. intros (_ & _ & Hle%Qle_bool_iff). congruence.
Qed.

Lemma update_level_signal_witness :
  BrewRun.updates (F:=Q) Cafe.brewing [(lit 1, ∅); (lit 1, ∅); (lit 1, ∅)] !! 2%nat
  = Some true.
Proof.
  apply (update_level_signal Cafe.brewing [(1%Q, ∅); (1%Q, ∅); (1%Q, ∅)])
    with (i := 1%nat).
  - repeat constructor.
  - lia.
  - simpl; lia.
  - vm_compute. reflexivity.
Defined.

(** ** The portal event *)

(** The tick of the host loop in binary64. *)
Example fixed_timestep_binary64 :
  Cafe.fixed_timestep (F:=float) = (1 / 60)%float.
Proof. vm_compute. reflexivity. Qed.

(** In binary64, 120 ticks of a sixtieth of a second add up to less than
    two seconds: no pastry is lost on the 120th tick, but on the 121st. *)
Lemma portal_period_binary64 :
  PortalEvent.timer (PortalRun.ticks (F:=float) 120 Cafe.fixed_timestep Cafe.portal)
  = 0x1.ffffffffffff6p+0%float
  ∧ PortalEvent.pastries_lost
      (PortalRun.ticks (F:=float) 120 Cafe.fixed_timestep Cafe.portal) = 0%Z
  ∧ PortalEvent.pastries_lost
      (PortalRun.ticks (F:=float) 121 Cafe.fixed_timestep Cafe.portal) = 1%Z.
Proof. split_and!; vm_compute; reflexivity. Qed.

(** In exact arithmetic the run is the one the specification computes: the
    event fails on tick 1200, with the stability used up and ten pastries
    lost. *)
Lemma portal_fails_exact :
  PortalRun.failure (F:=Q) 1200 Cafe.fixed_timestep Cafe.portal
  = Some (1200%nat, (false, false, true, 10%Z)).
Proof. vm_compute. reflexivity. Qed.

(** C4, as stated, fails in the arithmetic the program runs in: after 1200
    ticks of 1/60 s (20 simulated seconds) the event is still active, with
    some stability left and nine pastries lost. *)
Lemma portal_active_after_20s :
  PortalRun.observe (PortalRun.ticks (F:=float) 1200 Cafe.fixed_timestep Cafe.portal)
  = (true, false, false, 9%Z).
Proof. vm_compute. reflexivity. Qed.

(** C4, as amended.  In binary64 a started portal event that is only
    updated with ticks of 1/60 s reports its failure on tick 1201 and on no
    earlier tick; it fails because the stability is used up, while nine
    pastries are lost, one short of the cap of ten. *)
Theorem portal_fails_binary64 :
  PortalRun.failure (F:=float) 1201 Cafe.fixed_timestep Cafe.portal
  = Some (1201%nat, (false, false, true, 9%Z))
  ∧ PortalRun.observe
      (PortalRun.ticks (F:=float) 1200 Cafe.fixed_timestep Cafe.portal)
    = (true, false, false, 9%Z)
  ∧ (PortalEvent.update
       (PortalRun.ticks (F:=float) 1200 Cafe.fixed_timestep Cafe.portal)
       Cafe.fixed_timestep).2
    = PortalEvent.portal_failed 9 "The portal consumed too many pastries!"
  ∧ PortalEvent.max_pastries_lost (Cafe.portal (F:=float)) = 10%Z.
Proof. split_and!; vm_compute; reflexivity. Qed.

(** ** The chaos manager *)

Section Chaos.
Context {F : Type} `{PyFloat F}.
Local Open Scope pyfloat_scope.
Implicit Types (m : ChaosManager.t F) (c : ChaosRun.call F).

Lemma check_trigger_triggered m t :
  ChaosManager.event_triggered m = true →
  ChaosManager.check_trigger m t = (m, false).
Proof. unfold ChaosManager.check_trigger. by intros ->. Qed.

Lemma check_trigger_fires m t m' :
  ChaosManager.check_trigger m t = (m', true) →
  ChaosManager.event_triggered m = false
  ∧ (t ≼ ChaosManager.trigger_time m) = true
  ∧ ChaosManager.current_event m' = Some (PortalEvent.start PortalEvent.init)
  ∧ ChaosManager.event_triggered m' = true.
Proof.
  unfold ChaosManager.check_trigger.
  destruct (ChaosManager.event_triggered m); simpl; [by intros [=]|].
  destruct (t ≼ ChaosManager.trigger_time m); intros [= <-]. done.
Qed.

Lemma step_frame m c m' r :
  ChaosRun.step m c = Ok (m', r) →
  ChaosManager.trigger_time m' = ChaosManager.trigger_time m
  ∧ (ChaosManager.event_triggered m = true →
     ChaosManager.event_triggered m' = true ∧ r ≠ ChaosRun.triggered true)
  ∧ (ChaosManager.event_triggered m = false →
     ChaosManager.event_triggered m' = ChaosRun.fires m c
     ∧ (r = ChaosRun.triggered true ↔ ChaosRun.fires m c = true)).
Proof.
  destruct c as [t|dt|action data]; simpl.
  - unfold ChaosManager.check_trigger.
    destruct (ChaosManager.event_triggered m) eqn:Hm; simpl.
    + intros [= <- <-]. split_and!; [done | by rewrite Hm | done].
    + destruct (t ≼ ChaosManager.trigger_time m); intros [= <- <-]; simpl.
      * split_and!; [done..|]. intros _. split; [done|]. by split.
      * split_and!; [done..|]. intros _. split; [done|]. by split.
  - intros Hstep.
    assert (ChaosManager.trigger_time m' = ChaosManager.trigger_time m
            ∧ ChaosManager.event_triggered m' = ChaosManager.event_triggered m
            ∧ ∃ x, r = ChaosRun.reported x) as (Htime & Hflag & x & ->).
    { revert Hstep. unfold ChaosManager.update.
      destruct (ChaosManager.current_event m) as [e|]; simpl;
        [|by intros [= <- <-]; eauto].
      destruct (PortalEvent.active e); simpl; [|by intros [= <- <-]; eauto].
      destruct (PortalEvent.update e dt) as [e' rep]. intros [= <- <-]. eauto. }
    rewrite Hflag. split_and!; [done | by intros -> | intros ->; split; [done|]].
    by split.
  - intros Hstep.
    assert (ChaosManager.trigger_time m' = ChaosManager.trigger_time m
            ∧ ChaosManager.event_triggered m' = ChaosManager.event_triggered m
            ∧ ∃ x, r = ChaosRun.resolution x) as (Htime & Hflag & x & ->).
    { revert Hstep. unfold ChaosManager.try_resolve.
      destruct (ChaosManager.current_event m) as [e|]; simpl;
        [|by intros [= <- <-]; eauto].
      destruct (PortalEvent.active e); simpl; [|by intros [= <- <-]; eauto].
      destruct (PortalEvent.can_resolve e action data); simpl;
        [|by intros [= <- <-]; eauto].
      destruct (PortalEvent.resolve e) as [[e' cl]|ex]; simpl; [|done].
      intros [= <- <-]. eauto. }
    rewrite Hflag. split_and!; [done | by intros -> | intros ->; split; [done|]].
    by split.
Qed.

Lemma run_cons m c calls :
  ChaosRun.run m (c :: calls)
  = '(m1, r) ← ChaosRun.step m c;
    '(m2, rs) ← ChaosRun.run m1 calls;
    mret (m2, r :: rs).
Proof. reflexivity. Qed.

Lemma run_cons_Ok m c calls m' outs :
  ChaosRun.run m (c :: calls) = Ok (m', outs) →
  ∃ m1 r rs, ChaosRun.step m c = Ok (m1, r)
             ∧ ChaosRun.run m1 calls = Ok (m', rs) ∧ outs = r :: rs.
Proof.
  rewrite run_cons.
  destruct (ChaosRun.step m c) as [[m1 r]|ex]; simpl; [|intros [=]].
  destruct (ChaosRun.run m1 calls) as [[m2 rs]|ex] eqn:Hrun; simpl; [|intros [=]].
  intros [= <- <-]. by exists m1, r, rs.
Qed.

Lemma run_triggered m calls m' outs :
  ChaosManager.event_triggered m = true →
  ChaosRun.run m calls = Ok (m', outs) →
  ChaosManager.event_triggered m' = true
  ∧ ∀ i, outs !! i ≠ Some (ChaosRun.triggered true).
Proof.
  revert m outs. induction calls as [|c calls IH]; intros m outs Hm.
  - intros [= <- <-]. split; [done|]. by intros i.
  - intros (m1 & r & rs & Hstep & Hrun & ->)%run_cons_Ok.
    destruct (step_frame _ _ _ _ Hstep) as (_ & Hon & _).
    destruct (Hon Hm) as [Hm1 Hr].
    destruct (IH _ _ Hm1 Hrun) as [Hm' Hrs]. split; [done|].
    intros [|i]; simpl; [congruence | apply Hrs].
Qed.

Lemma run_untriggered m calls m' outs :
  ChaosManager.event_triggered m = false →
  ChaosRun.run m calls = Ok (m', outs) →
  (∀ i, outs !! i = Some (ChaosRun.triggered true) ↔
     ∃ c, calls !! i = Some c ∧ ChaosRun.fires m c = true
          ∧ ∀ j c', j < i → calls !! j = Some c' → ChaosRun.fires m c' = false)
  ∧ (ChaosManager.event_triggered m' = true ↔ ∃ c, c ∈ calls ∧ ChaosRun.fires m c = true).
Proof.
  revert m outs. induction calls as [|c calls IH]; intros m outs Hm.
  - intros [= <- <-]. split.
    + intros i. split; [done | by intros (c & ? & _)].
    + rewrite Hm. split; [done | by intros (c & ?%elem_of_nil & _)].
  - intros (m1 & r & rs & Hstep & Hrun & ->)%run_cons_Ok.
    destruct (step_frame _ _ _ _ Hstep) as (Htime & _ & Hoff).
    destruct (Hoff Hm) as [Hm1 Hr].
    assert (∀ c', ChaosRun.fires m1 c' = ChaosRun.fires m c') as Hfires.
    { intros [t| |]; simpl; [by rewrite Htime | done..]. }
    destruct (ChaosRun.fires m c) eqn:Hfire.
    + destruct (run_triggered _ _ _ _ Hm1 Hrun) as [Hm' Hrs]. split.
      * intros [|i]; simpl.
        -- split.
           ++ intros _. exists c. split_and!; [done..|]. intros j c' Hj. lia.
           ++ intros _. f_equal. by apply Hr.
        -- split; [by intros ?%Hrs|].
           intros (c' & _ & _ & Hbefore). specialize (Hbefore 0 c).
           simpl in Hbefore. rewrite Hfire in Hbefore.
           discriminate Hbefore; [lia | done].
      * split; [|done]. intros _. exists c. split; [left | done].
    + destruct (IH _ _ Hm1 Hrun) as [Hrs Hm']. split.
      * intros [|i]; simpl.
        -- split.
           ++ intros [= ->]. exfalso. destruct Hr as [Hr _].
              by specialize (Hr eq_refl).
           ++ intros (c' & [= <-] & Hc' & _). congruence.
        -- rewrite Hrs. split.
           ++ intros (c' & Hc' & Hfc & Hbefore). exists c'.
              split_and!; [done | by rewrite <- Hfires |].
              intros [|j] c'' Hj; simpl.
              ** by intros [= <-].
              ** intros Hc''. rewrite <- Hfires. eapply Hbefore; [|done]. lia.
           ++ intros (c' & Hc' & Hfc & Hbefore). exists c'.
              split_and!; [done | by rewrite Hfires |].
              intros j c'' Hj Hc''. rewrite Hfires.
              apply (Hbefore (S j) c''); [lia | done].
      * rewrite Hm'. split.
        -- intros (c' & Hin & Hc'). exists c'. split; [by right | by rewrite <- Hfires].
        -- intros (c' & Hin & Hc'). apply elem_of_cons in Hin as [-> | Hin];
             [congruence|]. exists c'. by rewrite Hfires.
Qed.

(** C7.  Within a day, that is from [reset] on, [check_trigger] returns
    true on exactly the first call whose argument is at most 45, so at most
    once; the call that returns true leaves a started, active [PortalEvent]
    as the current event; and once some call has returned true, every
    further [check_trigger] returns false and leaves the manager as it is,
    whatever its argument. *)
Theorem check_trigger_once m0 calls m outs :
  ChaosManager.trigger_time m0 = lit 45 →
  ChaosRun.run (ChaosManager.reset m0) calls = Ok (m, outs) →
  (∀ i, outs !! i = Some (ChaosRun.triggered true) ↔
     ∃ t, calls !! i = Some (ChaosRun.check_trigger t)
          ∧ (t ≼ lit 45) = true
          ∧ ∀ j t', j < i → calls !! j = Some (ChaosRun.check_trigger t') →
                    (t' ≼ lit 45) = false)
  ∧ (∀ i j, outs !! i = Some (ChaosRun.triggered true) →
            outs !! j = Some (ChaosRun.triggered true) → i = j)
  ∧ (∀ m1 t m2, ChaosManager.check_trigger m1 t = (m2, true) →
       ChaosManager.current_event m2 = Some (PortalEvent.start PortalEvent.init)
       ∧ ChaosManager.is_active m2 = true)
  ∧ ((∃ i, outs !! i = Some (ChaosRun.triggered true)) →
     ∀ t, ChaosManager.check_trigger m t = (m, false)).
Proof.
  intros Htime Hrun.
  destruct (run_untriggered (ChaosManager.reset m0) calls m outs eq_refl Hrun)
    as [Hspec Hfinal].
  assert (∀ c, ChaosRun.fires (ChaosManager.reset m0) c = true ↔
               ∃ t, c = ChaosRun.check_trigger t ∧ (t ≼ lit 45) = true) as Hfires.
  { intros [t|dt|action data]; simpl; rewrite ?Htime.
    - split; [by exists t | by intros (t' & [= <-] & ?)].
    - split; [done | by intros (t' & [=] & _)].
    - split; [done | by intros (t' & [=] & _)]. }
  assert (∀ i, outs !! i = Some (ChaosRun.triggered true) ↔
     ∃ t, calls !! i = Some (ChaosRun.check_trigger t)
          ∧ (t ≼ lit 45) = true
          ∧ ∀ j t', j < i → calls !! j = Some (ChaosRun.check_trigger t') →
                    (t' ≼ lit 45) = false) as Hfirst.
  { intros i. rewrite Hspec. split.
    - intros (c & Hc & (t & -> & Ht)%Hfires & Hbefore).
      exists t. split_and!; [done..|]. intros j t' Hj Hj'.
      specialize (Hbefore j _ Hj Hj'). simpl in Hbefore. by rewrite Htime in Hbefore.
    - intros (t & Hc & Ht & Hbefore). exists (ChaosRun.check_trigger t).
      split_and!; [done | by simpl; rewrite Htime |].
      intros j [t'|dt|action data] Hj Hj'; simpl; [|done..].
      rewrite Htime. by eapply Hbefore. }
  split_and!.
  - done.
  - intros i j (t & Hi & Ht & Hbi)%Hfirst (t' & Hj & Ht' & Hbj)%Hfirst.
    destruct (Nat.lt_trichotomy i j) as [Hlt | [-> | Hgt]]; [|done|].
    + specialize (Hbj i t Hlt Hi). congruence.
    + specialize (Hbi j t' Hgt Hj). congruence.
  - intros m1 t m2 (_ & _ & Hev & _)%check_trigger_fires.
    split; [done|]. unfold ChaosManager.is_active. by rewrite Hev.
  - intros (i & (c & Hc & Hfc & _)%Hspec) t.
    apply check_trigger_triggered, Hfinal. exists c. split; [|done].
    by eapply list_elem_of_lookup_2.
Qed.

End Chaos.

Lemma check_trigger_once_witness :
  ∃ m outs,
    ChaosRun.run (F:=float) (ChaosManager.reset ChaosManager.init) Cafe.day_calls = Ok (m, outs)
    ∧ (ChaosRun.triggered true ∈ outs)
    ∧ ∀ t, ChaosManager.check_trigger m t = (m, false).
Proof.
  eexists _, _. split; [vm_compute; reflexivity|]. split.
  - apply (list_elem_of_lookup_2 _ 2%nat). reflexivity.
  - eapply (check_trigger_once ChaosManager.init Cafe.day_calls).
    + reflexivity.
    + vm_compute. reflexivity.
    + exists 2%nat. reflexivity.
Defined.

(** ** The customer queue *)

Section Queue.
Context {F : Type} `{PyFloat F}.
Local Open Scope pyfloat_scope.
Implicit Types (q : CustomerQueue.t F) (c : Customer.t F).

Lemma store_well_formed q i v :
  CustomerQueue.well_formed q → CustomerQueue.well_formed (CustomerQueue.store q i v).
Proof. unfold CustomerQueue.well_formed. simpl. by rewrite length_insert. Qed.

Lemma occupied_le_length q :
  CustomerQueue.occupied q ≤ length (CustomerQueue.customers q).
Proof.
  unfold CustomerQueue.occupied, CustomerQueue.get_active_customers.
  induction (CustomerQueue.customers q) as [|[c|] l IH]; csimpl; lia.
Qed.

Lemma occupied_full (l : list (option (Customer.t F))) :
  length (omap id l) = length l → Forall is_Some l.
Proof.
  induction l as [|[c|] l IH]; csimpl; intros Hlen.
  - constructor.
  - constructor; [by eexists | apply IH; lia].
  - pose proof (occupied_le_length (CustomerQueue.mk l 0)) as Hle.
    unfold CustomerQueue.occupied, CustomerQueue.get_active_customers in Hle.
    simpl in Hle. lia.
Qed.

(** The loop of [add_customer] returns, keeps the queue well formed, and
    changes nothing when every slot is taken. *)
Lemma add_customer_from_returns idx q c :
  CustomerQueue.well_formed q →
  Forall (λ i, i < CustomerQueue.max_size q) idx →
  ∃ q' added,
    CustomerQueue.add_customer_from idx q c = Ok (q', added)
    ∧ CustomerQueue.well_formed q'
    ∧ CustomerQueue.max_size q' = CustomerQueue.max_size q
    ∧ (Forall is_Some (CustomerQueue.customers q) → q' = q ∧ added = false).
Proof.
  intros Hwf Hidx. induction Hidx as [|i idx Hi Hidx IH]; simpl.
  - by exists q, false.
  - rewrite index_nat.
    destruct (lookup_lt_is_Some_2 (CustomerQueue.customers q) i) as [slot Hslot];
      [unfold CustomerQueue.well_formed in Hwf; lia|].
    rewrite Hslot. simpl. destruct slot as [c'|].
    + apply IH.
    + eexists _, _. split_and!; [done | by apply store_well_formed | done |].
      intros Hfull. rewrite Forall_lookup in Hfull.
      by destruct (Hfull i None Hslot).
Qed.

Lemma add_customer_returns q c :
  CustomerQueue.well_formed q →
  ∃ q' added,
    CustomerQueue.add_customer q c = Ok (q', added)
    ∧ CustomerQueue.well_formed q'
    ∧ CustomerQueue.max_size q' = CustomerQueue.max_size q
    ∧ (Forall is_Some (CustomerQueue.customers q) → q' = q ∧ added = false).
Proof.
  intros Hwf. apply add_customer_from_returns; [done|].
  apply Forall_forall. intros i Hi%elem_of_seq. lia.
Qed.

Lemma remove_customer_returns q index :
  CustomerQueue.well_formed q →
  ∃ q' removed,
    CustomerQueue.remove_customer q index = Ok (q', removed)
    ∧ CustomerQueue.well_formed q'
    ∧ CustomerQueue.max_size q' = CustomerQueue.max_size q.
Proof.
  intros Hwf. unfold CustomerQueue.remove_customer.
  destruct (Z.leb_spec 0 index) as [Hlo|Hlo]; simpl; [|by exists q, None].
  destruct (Z.ltb_spec index (Z.of_nat (CustomerQueue.max_size q))) as [Hhi|Hhi];
    [|by exists q, None].
  rewrite index_slot by done.
  destruct (lookup_lt_is_Some_2 (CustomerQueue.customers q) (Z.to_nat index))
    as [slot Hslot]; [unfold CustomerQueue.well_formed in Hwf; lia|].
  rewrite Hslot. simpl. eexists _, _.
  split_and!; [done | by apply store_well_formed | done].
Qed.

Lemma update_from_returns idx q dt modifiers gone :
  CustomerQueue.well_formed q →
  Forall (λ i, i < CustomerQueue.max_size q) idx →
  ∃ q' gone',
    CustomerQueue.update_from idx q dt modifiers gone = Ok (q', gone')
    ∧ CustomerQueue.well_formed q'
    ∧ CustomerQueue.max_size q' = CustomerQueue.max_size q.
Proof.
  intros Hwf Hidx. revert q gone Hwf Hidx.
  induction idx as [|i idx IH]; intros q gone Hwf Hidx; simpl.
  - by exists q, gone.
  - apply Forall_cons in Hidx as [Hi Hidx]. rewrite index_nat.
    destruct (lookup_lt_is_Some_2 (CustomerQueue.customers q) i) as [slot Hslot];
      [unfold CustomerQueue.well_formed in Hwf; lia|].
    rewrite Hslot. simpl. destruct slot as [c|]; [|by apply IH].
    destruct (Customer.patience (Customer.update c dt modifiers) ≼ lit 0).
    + destruct (IH (CustomerQueue.store q i None)
                  (gone ++ [Customer.update c dt modifiers]))
        as (q' & gone' & Hrun & Hwf' & Hsize); [by apply store_well_formed | done |].
      by exists q', gone'.
    + destruct (IH (CustomerQueue.store q i (Some (Customer.update c dt modifiers)))
                  gone)
        as (q' & gone' & Hrun & Hwf' & Hsize); [by apply store_well_formed | done |].
      by exists q', gone'.
Qed.

Lemma queue_update_returns q dt modifiers :
  CustomerQueue.well_formed q →
  ∃ q' gone,
    CustomerQueue.update q dt modifiers = Ok (q', gone)
    ∧ CustomerQueue.well_formed q'
    ∧ CustomerQueue.max_size q' = CustomerQueue.max_size q.
Proof.
  intros Hwf. apply update_from_returns; [done|].
  apply Forall_forall. intros i Hi%elem_of_seq. lia.
Qed.

Lemma queue_step_returns q call :
  CustomerQueue.well_formed q →
  ∃ q', QueueRun.step q call = Ok q'
        ∧ CustomerQueue.well_formed q'
        ∧ CustomerQueue.max_size q' = CustomerQueue.max_size q.
Proof.
  intros Hwf. destruct call as [c|index|dt modifiers]; simpl.
  - destruct (add_customer_returns q c Hwf) as (q' & added & -> & ? & ? & _).
    by exists q'.
  - destruct (remove_customer_returns q index Hwf) as (q' & removed & -> & ? & ?).
    by exists q'.
  - destruct (queue_update_returns q dt modifiers Hwf) as (q' & gone & -> & ? & ?).
    by exists q'.
Qed.

Lemma queue_run_returns q calls :
  CustomerQueue.well_formed q →
  ∃ q', QueueRun.run q calls = Ok q'
        ∧ CustomerQueue.well_formed q'
        ∧ CustomerQueue.max_size q' = CustomerQueue.max_size q.
Proof.
  revert q. induction calls as [|call calls IH]; intros q Hwf; simpl.
  - by exists q.
  - destruct (queue_step_returns q call Hwf) as (q1 & -> & Hwf1 & Hsize1). simpl.
    destruct (IH q1 Hwf1) as (q' & Hrun & Hwf' & Hsize').
    exists q'. split_and!; [done | done | congruence].
Qed.

Lemma init_well_formed (n : nat) :
  CustomerQueue.well_formed (CustomerQueue.init (F:=F) n).
Proof. unfold CustomerQueue.well_formed. simpl. apply length_replicate. Qed.

(** C9.  Whatever [add_customer], [remove_customer] and [update] calls are
    made on a queue of capacity [n], every call returns, the queue keeps its
    [n] slots and never holds more than [n] customers; and on a full queue
    [add_customer] returns false and leaves the queue as it is. *)
Theorem queue_capacity (n : nat) (calls : list (QueueRun.call F)) :
  ∃ q, QueueRun.run (CustomerQueue.init n) calls = Ok q
       ∧ length (CustomerQueue.customers q) = n
       ∧ CustomerQueue.occupied q ≤ n
       ∧ ∀ c, CustomerQueue.occupied q = n →
              CustomerQueue.add_customer q c = Ok (q, false).
Proof.
  destruct (queue_run_returns (CustomerQueue.init n) calls (init_well_formed n))
    as (q & Hrun & Hwf & Hsize).
  simpl in Hsize. exists q.
  assert (length (CustomerQueue.customers q) = n) as Hlen
    by (unfold CustomerQueue.well_formed in Hwf; congruence).
  split_and!; [done | done | |].
  - rewrite <- Hlen. apply occupied_le_length.
  - intros c Hfull.
    destruct (add_customer_returns q c Hwf) as (q' & added & Hadd & _ & _ & Hsame).
    destruct Hsame as [-> ->]; [|done].
    apply occupied_full. unfold CustomerQueue.occupied, CustomerQueue.get_active_customers in Hfull.
    congruence.
Qed.

End Queue.

(** ** Serving *)

Section Serve.
Context {F : Type} `{PyFloat F}.
Local Open Scope pyfloat_scope.
Implicit Types (s : ServiceController.t F) (c : Customer.t F).

Lemma bound_index s i :
  ServiceRun.bound_to_slot s i →
  ∃ x, ServiceRun.slot s i = Some x
       ∧ Py.index (CustomerQueue.customers (ServiceController.customer_queue s)) i = Ok x.
Proof.
  intros (_ & Hi & Hwf). unfold ServiceRun.slot. rewrite index_slot by lia.
  destruct (lookup_lt_is_Some_2
              (CustomerQueue.customers (ServiceController.customer_queue s))
              (Z.to_nat i)) as [x Hx];
    [unfold CustomerQueue.well_formed in Hwf; lia|].
  rewrite Hx. by exists x.
Qed.



Local Opaque Customer.calculate_tip.

(** What [serve_drink] does to a customer in the bound slot, once the
    patience ratio and the tip are computed. *)
Lemma serve_drink_served s recipe_steps i c ratio tip :
  ServiceRun.bound_to_slot s i → ServiceRun.slot s i = Some (Some c) →
  fdiv (Customer.patience c) (Customer.max_patience c) = Ok ratio →
  Customer.calculate_tip c
    (ServiceController.truthy
       (flip Recipe.matches recipe_steps
          <$> RecipeBook.find (ServiceController.recipe_book s) (Customer.desired_recipe c)))
    ratio = Ok tip →
  ∃ s' r,
    ServiceController.serve_drink s recipe_steps = Ok (s', r)
    ∧ ServiceController.success r
      = flip Recipe.matches recipe_steps
          <$> RecipeBook.find (ServiceController.recipe_book s) (Customer.desired_recipe c)
    ∧ ServiceController.tip r = tip
    ∧ CustomerQueue.customers (ServiceController.customer_queue s')
      = <[Z.to_nat i := None]> (CustomerQueue.customers (ServiceController.customer_queue s))
    ∧ CustomerQueue.max_size (ServiceController.customer_queue s')
      = CustomerQueue.max_size (ServiceController.customer_queue s)
    ∧ ServiceController.customers_served s' = (ServiceController.customers_served s + 1)%Z
    ∧ ServiceController.total_tips s' = (ServiceController.total_tips s + tip)%Z
    ∧ ServiceController.brewing_station s' = ServiceController.brewing_station s.
Proof.
  intros Hbound Hslot Hratio Htip.
  destruct (bound_index s i Hbound) as (x & Hx & Hindex).
  rewrite Hslot in Hx. injection Hx as <-.
  unfold ServiceController.serve_drink.
  destruct Hbound as (-> & Hi & Hwf). rewrite Hindex. simpl. rewrite Hratio. simpl.
  destruct (RecipeBook.find _ _) as [recipe|]; simpl in *; rewrite Htip; simpl.
  all: unfold CustomerQueue.remove_customer; simpl.
  all: destruct (Z.leb_spec 0 i); [|lia].
  all: destruct (Z.ltb_spec i (Z.of_nat (CustomerQueue.max_size (ServiceController.customer_queue s))));
    [|lia].
  all: simpl; rewrite Hindex; simpl.
  all: eexists _, _; split; [reflexivity|]; simpl; done.
Qed.



End Serve.





Section ServeQueue.
Context {F : Type} `{PyFloat F}.


(** The steps of [update] that concern the queue: an attempt to spawn, or
    none, and then the ageing of the queue. *)
Lemma update_queue (s : ServiceController.t F) dt modifiers rnd s' ev :
  ServiceController.update s dt modifiers rnd = Ok (s', ev) →
  (s' = s ∧ ServiceController.customers_left ev = [])
  ∨ ∃ s1 s2,
      ServiceController.customer_queue s1 = ServiceController.customer_queue s
      ∧ ServiceController.customer_pool s1 = ServiceController.customer_pool s
      ∧ (s2 = s1
         ∨ ∃ s3 spawned,
             ServiceController.spawn_customer s1 rnd = Ok (s3, spawned)
             ∧ ServiceController.customer_queue s2 = ServiceController.customer_queue s3
             ∧ ServiceController.customer_pool s2 = ServiceController.customer_pool s3)
      ∧ CustomerQueue.update (ServiceController.customer_queue s2) dt modifiers
        = Ok (ServiceController.customer_queue s', ServiceController.customers_left ev)
      ∧ ServiceController.customer_pool s' = ServiceController.customer_pool s2.
Proof.
  unfold ServiceController.update.
  destruct (ServiceController.active s); simpl; [|intros [= <- <-]; by left].
  intros Hupdate. right.
  set (s0 := if fle _ (lit 0) then _ else _) in Hupdate.
  assert (ServiceController.customer_queue s0.1 = ServiceController.customer_queue s
          ∧ ServiceController.customer_pool s0.1 = ServiceController.customer_pool s)
    as [Hq0 Hpool0] by (subst s0; by destruct (fle _ (lit 0))).
  destruct s0 as [s0 ended]. simpl in Hq0, Hpool0.
  set (s1 := ServiceController.set_spawn_timer s0 _) in Hupdate.
  exists s1.
  match type of Hupdate with
  | mbind _ ?m = _ => destruct m as [s2|ex] eqn:Hs2; simpl in Hupdate; [|done]
  end.
  exists s2.
  destruct (CustomerQueue.update (ServiceController.customer_queue s2) dt modifiers)
    as [[q gone]|ex] eqn:Hq; simpl in Hupdate; [|done].
  split_and!; [done | done | | |].
  - revert Hs2. destruct (_ && _); [|intros [= <-]; by left].
    destruct (ServiceController.spawn_customer s1 rnd) as [[s3 spawned]|ex];
      simpl; [|intros [=]].
    intros [= <-]. right. exists s3, spawned. by destruct spawned.
  - by destruct (ServiceController.has_fire_elemental _); injection Hupdate as <- <-.
  - by destruct (ServiceController.has_fire_elemental _); injection Hupdate as <- <-.
Qed.

Lemma update_from_spent idx (q : CustomerQueue.t F) dt modifiers gone q' gone' :
  CustomerQueue.update_from idx q dt modifiers gone = Ok (q', gone') →
  Forall (λ c, (Customer.patience c ≼ lit 0)%py = true) gone →
  Forall (λ c, (Customer.patience c ≼ lit 0)%py = true) gone'.
Proof.
  revert q gone. induction idx as [|i idx IH]; intros q gone; simpl.
  - by intros [= <- <-].
  - destruct (Py.index _ _) as [[c|]|ex]; simpl; [| apply IH | intros [=]].
    destruct (fle (Customer.patience (Customer.update c dt modifiers)) (lit 0)) eqn:Hspent.
    + intros Hrun Hgone. eapply IH; [exact Hrun|].
      apply Forall_app. split; [done|]. by constructor.
    + apply IH.
Qed.

(** In every arithmetic, binary64 included, a customer whom [update] hands
    back in [customers_left] has [patience <= 0]. *)
Lemma customers_left_spent (s : ServiceController.t F) dt modifiers rnd s' ev :
  ServiceController.update s dt modifiers rnd = Ok (s', ev) →
  Forall (λ c, (Customer.patience c ≼ lit 0)%py = true)
         (ServiceController.customers_left ev).
Proof.
  intros [[_ ->] | (s1 & s2 & _ & _ & _ & Hage & _)]%update_queue; [done|].
  by eapply update_from_spent.
Qed.

End ServeQueue.

(** ** Patience *)

Section Patience.



Local Opaque Customer.update.


















End Patience.

(** ** The sample cafe at work *)






(** A station bound to an index below 0 is bound to no slot: Python reads
    [customers[-5]] as slot 0 of five, while [remove_customer(-5)] is out of
    range and removes nobody, so the customer can be served again. *)
Remark serve_drink_negative_index :
  ∃ s s1 r1 s2 r2,
    ServiceRun.run (F:=Q) Cafe.cafe
      [ServiceRun.start_day 1 Cafe.no_draws; ServiceRun.start_order (-5)] = Ok (s, [])
    ∧ ServiceController.serve_drink s (Recipe.steps Cafe.stardust_latte) = Ok (s1, r1)
    ∧ ServiceController.serve_drink s1 (Recipe.steps Cafe.stardust_latte) = Ok (s2, r2)
    ∧ ServiceController.success r2 = Some true
    ∧ ServiceController.customers_served s2 = 2%Z
    ∧ ServiceRun.queued s2 = [Cafe.zorp].
Proof.
  eexists _, _, _, _, _.
  split; [vm_compute; reflexivity|].
  split; [vm_compute; reflexivity|].
  split; [vm_compute; reflexivity|].
  split_and!; reflexivity.
Qed.



(** * Further properties *)

Section QueueMore.
Context {F : Type} `{PyFloat F}.
Local Open Scope pyfloat_scope.
Implicit Types (q : CustomerQueue.t F) (c : Customer.t F).

Lemma add_customer_from_first n k q c i :
  k ≤ i < k + n →
  CustomerQueue.customers q !! i = Some None →
  (∀ j, k ≤ j < i → ∃ c', CustomerQueue.customers q !! j = Some (Some c')) →
  CustomerQueue.add_customer_from (seq k n) q c
  = Ok (CustomerQueue.store q i (Some c), true).
Proof.
  revert k. induction n as [|n IH]; intros k Hi Hnone Hsome; [lia|].
  simpl. rewrite index_nat.
  destruct (decide (k = i)) as [->|Hne].
  - by rewrite Hnone.
  - destruct (Hsome k) as [c' Hc']; [lia|]. rewrite Hc'. simpl.
    apply IH; [lia | done |]. intros j Hj. apply Hsome. lia.
Qed.

Lemma add_customer_from_added idx q c q' :
  CustomerQueue.add_customer_from idx q c = Ok (q', true) →
  ∃ i, i ∈ idx ∧ CustomerQueue.customers q !! i = Some None
       ∧ q' = CustomerQueue.store q i (Some c).
Proof.
  induction idx as [|i idx IH]; simpl; [by intros [=]|].
  rewrite index_nat.
  destruct (CustomerQueue.customers q !! i) as [[c'|]|] eqn:Hi; simpl.
  - intros Hrec. destruct (IH Hrec) as (j & Hj & ? & ?). exists j.
    split_and!; [by right | done..].
  - intros [= <-]. exists i. split_and!; [by left | done..].
  - by intros [=].
Qed.

(** X1.  [add_customer] seats the customer in the first empty slot, the one
    of lowest index, returns true and leaves every other slot as it is. *)
Theorem add_customer_first_empty q c i :
  i < CustomerQueue.max_size q →
  QueueRun.first_empty q i →
  CustomerQueue.add_customer q c = Ok (CustomerQueue.store q i (Some c), true).
Proof.
  intros Hi [Hnone Hsome]. unfold CustomerQueue.add_customer.
  apply add_customer_from_first; [lia | done |].
  intros j Hj. apply Hsome. lia.
Qed.

(** X2.  A customer whom [add_customer] seated can be taken out again: for
    some slot of the queue, [remove_customer] returns this customer and
    leaves the queue as it was before the customer came. *)
Theorem add_remove_round_trip q c q' :
  CustomerQueue.add_customer q c = Ok (q', true) →
  ∃ i, (0 ≤ i < Z.of_nat (CustomerQueue.max_size q))%Z
       ∧ CustomerQueue.remove_customer q' i = Ok (q, Some c).
Proof.
  intros Hadd. apply add_customer_from_added in Hadd as (i & Hi & Hnone & ->).
  apply elem_of_seq in Hi. exists (Z.of_nat i). split; [lia|].
  unfold CustomerQueue.remove_customer. simpl.
  destruct (Z.leb_spec 0 (Z.of_nat i)); [|lia].
  destruct (Z.ltb_spec (Z.of_nat i) (Z.of_nat (CustomerQueue.max_size q))); [|lia].
  simpl. rewrite index_nat, list_lookup_insert_eq by by eapply lookup_lt_Some.
  simpl. rewrite Nat2Z.id. unfold CustomerQueue.store. simpl.
  rewrite list_insert_insert_eq, list_insert_id by done. by destruct q.
Qed.

Lemma update_from_pointwise (mid pre post : list (option (Customer.t F))) n dt modifiers gone :
  CustomerQueue.update_from (seq (length pre) (length mid))
    (CustomerQueue.mk (pre ++ mid ++ post) n) dt modifiers gone
  = Ok (CustomerQueue.mk (pre ++ (QueueRun.aged dt modifiers <$> mid) ++ post) n,
        gone ++ omap (QueueRun.leaver dt modifiers) mid).
Proof.
  revert pre gone. induction mid as [|slot mid IH]; intros pre gone; simpl.
  - by rewrite app_nil_r.
  - rewrite index_nat, lookup_app_r, Nat.sub_diag by lia. simpl.
    assert (∀ x, <[length pre := x]> (pre ++ slot :: mid ++ post)
                 = (pre ++ [x]) ++ mid ++ post) as Hstore.
    { intros x. rewrite insert_app_r_alt, Nat.sub_diag by lia. simpl.
      by rewrite <- app_assoc. }
    assert (S (length pre) = length (pre ++ [slot])) as Hlen'
      by (rewrite length_app; simpl; lia).
    destruct slot as [c|]; simpl.
    + destruct (Customer.patience (Customer.update c dt modifiers) ≼ lit 0) eqn:Hp;
        unfold CustomerQueue.store; simpl; rewrite Hstore.
      * replace (S (length pre)) with (length (pre ++ [@None (Customer.t F)]))
          by (rewrite length_app; simpl; lia).
        rewrite IH. by rewrite <- !app_assoc.
      * replace (S (length pre))
          with (length (pre ++ [Some (Customer.update c dt modifiers)]))
          by (rewrite length_app; simpl; lia).
        rewrite IH. by rewrite <- !app_assoc.
    + replace (pre ++ None :: mid ++ post) with ((pre ++ [None]) ++ mid ++ post)
        by (by rewrite <- app_assoc).
      replace (S (length pre)) with (length (pre ++ [@None (Customer.t F)]))
          by (rewrite length_app; simpl; lia).
      rewrite IH. by rewrite <- !app_assoc.
Qed.

(** X3.  On a queue with one slot per unit of capacity, [update] raises no
    [IndexError] and works slot by slot: every customer ages by the tick, a
    slot whose customer has no patience left is emptied, and the customers
    who left are returned in the order of their slots. *)
Theorem queue_update_pointwise q dt modifiers :
  CustomerQueue.well_formed q →
  CustomerQueue.update q dt modifiers
  = Ok (CustomerQueue.mk (QueueRun.aged dt modifiers <$> CustomerQueue.customers q)
                         (CustomerQueue.max_size q),
        omap (QueueRun.leaver dt modifiers) (CustomerQueue.customers q)).
Proof.
  intros Hwf. unfold CustomerQueue.update. destruct q as [l n].
  unfold CustomerQueue.well_formed in Hwf. simpl in *. subst n.
  pose proof (update_from_pointwise l [] [] (length l) dt modifiers []) as Hpw.
  simpl in Hpw. by rewrite !app_nil_r in Hpw.
Qed.

Lemma aged_leaver_count dt modifiers (l : list (option (Customer.t F))) :
  length (omap id (QueueRun.aged dt modifiers <$> l))
  + length (omap (QueueRun.leaver dt modifiers) l)
  = length (omap id l).
Proof.
  induction l as [|[c|] l IH]; csimpl; [done| |done].
  destruct (Customer.patience (Customer.update c dt modifiers) ≼ lit 0);
    csimpl; lia.
Qed.

(** X4.  [update] loses nobody: the customers still in the queue and the
    customers returned as gone are together those who were in the queue. *)
Theorem queue_update_conservation q dt modifiers q' gone :
  CustomerQueue.well_formed q →
  CustomerQueue.update q dt modifiers = Ok (q', gone) →
  CustomerQueue.occupied q' + length gone = CustomerQueue.occupied q.
Proof.
  intros Hwf. unfold CustomerQueue.update. destruct q as [l n].
  unfold CustomerQueue.well_formed in Hwf. simpl in *. subst n.
  pose proof (update_from_pointwise l [] [] (length l) dt modifiers []) as Hpw.
  simpl in Hpw. rewrite !app_nil_r in Hpw. rewrite Hpw. intros [= <- <-].
  apply aged_leaver_count.
Qed.

End QueueMore.







Section Station.
Context {F : Type} `{PyFloat F}.
Local Open Scope pyfloat_scope.
Implicit Types (b : BrewingStation.t F).

Lemma station_step_inv b c :
  StationRun.inv b →
  StationRun.inv (StationRun.step b c)
  ∧ BrewingStation.available_ingredients (StationRun.step b c)
    = BrewingStation.available_ingredients b
  ∧ BrewingStation.brew_time_per_step (StationRun.step b c)
    = BrewingStation.brew_time_per_step b.
Proof.
  intros [Hlen Hall]. unfold StationRun.inv.
  destruct c as [i|x|dt modifiers| |]; simpl.
  - split_and!; [lia | constructor | done..].
  - unfold BrewingStation.add_ingredient. case_bool_decide as Hx; simpl.
    + destruct (Nat.ltb_spec (length (BrewingStation.current_recipe b)) 3); simpl.
      * split_and!; [rewrite length_app; simpl; lia | | done..].
        apply Forall_app. split; [done|]. by constructor.
      * done.
    + done.
  - unfold BrewingStation.update.
    destruct (BrewingStation.is_brewing b && _); [|done].
    simpl. by destruct (_ ≼ _).
  - split_and!; [lia | constructor | done..].
  - split_and!; [lia | constructor | done..].
Qed.

(** X5.  Whatever calls are made on a new brewing station, the sequence in
    the making never holds more than three ingredients, and each of them is
    one of the six available ones. *)
Theorem station_recipe_bounded (calls : list (StationRun.call F)) :
  length (BrewingStation.current_recipe (StationRun.run BrewingStation.init calls)) ≤ 3
  ∧ Forall (λ x, x ∈ ["beans"; "milk"; "stardust"; "meteor_shot"; "moonlight"; "sigil"])
      (BrewingStation.current_recipe (StationRun.run BrewingStation.init calls)).
Proof.
  cut (StationRun.inv (StationRun.run BrewingStation.init calls)
       ∧ BrewingStation.available_ingredients (StationRun.run BrewingStation.init calls)
         = ["beans"; "milk"; "stardust"; "meteor_shot"; "moonlight"; "sigil"]).
  { intros [[Hlen Hall] Hav]. rewrite Hav in Hall. done. }
  induction calls as [|c calls IH] using rev_ind.
  - split; [|done]. split; [simpl; lia | constructor].
  - unfold StationRun.run in *. rewrite foldl_snoc.
    destruct IH as [Hinv Hav].
    destruct (station_step_inv _ c Hinv) as (Hinv' & Hav' & _).
    split; [done | congruence].
Qed.

Lemma add_all_spec b ingredients :
  length (BrewingStation.current_recipe b) ≤ 3 →
  BrewingStation.current_brew_time b = lit 0 →
  StationRun.add_all b ingredients
  = BrewingStation.mk
      (take 3 (BrewingStation.current_recipe b
               ++ filter (λ x, x ∈ BrewingStation.available_ingredients b) ingredients))
      (BrewingStation.available_ingredients b) (BrewingStation.brew_time_per_step b)
      (lit 0) (BrewingStation.is_brewing b) (BrewingStation.selected_customer_index b).
Proof.
  revert b. induction ingredients as [|x l IH]; intros b Hlen Htime.
  - simpl. rewrite app_nil_r, firstn_all2 by lia. destruct b; simpl in *. by subst.
  - unfold StationRun.add_all in *. simpl.
    unfold BrewingStation.add_ingredient. rewrite filter_cons.
    destruct (decide (x ∈ BrewingStation.available_ingredients b)) as [Hx|Hx].
    + rewrite bool_decide_eq_true_2 by done. simpl.
      destruct (Nat.ltb_spec (length (BrewingStation.current_recipe b)) 3) as [Hlt|Hge];
        simpl.
      * rewrite IH; simpl; [|rewrite length_app; simpl; lia | done].
        by rewrite <- app_assoc.
      * rewrite IH by done. f_equal.
        rewrite !take_app_le by lia. done.
    + rewrite bool_decide_eq_false_2 by done. simpl. by apply IH.
Qed.

(** X6.  Starting an order, adding ingredients and completing the order
    returns the available ones among the ingredients added, in the order
    given and cut after the third, and leaves the station empty, idle and
    bound to no customer. *)
Theorem order_round_trip b (i : Z) (ingredients : list string) :
  BrewingStation.complete_order
    (StationRun.add_all (BrewingStation.start_order b i) ingredients)
  = (BrewingStation.mk [] (BrewingStation.available_ingredients b)
       (BrewingStation.brew_time_per_step b) (lit 0) false None,
     take 3 (filter (λ x, x ∈ BrewingStation.available_ingredients b) ingredients)).
Proof.
  rewrite add_all_spec; [done | simpl; lia | done].
Qed.

End Station.

Section Upgrades.
Context {F : Type} `{PyFloat F}.
Local Open Scope pyfloat_scope.
Implicit Types (m : UpgradeManager.t F).

Lemma init_upgrades_lookup (k : string) (u : Upgrade.t F) :
  UpgradeManager._init_upgrades !! k = Some u →
  (k = "enchanted_grinder"
   ∧ u = Upgrade.mk "enchanted_grinder" "Enchanted Grinder" "Reduces brew time by 20%"
                 15 "brew_speed" (lit 1.2) (Some "upgrade_grinder"))
  ∨ (k = "calming_fern"
     ∧ u = Upgrade.mk "calming_fern" "Calming Fern" "Slows patience decay by 15%"
                 20 "patience_decay" (lit 0.85) (Some "upgrade_fern")).
Proof.
  unfold UpgradeManager._init_upgrades.
  intros [[<- <-]|[_ [[<- <-]|[_ ?]]%lookup_insert_Some]]%lookup_insert_Some;
    [by left | by right | done].
Qed.

Lemma expected_brew_speed (p : list string) :
  UpgradeRun.expected_modifiers (F:=F) p !! "brew_speed"
  = Some (if bool_decide ("enchanted_grinder" ∈ p) then lit 1 ⊗ lit 1.2 else lit 1).
Proof. unfold UpgradeRun.expected_modifiers. by rewrite lookup_insert_eq. Qed.

Lemma expected_patience_decay (p : list string) :
  UpgradeRun.expected_modifiers (F:=F) p !! "patience_decay"
  = Some (if bool_decide ("calming_fern" ∈ p) then lit 1 ⊗ lit 0.85 else lit 1).
Proof.
  unfold UpgradeRun.expected_modifiers.
  rewrite lookup_insert_ne by done. by rewrite lookup_insert_eq.
Qed.

Lemma elem_of_snoc_self (p : list string) (k : string) : k ∈ p ++ [k].
Proof. apply elem_of_app. right. by apply list_elem_of_singleton. Qed.

Lemma elem_of_snoc_other (p : list string) (k k' : string) :
  k ≠ k' → k ∈ p ++ [k'] ↔ k ∈ p.
Proof.
  intros Hne. rewrite elem_of_app, list_elem_of_singleton. split.
  - by intros [?|?].
  - by left.
Qed.

Lemma expected_grinder (p : list string) :
  "enchanted_grinder" ∉ p →
  <["brew_speed" := lit 1 ⊗ lit 1.2]> (UpgradeRun.expected_modifiers (F:=F) p)
  = UpgradeRun.expected_modifiers (p ++ ["enchanted_grinder"]).
Proof.
  intros Hin. unfold UpgradeRun.expected_modifiers.
  rewrite insert_insert_eq.
  rewrite (bool_decide_eq_true_2 _ (elem_of_snoc_self p "enchanted_grinder")).
  f_equal. f_equal.
  rewrite (bool_decide_ext ("calming_fern" ∈ p ++ ["enchanted_grinder"])
             ("calming_fern" ∈ p)); [done | by apply elem_of_snoc_other].
Qed.

Lemma expected_fern (p : list string) :
  "calming_fern" ∉ p →
  <["patience_decay" := lit 1 ⊗ lit 0.85]> (UpgradeRun.expected_modifiers (F:=F) p)
  = UpgradeRun.expected_modifiers (p ++ ["calming_fern"]).
Proof.
  intros Hin. unfold UpgradeRun.expected_modifiers.
  rewrite insert_insert_ne by done. rewrite insert_insert_eq.
  rewrite (bool_decide_eq_true_2 _ (elem_of_snoc_self p "calming_fern")).
  f_equal.
  rewrite (bool_decide_ext ("enchanted_grinder" ∈ p ++ ["calming_fern"])
             ("enchanted_grinder" ∈ p)); [done | by apply elem_of_snoc_other].
Qed.

Lemma expected_none :
  UpgradeRun.expected_modifiers (F:=F) [] = UpgradeManager.base_modifiers.
Proof.
  unfold UpgradeRun.expected_modifiers, UpgradeManager.base_modifiers.
  rewrite !bool_decide_eq_false_2; [done | apply not_elem_of_nil..].
Qed.

Lemma NoDup_snoc {A : Type} (l : list A) (x : A) : x ∉ l → NoDup l → NoDup (l ++ [x]).
Proof.
  intros Hx Hl. apply NoDup_app. split_and!; [done | | apply NoDup_singleton].
  by intros y Hy ->%list_elem_of_singleton.
Qed.

Lemma upgrade_step_inv m c : UpgradeRun.inv m → UpgradeRun.inv (UpgradeRun.step m c).
Proof.
  intros (Hav & Hnd & Hcat & Hmod). destruct c as [k coins|]; simpl.
  - unfold UpgradeManager.purchase. case_bool_decide as Hin; [done|].
    destruct (UpgradeManager.available_upgrades m !! k) as [u|] eqn:Hu; [|done].
    destruct (coins <? Upgrade.cost u)%Z; [done|]. simpl.
    rewrite Hav in Hu. unfold UpgradeManager._apply_upgrade. simpl. rewrite Hmod.
    apply init_upgrades_lookup in Hu as [[-> ->]|[-> ->]]; simpl.
    + rewrite expected_brew_speed, (bool_decide_eq_false_2 _ Hin).
      split_and!; simpl; [done | by apply NoDup_snoc | | by apply expected_grinder].
      apply Forall_app. split; [done|]. repeat constructor.
    + rewrite expected_patience_decay, (bool_decide_eq_false_2 _ Hin).
      split_and!; simpl; [done | by apply NoDup_snoc | | by apply expected_fern].
      apply Forall_app. split; [done|]. constructor; [|done]. right. left.
  - split_and!; [done | constructor | constructor |]. simpl. by rewrite expected_none.
Qed.

Lemma upgrade_run_inv (calls : list UpgradeRun.call) :
  UpgradeRun.inv (UpgradeRun.run (F:=F) UpgradeManager.init calls).
Proof.
  induction calls as [|c calls IH] using rev_ind.
  - split_and!; [done | constructor | constructor |]. simpl. by rewrite expected_none.
  - unfold UpgradeRun.run in *. rewrite foldl_snoc. by apply upgrade_step_inv.
Qed.


(** X7.  Whatever purchases and resets are made on a new upgrade manager, no
    upgrade is listed as purchased twice, every purchased id is one of the
    two upgrades of the catalogue, and the catalogue is unchanged. *)
Theorem purchases_distinct (calls : list UpgradeRun.call) :
  NoDup (UpgradeManager.purchased_upgrades (UpgradeRun.run (F:=F) UpgradeManager.init calls))
  ∧ (∀ k, k ∈ UpgradeManager.purchased_upgrades
                (UpgradeRun.run (F:=F) UpgradeManager.init calls) →
          k = "enchanted_grinder" ∨ k = "calming_fern")
  ∧ UpgradeManager.available_upgrades (UpgradeRun.run (F:=F) UpgradeManager.init calls)
    = UpgradeManager._init_upgrades.
Proof.
  destruct (upgrade_run_inv calls) as (Hav & Hnd & Hcat & _).
  split_and!; [done | | done].
  intros k Hk. rewrite Forall_forall in Hcat. specialize (Hcat k Hk).
  apply elem_of_cons in Hcat as [->|Hcat]; [by left|].
  apply list_elem_of_singleton in Hcat as ->. by right.
Qed.

(** X8.  The modifiers are a function of the purchases: the brew speed is
    1.0 * 1.2 if the grinder is purchased and 1.0 otherwise, the patience
    decay 1.0 * 0.85 if the fern is purchased and 1.0 otherwise, and the tip
    multiplier is always 1.0; no effect is ever applied twice. *)
Theorem modifiers_of_purchases (calls : list UpgradeRun.call) :
  UpgradeManager.get_modifiers (UpgradeRun.run (F:=F) UpgradeManager.init calls)
  = UpgradeRun.expected_modifiers
      (UpgradeManager.purchased_upgrades (UpgradeRun.run UpgradeManager.init calls)).
Proof. by destruct (upgrade_run_inv calls) as (_ & _ & _ & Hmod). Qed.

Lemma init_upgrades_id (k : string) (u : Upgrade.t F) :
  UpgradeManager._init_upgrades !! k = Some u → Upgrade.id u = k.
Proof. by intros [[-> ->]|[-> ->]]%init_upgrades_lookup. Qed.

Lemma purchased_ids (p : list string) :
  Forall (λ k, k ∈ ["enchanted_grinder"; "calming_fern"]) p →
  Upgrade.id <$> omap (λ uid, UpgradeManager._init_upgrades (F:=F) !! uid) p = p.
Proof.
  induction 1 as [|k p Hk Hp IH]; [done|]. csimpl.
  assert (∃ v, UpgradeManager._init_upgrades (F:=F) !! k = Some v ∧ Upgrade.id v = k)
    as (v & Hv & Hid).
  { unfold UpgradeManager._init_upgrades.
    apply elem_of_cons in Hk as [->|Hk].
    - eexists. split; [apply lookup_insert_eq | done].
    - apply list_elem_of_singleton in Hk as ->.
      exists (Upgrade.mk "calming_fern" "Calming Fern" "Slows patience decay by 15%"
                20 "patience_decay" (lit 0.85) (Some "upgrade_fern")).
      split; [|done]. rewrite lookup_insert_ne by done. apply lookup_insert_eq. }
  rewrite Hv. csimpl. by rewrite Hid, IH.
Qed.

(** X9.  The shop list and the purchased list divide the catalogue: every
    upgrade of the catalogue is in exactly one of [get_shop_upgrades] and
    [get_purchased_upgrades], nothing else is in either, and the purchased
    upgrades come in the order of their purchase. *)
Theorem shop_partition (calls : list UpgradeRun.call) (u : Upgrade.t F) :
  let m := UpgradeRun.run UpgradeManager.init calls in
  ((u ∈ UpgradeManager.get_shop_upgrades m ∨ u ∈ UpgradeManager.get_purchased_upgrades m)
   ↔ ∃ k, UpgradeManager._init_upgrades !! k = Some u)
  ∧ ¬ (u ∈ UpgradeManager.get_shop_upgrades m
       ∧ u ∈ UpgradeManager.get_purchased_upgrades m)
  ∧ Upgrade.id <$> UpgradeManager.get_purchased_upgrades m
    = UpgradeManager.purchased_upgrades m.
Proof.
  intros m. destruct (upgrade_run_inv calls) as (Hav & Hnd & Hcat & _).
  fold m in Hav, Hnd, Hcat.
  unfold UpgradeManager.get_shop_upgrades, UpgradeManager.get_purchased_upgrades.
  rewrite Hav.
  assert (∀ v, v ∈ (map_to_list (UpgradeManager._init_upgrades (F:=F))).*2
               ↔ ∃ k, UpgradeManager._init_upgrades !! k = Some v) as Hval.
  { intros v. rewrite list_elem_of_fmap. split.
    - intros ([k v'] & -> & Hin). exists k. by apply elem_of_map_to_list.
    - intros (k & Hk). exists (k, v). split; [done|]. by apply elem_of_map_to_list. }
  assert (∀ v, v ∈ omap (λ uid, UpgradeManager._init_upgrades (F:=F) !! uid)
                        (UpgradeManager.purchased_upgrades m)
               ↔ ∃ k, k ∈ UpgradeManager.purchased_upgrades m
                      ∧ UpgradeManager._init_upgrades !! k = Some v) as Hpur.
  { intros v. by rewrite list_elem_of_omap. }
  split_and!.
  - rewrite list_elem_of_filter, Hval, Hpur. split.
    + intros [[_ Hk]|(k & _ & Hk)]; [done | by exists k].
    + intros (k & Hk).
      destruct (decide (k ∈ UpgradeManager.purchased_upgrades m)) as [Hin|Hin].
      * right. by exists k.
      * left. split; [|by exists k]. by rewrite (init_upgrades_id k u Hk).
  - rewrite list_elem_of_filter, Hpur. intros [[Hnot _] (k & Hin & Hk)].
    apply Hnot. by rewrite (init_upgrades_id k u Hk).
  - by apply purchased_ids.
Qed.

Lemma purchase_available m k coins :
  UpgradeManager.available_upgrades (UpgradeManager.purchase m k coins).1
  = UpgradeManager.available_upgrades m.
Proof.
  unfold UpgradeManager.purchase. case_bool_decide; [done|].
  destruct (UpgradeManager.available_upgrades m !! k) as [u|]; [|done].
  destruct (coins <? Upgrade.cost u)%Z; [done|]. simpl.
  unfold UpgradeManager._apply_upgrade. by destruct (_ !! _).
Qed.

Lemma spent_snoc (l : list (Upgrade.t F)) (u : Upgrade.t F) :
  foldr (λ u total, (Upgrade.cost u + total)%Z) 0%Z (l ++ [u])
  = (foldr (λ u total, (Upgrade.cost u + total)%Z) 0%Z l + Upgrade.cost u)%Z.
Proof. induction l as [|v l IH]; simpl; lia. Qed.

Lemma purchase_upgrade_conserves (st : UpgradeShopState.t F) k :
  (default 0 (UpgradeShopState.coins (UpgradeShopState.purchase_upgrade st k))
   + UpgradeShopState.spent (UpgradeShopState.purchase_upgrade st k)
   = default 0 (UpgradeShopState.coins st) + UpgradeShopState.spent st)%Z
  ∧ (0 ≤ default 0 (UpgradeShopState.coins st) →
     0 ≤ default 0 (UpgradeShopState.coins (UpgradeShopState.purchase_upgrade st k)))%Z.
Proof.
  unfold UpgradeShopState.purchase_upgrade, UpgradeShopState.spent,
    UpgradeManager.get_purchased_upgrades, UpgradeManager.purchase.
  case_bool_decide as Hin; [done|].
  destruct (UpgradeManager.available_upgrades (UpgradeShopState.upgrade_manager st) !! k)
    as [u|] eqn:Hu; [|done].
  destruct (Z.ltb_spec (default 0%Z (UpgradeShopState.coins st)) (Upgrade.cost u));
    [done|].
  simpl. unfold UpgradeManager._apply_upgrade.
  destruct (UpgradeManager.modifiers _ !! _); simpl;
    rewrite omap_app; csimpl; rewrite Hu; csimpl; rewrite spent_snoc; lia.
Qed.

(** X10.  In the upgrade shop no coin is lost: after any clicks on purchase
    buttons the coins left and the cost of the purchased upgrades add up to
    the coins the player came with, and the coins never go below 0 when
    they were not below 0 before. *)
Theorem shop_conservation (coins : option Z) (ids : list string) :
  let st := foldl UpgradeShopState.purchase_upgrade (UpgradeShopState.init (F:=F) coins) ids in
  (default 0 (UpgradeShopState.coins st) + UpgradeShopState.spent st = default 0 coins)%Z
  ∧ (0 ≤ default 0 coins → 0 ≤ default 0 (UpgradeShopState.coins st))%Z.
Proof.
  induction ids as [|k ids IH] using rev_ind; simpl.
  - unfold UpgradeShopState.spent. simpl. split; lia.
  - rewrite foldl_snoc. simpl in IH.
    destruct (purchase_upgrade_conserves
                (foldl UpgradeShopState.purchase_upgrade (UpgradeShopState.init coins) ids) k)
      as [Heq Hpos].
    split; [lia | tauto].
Qed.

End Upgrades.

Section Recipes.

Lemma load_recipes_snoc (b : RecipeBook.t) (data : list Recipe.t) (r : Recipe.t) :
  RecipeBook.recipes (RecipeBook.load_recipes b (data ++ [r]))
  = <[Recipe.id r := r]> (RecipeBook.recipes (RecipeBook.load_recipes b data)).
Proof. unfold RecipeBook.load_recipes. simpl. by rewrite foldl_snoc. Qed.

(** X11.  After [load_recipes], [find] returns for an id the last recipe of
    the table with that id, and what the book held before if the table has
    none. *)
Theorem load_recipes_find (b : RecipeBook.t) (data : list Recipe.t) (k : string) :
  RecipeBook.find (RecipeBook.load_recipes b data) (Some k)
  = match last (filter (λ r, Recipe.id r = k) data) with
    | Some r => Some r
    | None => RecipeBook.find b (Some k)
    end.
Proof.
  induction data as [|r data IH] using rev_ind; [done|].
  unfold RecipeBook.find in *.
  rewrite load_recipes_snoc, filter_app, filter_cons, filter_nil.
  destruct (decide (Recipe.id r = k)) as [<-|Hne].
  - by rewrite lookup_insert_eq, last_snoc.
  - by rewrite lookup_insert_ne, app_nil_r.
Qed.

Lemma init_keys (data : list Recipe.t) (k : string) (r : Recipe.t) :
  RecipeBook.recipes (RecipeBook.init data) !! k = Some r → Recipe.id r = k ∧ r ∈ data.
Proof.
  unfold RecipeBook.init.
  induction data as [|r' data IH] using rev_ind; [done|].
  rewrite load_recipes_snoc.
  intros [[<- <-]|[Hne Hk]]%lookup_insert_Some.
  - split; [done|]. apply elem_of_app. right. by left.
  - destruct (IH Hk). split; [done|]. apply elem_of_app. by left.
Qed.

(** X12.  In a book loaded from a table, the recipe [get_random_recipe]
    returns is a recipe of the table, its id does not start with
    "banishing", and [find] returns this very recipe for its id; so the
    order of a spawned customer can be looked up. *)
Theorem random_recipe_resolves (data : list Recipe.t) (rnd : nat) (r : Recipe.t) :
  RecipeBook.get_random_recipe (RecipeBook.init data) rnd = Ok r →
  RecipeBook.find (RecipeBook.init data) (Some (Recipe.id r)) = Some r
  ∧ r ∈ data
  ∧ String.prefix "banishing" (Recipe.id r) = false.
Proof.
  intros Hr%choice_elem. apply elem_of_regular_recipes in Hr as [Hspecial (k & Hk)].
  destruct (init_keys data k r Hk) as [<- Hin]. simpl.
  split_and!; [done..|].
  unfold RecipeBook.is_special in Hspecial. by destruct (String.prefix _ _).
Qed.

End Recipes.



Section UpdateMore.
Context {F : Type} `{PyFloat F}.
Local Open Scope pyfloat_scope.
Implicit Types (s : ServiceController.t F) (q : CustomerQueue.t F) (c : Customer.t F).

Lemma set_queue_same s : ServiceController.set_queue s (ServiceController.customer_queue s) = s.
Proof. by destruct s. Qed.

Lemma spawn_customer_frame s rnd s' spawned :
  ServiceController.spawn_customer s rnd = Ok (s', spawned) →
  s' = ServiceController.set_queue s (ServiceController.customer_queue s')
  ∧ ((ServiceController.customer_queue s' = ServiceController.customer_queue s
      ∧ spawned = false)
     ∨ (ServiceController.active s = true
        ∧ ∃ tpl recipe,
            tpl ∈ ServiceController.customer_pool s
            ∧ RecipeBook.get_random_recipe (ServiceController.recipe_book s)
                (ServiceController.recipe_draw rnd) = Ok recipe
            ∧ CustomerQueue.add_customer (ServiceController.customer_queue s)
                (ServiceController.new_customer tpl recipe)
              = Ok (ServiceController.customer_queue s', spawned))).
Proof.
  unfold ServiceController.spawn_customer.
  destruct (bool_decide (ServiceController.customer_pool s = []) || _) eqn:Hno.
  { intros [= <- <-]. split; [by rewrite set_queue_same | by left]. }
  apply orb_false_iff in Hno as [_ Hact%negb_false_iff].
  destruct (Py.choice _ _) as [tpl|ex] eqn:Htpl; simpl; [|intros [=]].
  destruct (RecipeBook.get_random_recipe _ _) as [recipe|ex] eqn:Hrec; simpl; [|intros [=]].
  destruct (CustomerQueue.add_customer _ _) as [[q added]|ex] eqn:Hadd; simpl; [|intros [=]].
  intros [= <- <-]. split; [done|]. right. split; [done|].
  exists tpl, recipe. split_and!; [by eapply choice_elem | done | done].
Qed.

Lemma update_unfold s dt modifiers rnd s' ev :
  ServiceController.update s dt modifiers rnd = Ok (s', ev) →
  ServiceController.active s = true →
  ∃ q1,
    (q1 = ServiceController.customer_queue s
     ∨ ((ServiceController.customers_served s
         + Z.of_nat (CustomerQueue.occupied (ServiceController.customer_queue s)) <? 8)%Z
        = true
        ∧ ∃ c added,
            CustomerQueue.add_customer (ServiceController.customer_queue s) c
            = Ok (q1, added)))
    ∧ CustomerQueue.update q1 dt modifiers
      = Ok (ServiceController.customer_queue s', ServiceController.customers_left ev)
    ∧ ServiceController.day_ended ev = (ServiceController.time_remaining s ⊖ dt ≼ lit 0)
    ∧ ServiceController.active s'
      = negb (ServiceController.time_remaining s ⊖ dt ≼ lit 0)
    ∧ ServiceController.time_remaining s'
      = (if ServiceController.time_remaining s ⊖ dt ≼ lit 0 then lit 0
         else ServiceController.time_remaining s ⊖ dt)
    ∧ ServiceController.cafe_heat s'
      = (if ServiceController.has_fire_elemental (ServiceController.customer_queue s')
         then ServiceController.py_min (lit 100)
                (ServiceController.cafe_heat s ⊕ dt ⊗ lit 10)
         else ServiceController.py_max (lit 0)
                (ServiceController.cafe_heat s ⊖ dt ⊗ lit 5))
    ∧ ServiceController.customers_served s' = ServiceController.customers_served s
    ∧ ServiceController.total_tips s' = ServiceController.total_tips s
    ∧ ServiceController.day_time s' = ServiceController.day_time s
    ∧ ServiceController.recipe_book s' = ServiceController.recipe_book s
    ∧ ServiceController.customer_pool s' = ServiceController.customer_pool s
    ∧ ServiceController.brewing_station s'
      = (BrewingStation.update (ServiceController.brewing_station s) dt modifiers).1.
Proof.
  unfold ServiceController.update. intros Hupdate Hact. rewrite Hact in Hupdate.
  simpl in Hupdate.
  destruct (ServiceController.time_remaining s ⊖ dt ≼ lit 0) eqn:Hend;
    simpl in Hupdate.
  - (* the day ends: nobody is spawned *)
    match type of Hupdate with
    | mbind _ ?m = _ =>
        assert (∃ t, m = Ok (ServiceController.set_spawn_timer
                               (ServiceController.set_clock s (lit 0) false) t)) as [t Ht]
    end.
    { destruct (_ && _); [|by eexists].
      unfold ServiceController.spawn_customer. simpl.
      rewrite orb_true_r. simpl. by eexists. }
    rewrite Ht in Hupdate. simpl in Hupdate.
    destruct (CustomerQueue.update _ _ _) as [[q gone]|ex] eqn:Hq;
      simpl in Hupdate; [|done].
    exists (ServiceController.customer_queue s). simpl in Hq.
    destruct (ServiceController.has_fire_elemental _) eqn:Hfire;
      injection Hupdate as <- <-; simpl; rewrite ?Hfire; by split_and!; [left|..].
  - match type of Hupdate with
    | mbind _ ?m = _ => destruct m as [s2|ex] eqn:Hs2; simpl in Hupdate; [|done]
    end.
    destruct (CustomerQueue.update _ _ _) as [[q gone]|ex] eqn:Hq;
      simpl in Hupdate; [|done].
    exists (ServiceController.customer_queue s2).
    assert (∃ t, s2 = ServiceController.set_queue
                   (ServiceController.set_spawn_timer
                      (ServiceController.set_clock s (ServiceController.time_remaining s ⊖ dt)
                         true) t)
                   (ServiceController.customer_queue s2)
            ∧ (ServiceController.customer_queue s2 = ServiceController.customer_queue s
               ∨ ((ServiceController.customers_served s
                   + Z.of_nat (CustomerQueue.occupied (ServiceController.customer_queue s))
                   <? 8)%Z = true
                  ∧ ∃ c added,
                      CustomerQueue.add_customer (ServiceController.customer_queue s) c
                      = Ok (ServiceController.customer_queue s2, added))))
      as (t & Hs2' & Hq2).
    { revert Hs2. destruct (_ && _) eqn:Hcond.
      - apply andb_true_iff in Hcond as [_ Hcount]. simpl in Hcount.
        destruct (ServiceController.spawn_customer _ rnd) as [[s3 spawned]|ex] eqn:Hsp;
          simpl; [|intros [=]].
        apply spawn_customer_frame in Hsp as [Hs3 Hq3]. simpl in Hq3.
        intros [= <-].
        assert (ServiceController.customer_queue s3 = ServiceController.customer_queue s
               ∨ ((ServiceController.customers_served s
                   + Z.of_nat (CustomerQueue.occupied (ServiceController.customer_queue s))
                   <? 8)%Z = true
                  ∧ ∃ c added,
                      CustomerQueue.add_customer (ServiceController.customer_queue s) c
                      = Ok (ServiceController.customer_queue s3, added))) as Hq3'.
        { destruct Hq3 as [[? _]|(_ & tpl & recipe & _ & _ & Hadd)]; [by left|].
          right. split; [done|]. by eexists _, _. }
        destruct spawned.
        + eexists. split; [|exact Hq3']. rewrite Hs3. simpl. reflexivity.
        + eexists. split; [|exact Hq3']. rewrite Hs3. simpl. reflexivity.
      - intros [= <-]. eexists. split; [|by left].
        symmetry. apply set_queue_same. }
    rewrite Hs2' in Hupdate. simpl in Hupdate.
    destruct (ServiceController.has_fire_elemental _) eqn:Hfire;
      injection Hupdate as <- <-; simpl; rewrite ?Hfire, ?Hact;
      split_and!; try done; by rewrite Hs2'.
Qed.

End UpdateMore.



Section Fields.
Context {F : Type} `{PyFloat F}.
Local Open Scope pyfloat_scope.
Implicit Types (s : ServiceController.t F) (q : CustomerQueue.t F) (c : Customer.t F).

Lemma update_inactive s dt modifiers rnd :
  ServiceController.active s = false →
  ServiceController.update s dt modifiers rnd
  = Ok (s, ServiceController.mk_events [] false).
Proof. unfold ServiceController.update. by intros ->. Qed.

Lemma serve_drink_fields s recipe_steps s' r :
  ServiceController.serve_drink s recipe_steps = Ok (s', r) →
  ServiceRun.same_clock s s'
  ∧ ServiceController.brewing_station s' = ServiceController.brewing_station s
  ∧ ((s' = s ∧ r = ServiceController.no_service)
     ∨ ∃ i c removed,
         BrewingStation.selected_customer_index (ServiceController.brewing_station s)
         = Some i
         ∧ Py.index (CustomerQueue.customers (ServiceController.customer_queue s)) i
           = Ok (Some c)
         ∧ CustomerQueue.remove_customer (ServiceController.customer_queue s) i
           = Ok (ServiceController.customer_queue s', removed)
         ∧ ServiceController.customers_served s'
           = (ServiceController.customers_served s + 1)%Z
         ∧ ServiceController.total_tips s'
           = (ServiceController.total_tips s + ServiceController.tip r)%Z).
Proof.
  unfold ServiceController.serve_drink, ServiceRun.same_clock.
  destruct (BrewingStation.selected_customer_index _) as [i|] eqn:Hsel;
    [|intros [= <- <-]; split_and!; try done; by left].
  destruct (Py.index _ i) as [[c|]|ex] eqn:Hc; simpl;
    [|intros [= <- <-]; split_and!; try done; by left | intros [=]].
  destruct (fdiv _ _) as [ratio|ex]; simpl; [|intros [=]].
  destruct (Customer.calculate_tip _ _ _) as [tip|ex]; simpl; [|intros [=]].
  destruct (CustomerQueue.remove_customer _ _) as [[q removed]|ex] eqn:Hrem; simpl;
    [|intros [=]].
  intros [= <- <-]. simpl. split_and!; try done.
  right. by exists i, c, removed.
Qed.

Lemma start_day_fields s day rnd s' :
  ServiceController.start_day s day rnd = Ok s' →
  ServiceController.time_remaining s' = ServiceController.day_time s
  ∧ ServiceController.day_time s' = ServiceController.day_time s
  ∧ ServiceController.cafe_heat s' = lit 0
  ∧ ServiceController.active s' = true
  ∧ ServiceController.customers_served s' = 0%Z
  ∧ ServiceController.total_tips s' = 0%Z
  ∧ ServiceController.recipe_book s' = ServiceController.recipe_book s
  ∧ ServiceController.customer_pool s' = ServiceController.customer_pool s
  ∧ ServiceController.brewing_station s' = ServiceController.brewing_station s
  ∧ ∃ added,
      (ServiceController.customer_queue s'
       = CustomerQueue.init (CustomerQueue.max_size (ServiceController.customer_queue s))
       ∧ added = false)
      ∨ ∃ c, CustomerQueue.add_customer
               (CustomerQueue.init
                  (CustomerQueue.max_size (ServiceController.customer_queue s))) c
             = Ok (ServiceController.customer_queue s', added).
Proof.
  unfold ServiceController.start_day.
  destruct (ServiceController.spawn_customer _ _) as [[s1 spawned]|ex] eqn:Hsp;
    simpl; [|intros [=]].
  intros [= <-]. apply spawn_customer_frame in Hsp as [-> Hq]. simpl in *.
  split_and!; try done. exists spawned.
  destruct Hq as [[-> ->]|(_ & tpl & recipe & _ & _ & Hadd)]; [by left|].
  right. by eexists.
Qed.

End Fields.

Lemma Q_flt_false (x y : Q) : flt x y = false ↔ (y <= x)%Q.
Proof.
  simpl. unfold ExactArith.ltb. rewrite negb_false_iff. apply (Q_fle y x).
Qed.

Section Clock.
Implicit Types (s : ServiceController.t Q).

Lemma clock_inv_exact s :
  ServiceRun.clock_inv s
  ↔ ServiceController.day_time s = 90%Q
    ∧ (0 <= ServiceController.time_remaining s <= 90)%Q
    ∧ (0 <= ServiceController.cafe_heat s <= 100)%Q.
Proof. unfold ServiceRun.clock_inv. rewrite !Q_fle. simpl. tauto. Qed.

Lemma same_clock_inv s s' :
  ServiceRun.same_clock s s' → ServiceRun.clock_inv s → ServiceRun.clock_inv s'.
Proof.
  intros (Ht & Hd & Hh & _). unfold ServiceRun.clock_inv. by rewrite Ht, Hd, Hh.
Qed.

Lemma update_clock_inv s dt modifiers rnd s' ev :
  ServiceController.update s dt modifiers rnd = Ok (s', ev) →
  (0 <= dt)%Q → ServiceRun.clock_inv s → ServiceRun.clock_inv s'.
Proof.
  intros Hupdate Hdt. rewrite !clock_inv_exact. intros (Hday & Htime & Hheat).
  destruct (ServiceController.active s) eqn:Hact.
  - destruct (update_unfold _ _ _ _ _ _ Hupdate Hact)
      as (q1 & _ & _ & _ & _ & Htime' & Hheat' & _ & _ & Hday' & _).
    rewrite Hday', Htime', Hheat'. split; [done|]. split.
    + destruct (fle _ (lit 0)) eqn:Hend; [simpl; lra|].
      apply Q_fle_false in Hend. simpl in *. lra.
    + unfold ServiceController.py_min, ServiceController.py_max.
      destruct (ServiceController.has_fire_elemental _).
      * destruct (flt _ _) eqn:Hcmp;
          [apply Q_flt in Hcmp | apply Q_flt_false in Hcmp]; simpl in *; lra.
      * destruct (flt _ _) eqn:Hcmp;
          [apply Q_flt in Hcmp | apply Q_flt_false in Hcmp]; simpl in *; lra.
  - rewrite update_inactive in Hupdate by done. injection Hupdate as <- <-.
    done.
Qed.

Lemma step_clock_inv s call s' gone :
  ServiceRun.step s call = Ok (s', gone) →
  ServiceRun.forward call → ServiceRun.clock_inv s → ServiceRun.clock_inv s'.
Proof.
  destruct call as [day rnd|dt modifiers rnd|rnd|recipe_steps| |i|x| |]; simpl.
  - destruct (ServiceController.start_day s day rnd) as [s1|ex] eqn:Hstart; simpl;
      [|intros [=]].
    intros [= <- <-] _. rewrite !clock_inv_exact. intros (Hday & _ & _).
    destruct (start_day_fields _ _ _ _ Hstart) as (Ht & Hd & Hh & _).
    rewrite Ht, Hd, Hh, Hday. simpl. split; [done|]. split; lra.
  - destruct (ServiceController.update s dt modifiers rnd) as [[s1 ev]|ex] eqn:Hupdate;
      simpl; [|intros [=]].
    intros [= <- <-] Hdt%Q_fle. by eapply update_clock_inv.
  - destruct (ServiceController.spawn_customer s rnd) as [[s1 spawned]|ex] eqn:Hsp;
      simpl; [|intros [=]].
    intros [= <- <-] _. apply spawn_customer_frame in Hsp as [-> _]. done.
  - destruct (ServiceController.serve_drink s recipe_steps) as [[s1 r]|ex] eqn:Hserve;
      simpl; [|intros [=]].
    intros [= <- <-] _. apply serve_drink_fields in Hserve as [Hsame _].
    by apply same_clock_inv.
  - by intros [= <- <-].
  - by intros [= <- <-].
  - by intros [= <- <-].
  - by intros [= <- <-].
  - by intros [= <- <-].
Qed.

Lemma run_clock_inv s calls s' gone :
  ServiceRun.run s calls = Ok (s', gone) →
  Forall ServiceRun.forward calls → ServiceRun.clock_inv s → ServiceRun.clock_inv s'.
Proof.
  revert s gone. induction calls as [|call calls IH]; intros s gone; simpl.
  - by intros [= <- <-].
  - destruct (ServiceRun.step s call) as [[s1 gone1]|ex] eqn:Hstep; simpl; [|intros [=]].
    destruct (ServiceRun.run s1 calls) as [[s2 gone2]|ex] eqn:Hrun; simpl; [|intros [=]].
    intros [= <- <-] [Hcall Hcalls]%Forall_cons Hinv.
    eapply IH; [exact Hrun | done |]. by eapply step_clock_inv.
Qed.

Lemma init_clock_inv book pool :
  ServiceRun.clock_inv (F:=Q) (ServiceController.init book pool).
Proof. apply clock_inv_exact. simpl. split; [done|]. split; lra. Qed.

(** X15.  In exact arithmetic, whatever calls are made with the clock running
    forwards, the time left of the day stays between 0 and the 90 seconds of
    a day. *)
Theorem time_remaining_range book pool (calls : list (ServiceRun.call Q)) s gone :
  ServiceRun.run (ServiceController.init book pool) calls = Ok (s, gone) →
  Forall ServiceRun.forward calls →
  (0 <= ServiceController.time_remaining s <= 90)%Q.
Proof.
  intros Hrun Hcalls.
  pose proof (run_clock_inv _ _ _ _ Hrun Hcalls (init_clock_inv book pool)) as Hinv.
  by apply clock_inv_exact in Hinv as (_ & ? & _).
Qed.

(** X16.  In exact arithmetic, whatever calls are made with the clock running
    forwards, the heat of the cafe stays between 0 and 100, and
    [get_ice_melt_rate] returns a rate between 0 and 1. *)
Theorem cafe_heat_range book pool (calls : list (ServiceRun.call Q)) s gone :
  ServiceRun.run (ServiceController.init book pool) calls = Ok (s, gone) →
  Forall ServiceRun.forward calls →
  (0 <= ServiceController.cafe_heat s <= 100)%Q
  ∧ ∃ rate, ServiceController.get_ice_melt_rate s = Ok rate ∧ (0 <= rate <= 1)%Q.
Proof.
  intros Hrun Hcalls.
  pose proof (run_clock_inv _ _ _ _ Hrun Hcalls (init_clock_inv book pool)) as Hinv.
  apply clock_inv_exact in Hinv as (_ & _ & Hheat).
  split; [done|]. unfold ServiceController.get_ice_melt_rate.
  rewrite Q_div_returns by done. eexists. split; [done|].
  simpl. split.
  - apply Qle_shift_div_l; lra.
  - apply Qle_shift_div_r; lra.
Qed.

End Clock.





Section Ghost.
Context {F : Type} `{PyFloat F}.
Local Open Scope pyfloat_scope.

Lemma update_quirk (c : Customer.t F) dt modifiers :
  Customer.quirk (Customer.update c dt modifiers) = Customer.quirk c.
Proof.
  unfold Customer.update. destruct (_ && _); simpl; [|done].
  by destruct (_ ≼ _).
Qed.


End Ghost.



Section Spawn.
Context {F : Type} `{PyFloat F}.
Local Open Scope pyfloat_scope.
Implicit Types (s : ServiceController.t F) (q : CustomerQueue.t F) (c : Customer.t F).

Lemma add_customer_from_found n k q c q' :
  CustomerQueue.add_customer_from (seq k n) q c = Ok (q', true) →
  ∃ i, k ≤ i < k + n
       ∧ CustomerQueue.customers q !! i = Some None
       ∧ (∀ j, k ≤ j < i → ∃ c', CustomerQueue.customers q !! j = Some (Some c'))
       ∧ q' = CustomerQueue.store q i (Some c).
Proof.
  revert k. induction n as [|n IH]; intros k; simpl; [by intros [=]|].
  rewrite index_nat.
  destruct (CustomerQueue.customers q !! k) as [[c'|]|] eqn:Hk; simpl.
  - intros Hrec. destruct (IH _ Hrec) as (i & Hi & Hnone & Hsome & ->).
    exists i. split; [lia|]. split_and!; [done | | done].
    intros j Hj. destruct (decide (j = k)) as [->|Hne]; [by exists c'|].
    apply Hsome. lia.
  - intros [= <-]. exists k. split; [lia|]. split_and!; [done | | done].
    intros j Hj. lia.
  - by intros [=].
Qed.

(** X13.  When [spawn_customer] returns true, the new customer sits in the
    first empty slot and nothing else of the controller changed; the
    customer is built from a template of the pool and an ordinary recipe of
    the book, with full patience, the recipe's id as the order, and
    visible unless a ghost. *)
Theorem spawn_customer_spec s rnd s' :
  ServiceController.spawn_customer s rnd = Ok (s', true) →
  ∃ i tpl recipe,
    tpl ∈ ServiceController.customer_pool s
    ∧ recipe ∈ RecipeBook.regular_recipes (ServiceController.recipe_book s)
    ∧ QueueRun.first_empty (ServiceController.customer_queue s) i
    ∧ s' = ServiceController.set_queue s
             (CustomerQueue.store (ServiceController.customer_queue s) i
                (Some (ServiceController.new_customer tpl recipe)))
    ∧ Customer.patience (ServiceController.new_customer tpl recipe)
      = ServiceController.t_patience tpl
    ∧ Customer.max_patience (ServiceController.new_customer tpl recipe)
      = ServiceController.t_patience tpl
    ∧ Customer.desired_recipe (ServiceController.new_customer tpl recipe)
      = Some (Recipe.id recipe)
    ∧ Customer.is_visible (ServiceController.new_customer tpl recipe)
      = negb (bool_decide (ServiceController.t_quirk tpl = Some "invisible")).
Proof.
  unfold ServiceController.spawn_customer.
  destruct (bool_decide (ServiceController.customer_pool s = []) || _);
    [by intros [=]|].
  destruct (Py.choice _ _) as [tpl|ex] eqn:Htpl; simpl; [|intros [=]].
  destruct (RecipeBook.get_random_recipe _ _) as [recipe|ex] eqn:Hrec; simpl; [|intros [=]].
  destruct (CustomerQueue.add_customer _ _) as [[q added]|ex] eqn:Hadd; simpl; [|intros [=]].
  intros [= <- ->].
  apply add_customer_from_found in Hadd as (i & Hi & Hnone & Hsome & ->).
  exists i, tpl, recipe.
  split_and!; [by eapply choice_elem | by eapply choice_elem | | done | ..].
  - split; [done|]. intros j Hj. apply Hsome. lia.
  - unfold ServiceController.new_customer. by destruct (Customer.is_invisible_quirk _).
  - unfold ServiceController.new_customer. by destruct (Customer.is_invisible_quirk _).
  - unfold ServiceController.new_customer. by destruct (Customer.is_invisible_quirk _).
  - unfold ServiceController.new_customer, Customer.is_invisible_quirk. simpl.
    by case_bool_decide.
Qed.

End Spawn.




Section Phases.
Context {F : Type} `{PyFloat F}.
Local Open Scope pyfloat_scope.
Implicit Types (m : ChaosManager.t F) (c : ChaosRun.call F) (e : PortalEvent.t F).

Lemma portal_update_live e dt e' r :
  PortalEvent.update e dt = (e', r) →
  PortalEvent.active e = true → PortalEvent.resolved e = false →
  PortalEvent.max_pastries_lost e = 10%Z →
  (0 ≤ PortalEvent.pastries_lost e < 10)%Z →
  PortalEvent.resolved e' = false
  ∧ PortalEvent.max_pastries_lost e' = 10%Z
  ∧ ((PortalEvent.active e' = true ∧ (0 ≤ PortalEvent.pastries_lost e' < 10)%Z
      ∧ ∃ rift, r = PortalEvent.snapshot rift (PortalEvent.pastries_lost e'))
     ∨ (PortalEvent.active e' = false ∧ (0 ≤ PortalEvent.pastries_lost e' ≤ 10)%Z
        ∧ ∃ msg, r = PortalEvent.portal_failed (PortalEvent.pastries_lost e') msg)).
Proof.
  unfold PortalEvent.update. intros Hupdate Hact Hres Hmax Hlost.
  rewrite Hact, Hres in Hupdate. simpl in Hupdate.
  destruct (lit 2 ≼ PortalEvent.timer e ⊕ dt); simpl in Hupdate.
  - destruct (PortalEvent.max0 _ ≼ lit 0); simpl in Hupdate.
    + injection Hupdate as <- <-. simpl. split_and!; [done..|]. right.
      split_and!; [done | lia | lia | by eexists].
    + destruct (Z.leb_spec (PortalEvent.max_pastries_lost e)
                  (PortalEvent.pastries_lost e + 1));
        injection Hupdate as <- <-; simpl; (split_and!; [done..|]).
      * right. split_and!; [done | lia | lia | by eexists].
      * left. split_and!; [done | lia | lia | by eexists].
  - destruct (PortalEvent.max0 _ ≼ lit 0); simpl in Hupdate.
    + injection Hupdate as <- <-. simpl. split_and!; [done..|]. right.
      split_and!; [done | lia | lia | by eexists].
    + destruct (Z.leb_spec (PortalEvent.max_pastries_lost e)
                  (PortalEvent.pastries_lost e));
        injection Hupdate as <- <-; simpl; (split_and!; [done..|]).
      * right. split_and!; [done | lia | lia | by eexists].
      * left. split_and!; [done | lia | lia | by eexists].
Qed.

Lemma step_fresh m c m' r :
  ChaosRun.step m c = Ok (m', r) → ChaosRun.fresh m →
  ChaosRun.ending r = false ∧ (ChaosRun.fresh m' ∨ ChaosRun.live m').
Proof.
  intros Hstep [Hev Htr]. destruct c as [t|dt|action data]; simpl in Hstep.
  - unfold ChaosManager.check_trigger in Hstep. rewrite Htr in Hstep.
    simpl in Hstep. destruct (t ≼ _); injection Hstep as <- <-.
    + split; [done|]. right. eexists. split; [done|]. simpl. split_and!; try done; lia.
    + split; [done|]. by left.
  - unfold ChaosManager.update in Hstep. rewrite Hev in Hstep.
    injection Hstep as <- <-. split; [done|]. by left.
  - unfold ChaosManager.try_resolve in Hstep. rewrite Hev in Hstep.
    injection Hstep as <- <-. split; [done|]. by left.
Qed.

Lemma step_over m c m' r :
  ChaosRun.step m c = Ok (m', r) → ChaosRun.over m → m' = m ∧ ChaosRun.quiet r = true.
Proof.
  intros Hstep (e & Hev & Htr & Hact & Hlost).
  destruct c as [t|dt|action data]; simpl in Hstep.
  - rewrite check_trigger_triggered in Hstep by done. by injection Hstep as <- <-.
  - unfold ChaosManager.update in Hstep. rewrite Hev, Hact in Hstep.
    by injection Hstep as <- <-.
  - unfold ChaosManager.try_resolve in Hstep. rewrite Hev, Hact in Hstep.
    by injection Hstep as <- <-.
Qed.

Lemma step_live m c m' r :
  ChaosRun.step m c = Ok (m', r) → ChaosRun.live m →
  (ChaosRun.ending r = false ∧ ChaosRun.live m')
  ∨ (ChaosRun.ending r = true ∧ ChaosRun.over m'
     ∧ ∀ cl, r = ChaosRun.resolution (Some cl) →
             (1 ≤ PortalEvent.saved cl ≤ 10)%Z
             ∧ c = ChaosRun.try_resolve "serve_drink"
                     (PortalEvent.a_list ["beans"; "moonlight"; "sigil"])).
Proof.
  intros Hstep (e & Hev & Htr & Hact & Hres & Hmax & Hlost).
  destruct c as [t|dt|action data]; simpl in Hstep.
  - rewrite check_trigger_triggered in Hstep by done. injection Hstep as <- <-.
    left. split; [done|]. by exists e.
  - unfold ChaosManager.update in Hstep. rewrite Hev, Hact in Hstep.
    destruct (PortalEvent.update e dt) as [e' rep] eqn:Hupdate.
    injection Hstep as <- <-.
    destruct (portal_update_live _ _ _ _ Hupdate Hact Hres Hmax Hlost)
      as (Hres' & Hmax' & [(Hact' & Hlost' & rift & ->)|(Hact' & Hlost' & msg & ->)]).
    + left. split; [done|]. by exists e'.
    + right. split_and!; [done | by exists e' | done].
  - unfold ChaosManager.try_resolve in Hstep. rewrite Hev, Hact in Hstep.
    simpl in Hstep.
    destruct (PortalEvent.can_resolve e action data) eqn:Hcan.
    + unfold PortalEvent.resolve in Hstep.
      destruct (fdiv _ _) as [tenth|ex]; simpl in Hstep; [|done].
      destruct (int_of_float tenth) as [bonus|ex]; simpl in Hstep; [|done].
      injection Hstep as <- <-. right. split_and!; [done | | ].
      * eexists. split; [done|]. simpl. split_and!; [done..|lia|lia].
      * intros cl [= <-]. simpl. split; [lia|].
        unfold PortalEvent.can_resolve in Hcan. destruct data as [l|]; [|done].
        case_bool_decide as Haction; simpl in Hcan; [|done].
        apply bool_decide_eq_true in Hcan. by subst.
    + injection Hstep as <- <-. left. split; [done|]. by exists e.
Qed.

Lemma run_over m calls m' outs :
  ChaosRun.run m calls = Ok (m', outs) → ChaosRun.over m →
  m' = m ∧ Forall (λ r, ChaosRun.quiet r = true) outs.
Proof.
  revert m outs. induction calls as [|c calls IH]; intros m outs.
  - by intros [= <- <-].
  - intros (m1 & r & rs & Hstep & Hrun & ->)%run_cons_Ok Hover.
    destruct (step_over _ _ _ _ Hstep Hover) as [-> Hr].
    destruct (IH _ _ Hrun Hover) as [-> Hrs]. split; [done|]. by constructor.
Qed.

Lemma run_one_end m calls m' outs :
  ChaosRun.run m calls = Ok (m', outs) → ChaosRun.fresh m ∨ ChaosRun.live m → ChaosRun.one_end m' outs.
Proof.
  revert m outs. induction calls as [|c calls IH]; intros m outs.
  - intros [= <- <-] Hm. left. by split.
  - intros (m1 & r & rs & Hstep & Hrun & ->)%run_cons_Ok Hm.
    assert ((ChaosRun.ending r = false ∧ (ChaosRun.fresh m1 ∨ ChaosRun.live m1))
            ∨ (ChaosRun.ending r = true ∧ ChaosRun.over m1
               ∧ ∀ cl, r = ChaosRun.resolution (Some cl) →
                       (1 ≤ PortalEvent.saved cl ≤ 10)%Z)) as [[Hr Hm1]|(Hr & Hm1 & Hcl)].
    { destruct Hm as [Hm|Hm].
      - left. by eapply step_fresh.
      - destruct (step_live _ _ _ _ Hstep Hm) as [[? ?]|(? & ? & Hcl)].
        + left. split; [done | by right].
        + right. split_and!; [done..|]. intros cl Hcl'. by destruct (Hcl cl Hcl'). }
    + destruct (IH _ _ Hrun Hm1)
        as [[Hrs Hm']|(before & r' & after & -> & Hb & Hr' & Ha & Hm' & Hcl)].
      * left. split; [by constructor | done].
      * right. exists (r :: before), r', after.
        split_and!; [done | by constructor | done..].
    + destruct (run_over _ _ _ _ Hrun Hm1) as [-> Hrs].
      right. exists [], r, rs. by split_and!.
Qed.

Lemma quiet_not_ending (r : ChaosRun.returned F) :
  ChaosRun.quiet r = true → ChaosRun.ending r = false.
Proof. by destruct r as [[]|[]|[]]. Qed.

Lemma init_fresh : ChaosRun.fresh (ChaosManager.init (F:=F)).
Proof. by split. Qed.

Lemma one_end_position (before after : list (ChaosRun.returned F)) r0 j r' :
  Forall (λ r, ChaosRun.ending r = false) before →
  Forall (λ r, ChaosRun.quiet r = true) after →
  (before ++ r0 :: after) !! j = Some r' →
  ChaosRun.ending r' = true → j = length before.
Proof.
  intros Hb Ha Hj Hr'.
  destruct (Nat.lt_trichotomy j (length before)) as [Hlt|[->|Hgt]]; [|done|].
  - rewrite lookup_app_l in Hj by done.
    rewrite Forall_lookup in Hb. specialize (Hb _ _ Hj). congruence.
  - rewrite lookup_app_r in Hj by lia.
    destruct (j - length before) as [|k] eqn:Hk; [lia|]. simpl in Hj.
    rewrite Forall_lookup in Ha. specialize (Ha _ _ Hj).
    apply quiet_not_ending in Ha. congruence.
Qed.

(** X17.  Within a day the portal event ends at most once, by failure or by
    resolution; every later call returns its empty value, and in the end
    the event is inactive. *)
Theorem portal_ends_once (calls : list (ChaosRun.call F)) m outs i r :
  ChaosRun.run ChaosManager.init calls = Ok (m, outs) →
  outs !! i = Some r → ChaosRun.ending r = true →
  ChaosManager.is_active m = false
  ∧ (∀ j r', outs !! j = Some r' → ChaosRun.ending r' = true → j = i)
  ∧ (∀ j r', i < j → outs !! j = Some r' → ChaosRun.quiet r' = true).
Proof.
  intros Hrun Hi Hr.
  destruct (run_one_end _ _ _ _ Hrun (or_introl init_fresh))
    as [[Hrs _]|(before & r0 & after & -> & Hb & Hr0 & Ha & Hover & _)].
  { rewrite Forall_lookup in Hrs. specialize (Hrs _ _ Hi). congruence. }
  pose proof (one_end_position _ _ _ _ _ Hb Ha Hi Hr) as ->.
  split_and!.
  - destruct Hover as (e & He & _ & Hact & _).
    unfold ChaosManager.is_active. by rewrite He.
  - intros j r' Hj Hr'. by eapply one_end_position.
  - intros j r' Hlt Hj. rewrite lookup_app_r in Hj by lia.
    destruct (j - length before) as [|k] eqn:Hk; [lia|]. simpl in Hj.
    rewrite Forall_lookup in Ha. by eapply Ha.
Qed.

(** X18.  The number of pastries a resolution reports as saved is between 1
    and 10. *)
Theorem pastries_saved_range (calls : list (ChaosRun.call F)) m outs cl :
  ChaosRun.run ChaosManager.init calls = Ok (m, outs) →
  ChaosRun.resolution (Some cl) ∈ outs →
  (1 ≤ PortalEvent.saved cl ≤ 10)%Z.
Proof.
  intros Hrun Hin.
  destruct (run_one_end _ _ _ _ Hrun (or_introl init_fresh))
    as [[Hrs _]|(before & r & after & -> & Hb & Hr & Ha & _ & Hcl)].
  - rewrite Forall_forall in Hrs. by specialize (Hrs _ Hin).
  - rewrite elem_of_app, elem_of_cons in Hin. destruct Hin as [Hin|[<-|Hin]].
    + rewrite Forall_forall in Hb. by specialize (Hb _ Hin).
    + by apply Hcl.
    + rewrite Forall_forall in Ha. by specialize (Ha _ Hin).
Qed.

Lemma try_resolve_some m action data m' cl :
  ChaosManager.try_resolve m action data = Ok (m', Some cl) →
  ChaosManager.is_active m = true
  ∧ action = "serve_drink"
  ∧ data = PortalEvent.a_list ["beans"; "moonlight"; "sigil"]
  ∧ ChaosManager.is_active m' = false
  ∧ ∃ e', ChaosManager.current_event m' = Some e'
          ∧ PortalEvent.active e' = false
          ∧ PortalEvent.resolved e' = true.
Proof.
  unfold ChaosManager.try_resolve, ChaosManager.is_active.
  destruct (ChaosManager.current_event m) as [e|]; [|by intros [=]].
  destruct (PortalEvent.active e); simpl; [|by intros [=]].
  destruct (PortalEvent.can_resolve e action data) eqn:Hcan; [|by intros [=]].
  unfold PortalEvent.resolve.
  destruct (fdiv _ _) as [tenth|ex]; simpl; [|by intros [=]].
  destruct (int_of_float tenth) as [bonus|ex]; simpl; [|by intros [=]].
  intros [= <- <-]. simpl.
  unfold PortalEvent.can_resolve in Hcan. destruct data as [l|]; [|done].
  case_bool_decide as Haction; simpl in Hcan; [|done].
  apply bool_decide_eq_true in Hcan. subst.
  split_and!; [done..|]. by eexists.
Qed.

(** X19.  What closes the portal: on an active event, the action
    "serve_drink" with the list beans, moonlight, sigil in this order, and
    nothing else; the event is then resolved and inactive, and further
    updates report nothing. *)
Theorem try_resolve_closes m action data m' cl :
  ChaosManager.try_resolve m action data = Ok (m', Some cl) →
  ChaosManager.is_active m = true
  ∧ action = "serve_drink"
  ∧ data = PortalEvent.a_list ["beans"; "moonlight"; "sigil"]
  ∧ ChaosManager.is_active m' = false
  ∧ ∃ e', ChaosManager.current_event m' = Some e'
          ∧ PortalEvent.resolved e' = true
          ∧ ∀ dt, ChaosManager.update m' dt = (m', PortalEvent.no_report).
Proof.
  intros (Hactive & Haction & Hdata & Hactive' & e' & He' & Hoff & Hres)%try_resolve_some.
  split_and!; [done..|]. exists e'. split_and!; [done..|].
  intros dt. unfold ChaosManager.update. by rewrite He', Hoff.
Qed.

End Phases.

Lemma trunc_le (q : Q) (n : Z) : (q <= inject_Z n)%Q → (ExactArith.trunc q ≤ n)%Z.
Proof.
  unfold Qle, ExactArith.trunc. simpl. intros Hq.
  apply Z.quot_le_upper_bound; lia.
Qed.

Section Stability.
Implicit Types (m : ChaosManager.t Q) (e : PortalEvent.t Q).

Lemma stable_exact m :
  ChaosRun.stable m
  ↔ ∀ e, ChaosManager.current_event m = Some e →
         (0 <= PortalEvent.rift_stability e <= 100)%Q
         ∧ (0 <= PortalEvent.drain_rate e)%Q.
Proof.
  unfold ChaosRun.stable. split; intros Hm e He; specialize (Hm e He);
    rewrite !Q_fle in *; simpl in *; tauto.
Qed.

Lemma portal_update_stable e dt :
  (0 <= dt)%Q →
  (0 <= PortalEvent.rift_stability e <= 100)%Q ∧ (0 <= PortalEvent.drain_rate e)%Q →
  (0 <= PortalEvent.rift_stability (PortalEvent.update e dt).1 <= 100)%Q
  ∧ (0 <= PortalEvent.drain_rate (PortalEvent.update e dt).1)%Q.
Proof.
  intros Hdt [Hrift Hrate]. unfold PortalEvent.update.
  destruct (negb (PortalEvent.active e) || PortalEvent.resolved e); [done|].
  assert (0 <= PortalEvent.max0 (PortalEvent.rift_stability e
                                 - PortalEvent.drain_rate e * dt) <= 100)%Q as Hmax.
  { unfold PortalEvent.max0.
    assert (0 <= PortalEvent.drain_rate e * dt)%Q by (by apply Qmult_le_0_compat).
    destruct (flt _ _) eqn:Hcmp;
      [apply Q_flt in Hcmp | clear Hcmp]; simpl in *; lra. }
  simpl. destruct (Qle_bool 2 _); simpl;
    destruct (Qle_bool _ 0 || _); simpl; by split.
Qed.

Lemma step_stable m c m' r :
  ChaosRun.step m c = Ok (m', r) → ChaosRun.forward c → ChaosRun.stable m →
  ChaosRun.stable m'
  ∧ ∀ cl, r = ChaosRun.resolution (Some cl) → (0 ≤ PortalEvent.bonus cl ≤ 10)%Z.
Proof.
  intros Hstep Hc Hm. destruct c as [t|dt|action data]; simpl in Hstep.
  - unfold ChaosManager.check_trigger in Hstep.
    destruct (_ && _); injection Hstep as <- <-; (split; [|done]); [|done].
    apply stable_exact. intros e [= <-]. split; simpl; lra.
  - unfold ChaosManager.update in Hstep.
    destruct (ChaosManager.current_event m) as [e|] eqn:He;
      [|injection Hstep as <- <-; by split].
    destruct (PortalEvent.active e);
      [|injection Hstep as <- <-; by split].
    pose proof (portal_update_stable e dt (proj1 (Q_fle 0 dt) Hc)
                  (proj1 (stable_exact m) Hm e He)) as He'.
    destruct (PortalEvent.update e dt) as [e' rep].
    injection Hstep as <- <-. split; [|done].
    apply stable_exact. by intros e'' [= <-].
  - unfold ChaosManager.try_resolve in Hstep.
    destruct (ChaosManager.current_event m) as [e|] eqn:He;
      [|injection Hstep as <- <-; by split].
    destruct (negb (PortalEvent.active e));
      [injection Hstep as <- <-; by split|].
    destruct (PortalEvent.can_resolve e action data);
      [|injection Hstep as <- <-; by split].
    destruct (proj1 (stable_exact m) Hm e He) as [Hrift Hrate].
    unfold PortalEvent.resolve in Hstep. simpl in Hstep.
    injection Hstep as <- <-. split.
    + apply stable_exact. intros e' [= <-]. by split.
    + intros cl [= <-]. simpl. split.
      * apply trunc_nonneg. apply Qle_shift_div_l; lra.
      * apply trunc_le. change (inject_Z 10) with 10%Q.
        apply Qle_shift_div_r; lra.
Qed.

(** X20.  In exact arithmetic and with the clock running forwards, every call
    of a day returns, and the bonus of a resolution is between 0 and 10. *)
Theorem portal_bonus_range (calls : list (ChaosRun.call Q)) :
  Forall ChaosRun.forward calls →
  ∃ m outs,
    ChaosRun.run ChaosManager.init calls = Ok (m, outs)
    ∧ ∀ cl, ChaosRun.resolution (Some cl) ∈ outs → (0 ≤ PortalEvent.bonus cl ≤ 10)%Z.
Proof.
  intros Hcalls.
  cut (∀ m0, ChaosRun.stable m0 →
         ∃ m outs,
           ChaosRun.run m0 calls = Ok (m, outs)
           ∧ ∀ cl, ChaosRun.resolution (Some cl) ∈ outs →
                   (0 ≤ PortalEvent.bonus cl ≤ 10)%Z).
  { intros Hcut. apply Hcut. by intros e [=]. }
  induction Hcalls as [|c calls Hc Hcalls IH]; intros m0 Hm0.
  - exists m0, []. split; [done|]. by intros cl ?%elem_of_nil.
  - assert (∃ m1 r, ChaosRun.step m0 c = Ok (m1, r)) as (m1 & r & Hstep).
    { destruct c as [t|dt|action data]; simpl.
      - destruct (ChaosManager.check_trigger m0 t). by eexists _, _.
      - destruct (ChaosManager.update m0 dt). by eexists _, _.
      - unfold ChaosManager.try_resolve.
        destruct (ChaosManager.current_event m0) as [e|]; [|by eexists _, _].
        destruct (negb _); [by eexists _, _|].
        destruct (PortalEvent.can_resolve _ _ _); [|by eexists _, _].
        by eexists _, _. }
    destruct (step_stable _ _ _ _ Hstep Hc Hm0) as [Hm1 Hr].
    destruct (IH m1 Hm1) as (m & outs & Hrun & Houts).
    exists m, (r :: outs). split.
    + rewrite run_cons, Hstep. simpl. by rewrite Hrun.
    + intros cl [<-|Hin]%elem_of_cons; [by apply Hr | by apply Houts].
Qed.

End Stability.




Section Dialogue.
Implicit Types (m : DialogueManager.t) (sc : DialogueScene.t).
Local Opaque Py.choice.

Lemma find_scene_Some l k sc :
  DialogueManager.find_scene l k = Some sc → sc ∈ l ∧ DialogueScene.id sc = k.
Proof.
  induction l as [|x l IH]; simpl; [done|].
  case_bool_decide as Hx.
  - intros [= <-]. split; [by left | done].
  - intros Hrec. destruct (IH Hrec). split; [by right | done].
Qed.

Lemma find_scene_None l k sc :
  DialogueManager.find_scene l k = None → sc ∈ l → DialogueScene.id sc ≠ k.
Proof.
  induction l as [|x l IH]; simpl; [by intros _ ?%elem_of_nil|].
  case_bool_decide as Hx; [done|].
  intros Hrec [->|Hin]%elem_of_cons; [done | by apply IH].
Qed.

Lemma find_in_scenes_Some items k sc :
  DialogueManager.find_in_scenes items k = Some sc →
  DialogueScene.id sc = k ∧ ∃ key l, (key, l) ∈ items ∧ sc ∈ l.
Proof.
  induction items as [|[key l] items IH]; simpl; [done|].
  destruct (DialogueManager.find_scene l k) as [sc'|] eqn:Hl.
  - intros [= <-]. destruct (find_scene_Some _ _ _ Hl).
    split; [done|]. exists key, l. split; [by left | done].
  - intros Hrec. destruct (IH Hrec) as (? & key' & l' & ? & ?).
    split; [done|]. exists key', l'. split; [by right | done].
Qed.

Lemma find_in_scenes_None items k key l sc :
  DialogueManager.find_in_scenes items k = None →
  (key, l) ∈ items → sc ∈ l → DialogueScene.id sc ≠ k.
Proof.
  induction items as [|[key' l'] items IH]; simpl; [by intros _ ?%elem_of_nil|].
  destruct (DialogueManager.find_scene l' k) as [sc'|] eqn:Hl; [done|].
  intros Hrec [[= -> ->]|Hin]%elem_of_cons Hsc.
  - by eapply find_scene_None.
  - by apply IH.
Qed.

(** X21.  Starting a scene by its id: a scene with that id is started at
    its first line, whatever the context argument; when no scene has the id
    the call returns false and the manager is left as it is, a scene in
    progress included. *)
Theorem start_scene_by_id m (scene_id : string) context rnd :
  scene_id ≠ "" →
  ∃ m' started,
    DialogueManager.start_scene m (Some scene_id) context rnd = Ok (m', started)
    ∧ (started = true →
       ∃ sc, DialogueManager.current_scene m' = Some sc
             ∧ DialogueScene.id sc = scene_id
             ∧ (∃ key l, (key, l) ∈ DialogueManager.scenes m ∧ sc ∈ l)
             ∧ DialogueManager.current_line_index m' = 0%Z
             ∧ DialogueManager.scenes m' = DialogueManager.scenes m)
    ∧ (started = false →
       m' = m
       ∧ ∀ key l sc, (key, l) ∈ DialogueManager.scenes m → sc ∈ l →
                     DialogueScene.id sc ≠ scene_id).
Proof.
  intros Hid. unfold DialogueManager.start_scene.
  assert (DialogueManager.given (Some scene_id) = Some scene_id) as ->.
  { simpl. by destruct scene_id. }
  destruct (DialogueManager.find_in_scenes _ _) as [sc|] eqn:Hfind.
  - eexists _, _. split; [done|]. split; [|done]. intros _.
    destruct (find_in_scenes_Some _ _ _ Hfind) as [? ?]. by exists sc.
  - eexists _, _. split; [done|]. split; [done|]. intros _. split; [done|].
    intros key l sc. by apply find_in_scenes_None.
Qed.

Lemma scenes_of_Some items k l :
  DialogueManager.scenes_of items k = Some l → (k, l) ∈ items.
Proof.
  induction items as [|[key l'] items IH]; simpl; [done|].
  case_bool_decide as Hk.
  - intros [= <-]. subst. by left.
  - intros Hrec. right. by apply IH.
Qed.

(** X22.  Starting a scene by its context: a scene of that context is
    started at its first line; for a context that is unknown or has no
    scene the call returns false and the scene in progress, if any, is
    dropped. *)
Theorem start_scene_by_context m (context : string) rnd :
  context ≠ "" →
  ∃ m' started,
    DialogueManager.start_scene m None (Some context) rnd = Ok (m', started)
    ∧ DialogueManager.current_line_index m' = 0%Z
    ∧ DialogueManager.scenes m' = DialogueManager.scenes m
    ∧ (started = true →
       ∃ sc l, DialogueManager.current_scene m' = Some sc
               ∧ (context, l) ∈ DialogueManager.scenes m ∧ sc ∈ l)
    ∧ (started = false →
       DialogueManager.current_scene m' = None
       ∧ (DialogueManager.scenes_of (DialogueManager.scenes m) context = None
          ∨ DialogueManager.scenes_of (DialogueManager.scenes m) context = Some [])).
Proof.
  intros Hctx. unfold DialogueManager.start_scene.
  assert (DialogueManager.given (Some context) = Some context) as ->.
  { simpl. by destruct context. }
  simpl.
  unfold DialogueManager.get_random_scene.
  destruct (DialogueManager.scenes_of _ _) as [[|sc l]|] eqn:Hof; simpl.
  - eexists _, _. split; [done|]. split_and!; [done..| |]; [done|].
    intros _. split; [done | by right].
  - destruct (choice_returns (sc :: l) rnd) as [x Hx]; [done|].
    rewrite Hx. simpl. eexists _, _. split; [done|].
    split_and!; [done..| |done]. intros _. exists x, (sc :: l).
    split_and!; [done | by apply scenes_of_Some | by eapply choice_elem].
  - eexists _, _. split; [done|]. split_and!; [done..| |]; [done|].
    intros _. split; [done | by left].
Qed.

Lemma shown_from sc (k : nat) items fuel :
  k ≤ length (DialogueScene.lines sc) →
  length (DialogueScene.lines sc) - k < fuel →
  DialogueManager.shown fuel (DialogueManager.mk items (Some sc) (Z.of_nat k))
  = Ok (drop k (DialogueScene.lines sc)).
Proof.
  revert k. induction fuel as [|fuel IH]; intros k Hk Hfuel; [lia|].
  simpl. unfold DialogueManager.get_current_line. simpl.
  destruct (Z.leb_spec (Z.of_nat (length (DialogueScene.lines sc))) (Z.of_nat k))
    as [Hge|Hlt]; simpl.
  - by rewrite drop_ge by lia.
  - rewrite index_nat.
    destruct (lookup_lt_is_Some_2 (DialogueScene.lines sc) k) as [line Hline]; [lia|].
    rewrite Hline. simpl. unfold DialogueManager.advance. simpl.
    replace (Z.of_nat k + 1)%Z with (Z.of_nat (S k)) by lia.
    rewrite IH by lia. simpl. by rewrite (drop_S _ _ _ Hline).
Qed.

(** X23.  A reader who looks at the current line and advances until there is
    no line sees the lines of the scene, each once and in order. *)
Theorem scene_playback m sc fuel :
  DialogueManager.current_scene m = Some sc →
  DialogueManager.current_line_index m = 0%Z →
  length (DialogueScene.lines sc) < fuel →
  DialogueManager.shown fuel m = Ok (DialogueScene.lines sc).
Proof.
  intros Hsc Hidx Hfuel. destruct m as [items cur idx]. simpl in *. subst.
  apply (shown_from sc 0); lia.
Qed.

Lemma step_index_inv m c :
  DialogueRun.index_inv m → ∃ m', DialogueRun.step m c = Ok m' ∧ DialogueRun.index_inv m'.
Proof.
  unfold DialogueRun.index_inv. intros Hm. destruct c as [scene_id context rnd| |]; simpl.
  - unfold DialogueManager.start_scene.
    destruct (DialogueManager.given scene_id) as [k|].
    + destruct (DialogueManager.find_in_scenes _ _); simpl; by eexists.
    + destruct (DialogueManager.given context) as [ctx|]; simpl; [|by eexists].
      unfold DialogueManager.get_random_scene.
      destruct (DialogueManager.scenes_of _ _) as [[|sc l]|]; simpl; [by eexists| |by eexists].
      destruct (choice_returns (sc :: l) rnd) as [x Hx]; [done|].
      rewrite Hx. simpl. by eexists.
  - unfold DialogueManager.advance.
    destruct (DialogueManager.current_scene m); simpl; eexists; (split; [done|]);
      simpl; lia.
  - by eexists.
Qed.

Lemma run_index_inv m calls :
  DialogueRun.index_inv m → ∃ m', DialogueRun.run m calls = Ok m' ∧ DialogueRun.index_inv m'.
Proof.
  revert m. induction calls as [|c calls IH]; intros m Hm.
  - by exists m.
  - destruct (step_index_inv m c Hm) as (m1 & Hstep & Hm1).
    destruct (IH m1 Hm1) as (m' & Hrun & Hm').
    exists m'. simpl. rewrite Hstep. by split.
Qed.

(** X24.  Whatever scenes are started, advanced and ended, every call
    returns, [get_current_line] never fails, and it returns no line exactly
    when [is_complete] holds. *)
Theorem current_line_complete (calls : list DialogueRun.call) :
  ∃ m line,
    DialogueRun.run DialogueManager.init calls = Ok m
    ∧ DialogueManager.get_current_line m = Ok line
    ∧ (DialogueManager.is_complete m = true ↔ line = None).
Proof.
  destruct (run_index_inv DialogueManager.init calls) as (m & Hrun & Hm).
  { unfold DialogueRun.index_inv. simpl. lia. }
  exists m. unfold DialogueManager.get_current_line, DialogueManager.is_complete.
  unfold DialogueRun.index_inv in Hm.
  destruct (DialogueManager.current_scene m) as [sc|]; [|by exists None].
  destruct (Z.leb_spec (Z.of_nat (length (DialogueScene.lines sc)))
              (DialogueManager.current_line_index m)) as [Hge|Hlt].
  - by exists None.
  - rewrite index_slot by done.
    destruct (lookup_lt_is_Some_2 (DialogueScene.lines sc)
                (Z.to_nat (DialogueManager.current_line_index m))) as [line Hline]; [lia|].
    rewrite Hline. exists (Some line). by split_and!.
Qed.

End Dialogue.

Section Host.
Context {F : Type} `{PyFloat F}.
Local Open Scope pyfloat_scope.
Implicit Types (st : ServiceState.t F) (s : ServiceController.t F)
  (q : CustomerQueue.t F) (c : Customer.t F).

Lemma occupied_insert (l : list (option (Customer.t F))) (i : nat) (x y : option (Customer.t F)) :
  l !! i = Some x →
  length (omap id (<[i := y]> l)) + length (option_list x)
  = length (omap id l) + length (option_list y).
Proof.
  revert i. induction l as [|z l IH]; intros i; [done|].
  destruct i as [|i]; csimpl.
  - intros [= ->]. destruct x, y; csimpl; lia.
  - intros Hi. specialize (IH i Hi). destruct z; csimpl in *; lia.
Qed.

Lemma add_customer_from_full idx q c q' :
  CustomerQueue.add_customer_from idx q c = Ok (q', false) → q' = q.
Proof.
  induction idx as [|i idx IH]; simpl; [by intros [= <-]|].
  destruct (Py.index _ _) as [[c'|]|ex]; simpl; [done | by intros [=] | by intros [=]].
Qed.

Lemma add_customer_occupied q c q' added :
  CustomerQueue.add_customer q c = Ok (q', added) →
  CustomerQueue.occupied q'
  = CustomerQueue.occupied q + (if added then 1 else 0).
Proof.
  destruct added.
  - intros (i & _ & Hnone & _ & ->)%add_customer_from_found.
    unfold CustomerQueue.occupied, CustomerQueue.get_active_customers. simpl.
    pose proof (occupied_insert _ i None (Some c) Hnone) as Hins. simpl in Hins. lia.
  - intros ->%add_customer_from_full. lia.
Qed.

Lemma remove_customer_occupied q (i : Z) c q' removed :
  (0 ≤ i < Z.of_nat (CustomerQueue.max_size q))%Z →
  Py.index (CustomerQueue.customers q) i = Ok (Some c) →
  CustomerQueue.remove_customer q i = Ok (q', removed) →
  CustomerQueue.occupied q' + 1 = CustomerQueue.occupied q
  ∧ CustomerQueue.max_size q' = CustomerQueue.max_size q
  ∧ length (CustomerQueue.customers q') = length (CustomerQueue.customers q).
Proof.
  intros Hi Hc. unfold CustomerQueue.remove_customer.
  destruct (Z.leb_spec 0 i); [|lia].
  destruct (Z.ltb_spec i (Z.of_nat (CustomerQueue.max_size q))); [|lia].
  simpl. rewrite Hc. simpl. intros [= <- <-].
  rewrite index_slot in Hc by lia.
  destruct (CustomerQueue.customers q !! Z.to_nat i) as [x|] eqn:Hx; [|done].
  injection Hc as ->.
  unfold CustomerQueue.occupied, CustomerQueue.get_active_customers. simpl.
  pose proof (occupied_insert _ (Z.to_nat i) (Some c) None Hx) as Hins. simpl in Hins.
  rewrite length_insert. split_and!; [lia | done..].
Qed.

Lemma ring_bell_queue s :
  CustomerQueue.occupied (ServiceController.customer_queue (ServiceController.ring_bell s))
  = CustomerQueue.occupied (ServiceController.customer_queue s)
  ∧ length (CustomerQueue.customers
              (ServiceController.customer_queue (ServiceController.ring_bell s)))
    = length (CustomerQueue.customers (ServiceController.customer_queue s)).
Proof.
  unfold CustomerQueue.occupied, CustomerQueue.get_active_customers. simpl.
  rewrite length_fmap. split; [|done].
  induction (CustomerQueue.customers (ServiceController.customer_queue s))
    as [|[c|] l IH]; csimpl; [done | | done].
  destruct (Customer.is_invisible_quirk c); csimpl; lia.
Qed.

Lemma station_update_selected (b : BrewingStation.t F) dt modifiers :
  BrewingStation.selected_customer_index (BrewingStation.update b dt modifiers).1
  = BrewingStation.selected_customer_index b.
Proof.
  unfold BrewingStation.update. destruct (_ && _); [|done].
  simpl. by destruct (_ ≼ _).
Qed.

Lemma add_ingredient_selected (b : BrewingStation.t F) x :
  BrewingStation.selected_customer_index (BrewingStation.add_ingredient b x).1
  = BrewingStation.selected_customer_index b.
Proof. unfold BrewingStation.add_ingredient. by destruct (_ && _). Qed.

Lemma controller_update_inv st s' ev dt modifiers rnd :
  ServiceController.update (ServiceState.service_controller st) dt modifiers rnd
  = Ok (s', ev) →
  HostRun.inv st →
  HostRun.inv (ServiceState.set_controller st s').
Proof.
  intros Hupdate (Hwf & Hsize & Hsel & Hpos & Hcount & Hum).
  destruct (ServiceController.active (ServiceState.service_controller st)) eqn:Hact.
  - destruct (update_unfold _ _ _ _ _ _ Hupdate Hact)
      as (q1 & Hq1 & Hage & _ & _ & _ & _ & Hserved & _ & _ & _ & _ & Hstation).
    assert (CustomerQueue.well_formed q1
            ∧ CustomerQueue.max_size q1 = 5
            ∧ (ServiceController.customers_served (ServiceState.service_controller st)
               + Z.of_nat (CustomerQueue.occupied q1) ≤ 8)%Z) as (Hwf1 & Hsize1 & Hcount1).
    { destruct Hq1 as [->|(Hlt%Z.ltb_lt & c & added & Hadd)]; [done|].
      destruct (add_customer_returns _ c Hwf) as (q' & added' & Hadd' & Hwf' & Hsize' & _).
      rewrite Hadd in Hadd'. injection Hadd' as <- <-.
      pose proof (add_customer_occupied _ _ _ _ Hadd) as Hocc.
      split_and!; [done | congruence |]. destruct added; lia. }
    destruct (queue_update_returns q1 dt modifiers Hwf1)
      as (q' & gone & Hage' & Hwf' & Hsize').
    rewrite Hage in Hage'. injection Hage' as <- Hgone.
    assert (CustomerQueue.occupied (ServiceController.customer_queue s')
            ≤ CustomerQueue.occupied q1) as Hocc.
    { unfold CustomerQueue.update in Hage. destruct q1 as [l n].
      unfold CustomerQueue.well_formed in Hwf1. simpl in *. subst n.
      pose proof (update_from_pointwise l [] [] (length l) dt modifiers []) as Hpw.
      simpl in Hpw. rewrite !app_nil_r in Hpw. rewrite Hpw in Hage.
      injection Hage as Hq' _. rewrite <- Hq'.
      pose proof (aged_leaver_count dt modifiers l) as Hsum.
      unfold CustomerQueue.occupied, CustomerQueue.get_active_customers. simpl. lia. }
    unfold HostRun.inv. simpl. rewrite Hserved, Hstation, station_update_selected.
    split_and!; [done | congruence | done | done | lia | done].
  - rewrite update_inactive in Hupdate by done. injection Hupdate as <- <-.
    by destruct st.
Qed.

Lemma host_step_inv st call st' :
  HostRun.step st call = Ok st' → HostRun.card call → HostRun.inv st → HostRun.inv st'.
Proof.
  intros Hstep Hcard Hinv.
  destruct call as [day rnd|dt rnd|index|x| | |]; simpl in Hstep.
  - (* on_enter *)
    pose proof Hinv as (Hwf & Hsize & Hsel & Hpos & Hcount & Hum).
    unfold ServiceState.on_enter in Hstep.
    destruct (ServiceController.start_day _ day rnd) as [s|ex] eqn:Hstart;
      simpl in Hstep; [|done].
    injection Hstep as <-.
    destruct (start_day_fields _ _ _ _ Hstart)
      as (_ & _ & _ & _ & Hserved & _ & _ & _ & Hstation & added & Hq).
    unfold HostRun.inv. simpl. rewrite Hserved, Hstation, Hsize in *.
    assert (CustomerQueue.well_formed (ServiceController.customer_queue s)
            ∧ CustomerQueue.max_size (ServiceController.customer_queue s) = 5
            ∧ CustomerQueue.occupied (ServiceController.customer_queue s) ≤ 1)
      as (Hwf' & Hsize' & Hocc').
    { destruct Hq as [[-> ->]|(c & Hadd)].
      - split_and!; [apply init_well_formed | done |].
        unfold CustomerQueue.occupied. simpl. lia.
      - destruct (add_customer_returns (CustomerQueue.init 5) c (init_well_formed 5))
          as (q' & added' & Hadd' & Hwf' & Hsize' & _).
        rewrite Hadd in Hadd'. injection Hadd' as <- <-.
        pose proof (add_customer_occupied _ _ _ _ Hadd) as Hocc.
        split_and!; [done | done |]. rewrite Hocc.
        unfold CustomerQueue.occupied at 1. simpl. destruct added; lia. }
    split_and!; [done | done | done | lia | lia | done].
  - (* update *)
    unfold ServiceState.update in Hstep.
    destruct (ServiceController.update _ dt _ rnd) as [[s ev]|ex] eqn:Hupdate;
      simpl in Hstep; [|done].
    pose proof (controller_update_inv _ _ _ _ _ _ Hupdate Hinv) as Hinv'.
    destruct (ServiceController.day_ended ev).
    + destruct (int_of_float _) as [bonus|ex]; simpl in Hstep; [|done].
      by injection Hstep as <-.
    + by injection Hstep as <-.
  - (* select_customer *)
    unfold ServiceState.select_customer in Hstep.
    destruct (Py.index _ index) as [[c|]|ex]; simpl in Hstep; [| |done].
    + pose proof Hinv as (Hwf & Hsize & Hsel & Hpos & Hcount & Hum).
      injection Hstep as <-. unfold HostRun.inv. simpl.
      split_and!; [done | done | | done..]. by intros i [= <-].
    + by injection Hstep as <-.
  - (* add_ingredient *)
    injection Hstep as <-. unfold ServiceState.add_ingredient.
    destruct (BrewingStation.selected_customer_index _) as [i|] eqn:Hi; [|done].
    pose proof Hinv as (Hwf & Hsize & Hsel & Hpos & Hcount & Hum).
    unfold HostRun.inv. simpl. rewrite add_ingredient_selected.
    by split_and!.
  - (* serve_drink *)
    unfold ServiceState.serve_drink in Hstep.
    destruct (BrewingStation.current_recipe _) as [|x recipe];
      [simpl in Hstep; by injection Hstep as <-|].
    destruct (BrewingStation.selected_customer_index _) as [i|] eqn:Hi;
      [|by injection Hstep as <-].
    destruct (ServiceController.serve_drink _ _) as [[s served]|ex] eqn:Hserve;
      simpl in Hstep; [|done].
    match type of Hstep with
    | mbind _ (mbind _ ?m) = _ => destruct m as [[cm res]|ex]; simpl in Hstep; [|done]
    end.
    injection Hstep as <-.
    pose proof Hinv as (Hwf & Hsize & Hsel & Hpos & Hcount & Hum).
    destruct (serve_drink_fields _ _ _ _ Hserve)
      as (_ & Hstation & [[-> ->]|(j & c & removed & Hj & Hc & Hrem & Hserved & _)]).
    + unfold HostRun.inv. simpl. by split_and!.
    + unfold ServiceState.station in Hi. rewrite Hi in Hj. injection Hj as <-.
      specialize (Hsel i Hi).
      assert (0 ≤ i < Z.of_nat (CustomerQueue.max_size
                (ServiceController.customer_queue (ServiceState.service_controller st))))%Z
        as Hrange by (rewrite Hsize; lia).
      destruct (remove_customer_occupied _ i c _ _ Hrange Hc Hrem)
        as (Hocc & Hsize' & Hlen').
      unfold HostRun.inv. simpl. rewrite Hserved.
      unfold CustomerQueue.well_formed in *.
      split_and!; [congruence | congruence | done | lia | lia | done].
  - (* cancel_order *)
    pose proof Hinv as (Hwf & Hsize & Hsel & Hpos & Hcount & Hum).
    injection Hstep as <-. unfold HostRun.inv. simpl. by split_and!.
  - (* ring_bell *)
    pose proof Hinv as (Hwf & Hsize & Hsel & Hpos & Hcount & Hum).
    injection Hstep as <-. unfold HostRun.inv.
    destruct (ring_bell_queue (ServiceState.service_controller st)) as [Hocc Hlen].
    unfold ServiceState.ring_bell, ServiceState.set_controller.
    cbn [ServiceState.service_controller ServiceState.upgrade_manager].
    rewrite Hocc. unfold CustomerQueue.well_formed. rewrite Hlen.
    split_and!; done.
Qed.

Lemma host_run_inv st calls st' :
  HostRun.run st calls = Ok st' → Forall HostRun.card calls →
  HostRun.inv st → HostRun.inv st'.
Proof.
  revert st. induction calls as [|call calls IH]; intros st; simpl.
  - by intros [= <-].
  - destruct (HostRun.step st call) as [st1|ex] eqn:Hstep; simpl; [|intros [=]].
    intros Hrun [Hcall Hcalls]%Forall_cons Hinv.
    eapply IH; [exact Hrun | done |]. by eapply host_step_inv.
Qed.

Lemma host_init_inv book pool : HostRun.inv (ServiceState.init (F:=F) book pool).
Proof.
  unfold HostRun.inv. simpl.
  split_and!; [apply init_well_formed | done | done | lia | | done].
  unfold CustomerQueue.occupied. simpl. lia.
Qed.

(** X25.  Under the service screen, whose cards select the slots 0 to 4, the
    station is only ever bound to a slot of the queue, which keeps its five
    slots. *)
Theorem host_selection_bound book pool (calls : list (HostRun.call F)) st i :
  HostRun.run (ServiceState.init book pool) calls = Ok st →
  Forall HostRun.card calls →
  BrewingStation.selected_customer_index (ServiceState.station st) = Some i →
  ServiceRun.bound_to_slot (ServiceState.service_controller st) i
  ∧ CustomerQueue.max_size
      (ServiceController.customer_queue (ServiceState.service_controller st)) = 5.
Proof.
  intros Hrun Hcalls Hi.
  destruct (host_run_inv _ _ _ Hrun Hcalls (host_init_inv book pool))
    as (Hwf & Hsize & Hsel & _).
  split; [|done]. split; [done|]. split; [|done].
  rewrite Hsize. by apply Hsel.
Qed.

(** X26.  Under the service screen the customers served in a day and those
    waiting in the queue are never more than 8 together; so no more than 8
    customers are served in a day. *)
Theorem host_served_bound book pool (calls : list (HostRun.call F)) st :
  HostRun.run (ServiceState.init book pool) calls = Ok st →
  Forall HostRun.card calls →
  (0 ≤ ServiceController.customers_served (ServiceState.service_controller st))%Z
  ∧ (ServiceController.customers_served (ServiceState.service_controller st)
     + Z.of_nat (length (ServiceRun.queued (ServiceState.service_controller st))) ≤ 8)%Z.
Proof.
  intros Hrun Hcalls.
  by destruct (host_run_inv _ _ _ Hrun Hcalls (host_init_inv book pool))
    as (_ & _ & _ & ? & ? & _).
Qed.

(** X27.  The service screen never purchases on the upgrade manager it owns:
    the modifiers it passes to the simulation are always the base
    modifiers, each 1.0. *)
Theorem host_base_modifiers book pool (calls : list (HostRun.call F)) st :
  HostRun.run (ServiceState.init book pool) calls = Ok st →
  UpgradeManager.get_modifiers (ServiceState.upgrade_manager st)
  = UpgradeManager.base_modifiers.
Proof.
  cut (∀ st0 : ServiceState.t F,
         HostRun.run st0 calls = Ok st →
         ServiceState.upgrade_manager st = ServiceState.upgrade_manager st0).
  { intros Hcut Hrun. by rewrite (Hcut _ Hrun). }
  induction calls as [|call calls IH]; intros st0; simpl.
  - by intros [= <-].
  - destruct (HostRun.step st0 call) as [st1|ex] eqn:Hstep; simpl; [|intros [=]].
    intros Hrun. rewrite (IH _ Hrun). clear IH Hrun.
    destruct call as [day rnd|dt rnd|index|x| | |]; simpl in Hstep.
    + unfold ServiceState.on_enter in Hstep.
      destruct (ServiceController.start_day _ _ _); simpl in Hstep; [|done].
      by injection Hstep as <-.
    + unfold ServiceState.update in Hstep.
      destruct (ServiceController.update _ _ _ _) as [[s ev]|ex]; simpl in Hstep; [|done].
      destruct (ServiceController.day_ended ev).
      * destruct (int_of_float _); simpl in Hstep; [|done]. by injection Hstep as <-.
      * by injection Hstep as <-.
    + unfold ServiceState.select_customer in Hstep.
      destruct (Py.index _ _) as [[c|]|ex]; simpl in Hstep; [| |done];
        by injection Hstep as <-.
    + injection Hstep as <-. unfold ServiceState.add_ingredient.
      by destruct (BrewingStation.selected_customer_index _).
    + unfold ServiceState.serve_drink in Hstep.
      destruct (BrewingStation.current_recipe _) as [|x recipe];
        [simpl in Hstep; by injection Hstep as <-|].
      destruct (BrewingStation.selected_customer_index _) as [i|];
        [|by injection Hstep as <-].
      destruct (ServiceController.serve_drink _ _) as [[s served]|ex];
        simpl in Hstep; [|done].
      match type of Hstep with
      | mbind _ (mbind _ ?m) = _ => destruct m as [[cm res]|ex]; simpl in Hstep; [|done]
      end.
      by injection Hstep as <-.
    + by injection Hstep as <-.
    + by injection Hstep as <-.
Qed.

End Host.

Section HostServe.
Context {F : Type} `{PyFloat F}.
Local Open Scope pyfloat_scope.
Implicit Types (st : ServiceState.t F) (s : ServiceController.t F).

Lemma host_serve_unfold st st' r resolution :
  ServiceState.serve_drink st = Ok (st', Some r, resolution) →
  ∃ s1 cm i,
    BrewingStation.selected_customer_index (ServiceState.station st) = Some i
    ∧ BrewingStation.current_recipe (ServiceState.station st) ≠ []
    ∧ ServiceController.serve_drink (ServiceState.service_controller st)
        (BrewingStation.current_recipe (ServiceState.station st)) = Ok (s1, r)
    ∧ ((ChaosManager.is_active (ServiceState.chaos_manager st) = true
        ∧ ChaosManager.try_resolve (ServiceState.chaos_manager st) "serve_drink"
            (PortalEvent.a_list (BrewingStation.current_recipe (ServiceState.station st)))
          = Ok (cm, resolution))
       ∨ (ChaosManager.is_active (ServiceState.chaos_manager st) = false
          ∧ cm = ServiceState.chaos_manager st ∧ resolution = None))
    ∧ st' = ServiceState.mk
              (ServiceController.set_station s1
                 (BrewingStation.complete_order (ServiceController.brewing_station s1)).1)
              cm (ServiceState.upgrade_manager st).
Proof.
  unfold ServiceState.serve_drink.
  destruct (BrewingStation.current_recipe (ServiceState.station st)) as [|x recipe] eqn:Hrec;
    [by intros [=]|].
  destruct (BrewingStation.selected_customer_index (ServiceState.station st)) as [i|] eqn:Hi;
    [|by intros [=]].
  destruct (ServiceController.serve_drink _ _) as [[s1 served]|ex] eqn:Hserve;
    simpl; [|by intros [=]].
  destruct (ChaosManager.is_active (ServiceState.chaos_manager st)) eqn:Hact.
  - destruct (ChaosManager.try_resolve _ _ _) as [[cm res]|ex] eqn:Hres; simpl;
      [|by intros [=]].
    intros [= <- <- <-]. exists s1, cm, i. split_and!; [done..| |done]. by left.
  - simpl. intros [= <- <- <-]. eexists s1, _, i. split_and!; [done..| |done].
    by right.
Qed.


(** X29.  Closing the portal costs a customer: the espresso that banishes
    the portal is at the same time served to the selected customer, who
    ordered something else, is counted as served, leaves no tip and is
    gone. *)
Theorem banishing_serves_customer st st' r cl i c :
  ServiceState.serve_drink st = Ok (st', Some r, Some cl) →
  ServiceRun.bound_to_slot (ServiceState.service_controller st) i →
  ServiceRun.slot (ServiceState.service_controller st) i = Some (Some c) →
  (∀ recipe,
     RecipeBook.find (ServiceController.recipe_book (ServiceState.service_controller st))
       (Customer.desired_recipe c) = Some recipe →
     Recipe.steps recipe ≠ ["beans"; "moonlight"; "sigil"]) →
  ServiceController.truthy (ServiceController.success r) = false
  ∧ ServiceController.tip r = 0%Z
  ∧ ServiceController.customers_served (ServiceState.service_controller st')
    = (ServiceController.customers_served (ServiceState.service_controller st) + 1)%Z
  ∧ ServiceController.total_tips (ServiceState.service_controller st')
    = ServiceController.total_tips (ServiceState.service_controller st)
  ∧ ServiceRun.slot (ServiceState.service_controller st') i = Some None.
Proof.
  intros Hserve Hbound Hslot Hother.
  destruct (host_serve_unfold _ _ _ _ Hserve)
    as (s1 & cm & j & Hj & Hrec & Hs1 & Hcm & ->).
  destruct Hcm as [[Hact Hres]|(_ & _ & [=])].
  destruct (try_resolve_some _ _ _ _ _ Hres) as (_ & _ & [= Hdata] & _).
  rewrite Hdata in Hs1.
  set (s := ServiceState.service_controller st) in *.
  assert (ServiceController.truthy
            (flip Recipe.matches ["beans"; "moonlight"; "sigil"]
               <$> RecipeBook.find (ServiceController.recipe_book s)
                     (Customer.desired_recipe c)) = false) as Hwrong.
  { destruct (RecipeBook.find _ _) as [recipe|] eqn:Hfind; [|done].
    simpl. unfold Recipe.matches. apply bool_decide_eq_false_2.
    intros Heq. by apply (Hother recipe). }
  destruct (bound_index s i Hbound) as (x & Hx & Hindex).
  rewrite Hslot in Hx. injection Hx as <-.
  destruct (fdiv (Customer.patience c) (Customer.max_patience c)) as [ratio|ex] eqn:Hratio.
  - destruct (serve_drink_served s ["beans"; "moonlight"; "sigil"] i c ratio 0
                Hbound Hslot Hratio)
      as (s2 & r2 & Hs2 & Hsuccess & Htip & Hq & _ & Hserved & Htips & _).
    { rewrite Hwrong. apply calculate_tip_wrong. }
    rewrite Hs1 in Hs2. injection Hs2 as <- <-. simpl.
    rewrite Hsuccess, Htip, Hserved, Htips.
    split_and!; [done | done | done | lia |].
    unfold ServiceRun.slot. simpl. rewrite Hq.
    apply list_lookup_insert_eq. by eapply lookup_lt_Some.
  - exfalso. revert Hs1. unfold ServiceController.serve_drink.
    destruct Hbound as (-> & _). rewrite Hindex. simpl. rewrite Hratio. simpl.
    intros [=].
Qed.

Lemma update_day_ended s dt modifiers rnd s' ev :
  ServiceController.update s dt modifiers rnd = Ok (s', ev) →
  ServiceController.day_ended ev = true →
  ServiceController.time_remaining s' = lit 0
  ∧ ServiceController.active s' = false
  ∧ ServiceController.customers_served s' = ServiceController.customers_served s
  ∧ ServiceController.total_tips s' = ServiceController.total_tips s.
Proof.
  intros Hupdate Hended.
  destruct (ServiceController.active s) eqn:Hact.
  - destruct (update_unfold _ _ _ _ _ _ Hupdate Hact)
      as (q1 & _ & _ & Hend & Hact' & Htime & _ & Hserved & Htips & _).
    rewrite Hended in Hend. rewrite <- Hend in Hact', Htime. by split_and!.
  - rewrite update_inactive in Hupdate by done. injection Hupdate as <- <-. done.
Qed.

(** X30.  The time bonus of a day is always 0, in any arithmetic in which
    [int(0.0)] is 0: the screen reads the time left after [update] has set
    it to 0.  So the earnings of a day are its tips. *)
Theorem day_end_no_time_bonus st dt rnd st' data :
  int_of_float (lit 0 : F) = Ok 0%Z →
  ServiceState.update st dt rnd = Ok (st', Some data) →
  ServiceState.time_bonus data = 0%Z
  ∧ ServiceState.total_earnings data
    = ServiceController.total_tips (ServiceState.service_controller st)
  ∧ ServiceState.customers_served data
    = ServiceController.customers_served (ServiceState.service_controller st)
  ∧ ServiceController.active (ServiceState.service_controller st') = false.
Proof.
  intros Hzero. unfold ServiceState.update.
  destruct (ServiceController.update _ _ _ _) as [[s ev]|ex] eqn:Hupdate; simpl;
    [|by intros [=]].
  destruct (ServiceController.day_ended ev) eqn:Hended; [|by intros [=]].
  destruct (update_day_ended _ _ _ _ _ _ Hupdate Hended)
    as (Htime & Hact & Hserved & Htips).
  rewrite Htime, Hzero. simpl. intros [= <- <-].
  unfold ServiceState.total_earnings. simpl. rewrite Hserved, Htips.
  split_and!; [done | lia | done | done].
Qed.

End HostServe.

(** ** The further properties at work *)

Lemma add_customer_first_empty_witness :
  CustomerQueue.add_customer (F:=Q) Counter.two_waiting Cafe.zorp
  = Ok (CustomerQueue.store Counter.two_waiting 1 (Some Cafe.zorp), true).
Proof.
  apply (add_customer_first_empty Counter.two_waiting Cafe.zorp 1).
  - simpl. lia.
  - split; [reflexivity|]. intros [|j] Hj; [by eexists | lia].
Defined.

Lemma add_remove_round_trip_witness :
  ∃ i, (0 ≤ i < 5)%Z
       ∧ CustomerQueue.remove_customer (F:=Q)
           (CustomerQueue.store Counter.two_waiting 1 (Some Cafe.zorp)) i
         = Ok (Counter.two_waiting, Some Cafe.zorp).
Proof.
  apply (add_remove_round_trip Counter.two_waiting Cafe.zorp).
  vm_compute. reflexivity.
Defined.

Lemma queue_update_pointwise_witness :
  CustomerQueue.update (F:=Q) Counter.two_waiting 31%Q ∅
  = Ok (CustomerQueue.mk
          (QueueRun.aged 31%Q ∅ <$> CustomerQueue.customers Counter.two_waiting) 5,
        omap (QueueRun.leaver 31%Q ∅) (CustomerQueue.customers Counter.two_waiting)).
Proof. apply (queue_update_pointwise Counter.two_waiting). reflexivity. Defined.

Lemma queue_update_conservation_witness :
  ∃ q' gone,
    CustomerQueue.update (F:=Q) Counter.two_waiting 31%Q ∅ = Ok (q', gone)
    ∧ CustomerQueue.occupied q' + length gone = 2.
Proof.
  eexists _, _. split; [vm_compute; reflexivity|].
  apply (queue_update_conservation Counter.two_waiting 31%Q ∅).
  - reflexivity.
  - vm_compute. reflexivity.
Defined.

Lemma random_recipe_resolves_witness :
  RecipeBook.find (RecipeBook.init Counter.recipe_table) (Some "stardust_latte")
  = Some Cafe.stardust_latte.
Proof.
  apply (random_recipe_resolves Counter.recipe_table 0 Cafe.stardust_latte).
  vm_compute. reflexivity.
Defined.

Lemma morning_spawns :
  ∃ s', ServiceController.spawn_customer (F:=Q) Cafe.morning Cafe.no_draws = Ok (s', true).
Proof. eexists. vm_compute. reflexivity. Qed.

Lemma spawn_customer_spec_witness :
  ∃ s' i,
    ServiceController.spawn_customer (F:=Q) Cafe.morning Cafe.no_draws = Ok (s', true)
    ∧ QueueRun.first_empty (F:=Q) (ServiceController.customer_queue Cafe.morning) i.
Proof.
  destruct morning_spawns as [s' Hs'].
  destruct (spawn_customer_spec Cafe.morning Cafe.no_draws s' Hs')
    as (i & tpl & recipe & _ & _ & Hfirst & _).
  exists s', i. split; [exact Hs' | exact Hfirst].
Defined.


Lemma hot_day_returns :
  Py.returns (ServiceRun.run (F:=Q)
                (ServiceController.init Cafe.book [Counter.ignis_template]) Counter.hot_day).
Proof. eexists. vm_compute. reflexivity. Qed.

Lemma time_remaining_range_witness :
  ∃ s gone,
    ServiceRun.run (F:=Q) (ServiceController.init Cafe.book [Counter.ignis_template])
      Counter.hot_day = Ok (s, gone)
    ∧ (0 <= ServiceController.time_remaining s <= 90)%Q.
Proof.
  destruct (ServiceRun.run (F:=Q) (ServiceController.init Cafe.book [Counter.ignis_template])
              Counter.hot_day) as [[s gone]|ex] eqn:Hrun.
  - exists s, gone. split; [reflexivity|].
    apply (time_remaining_range Cafe.book [Counter.ignis_template] Counter.hot_day s gone).
    + exact Hrun.
    + repeat constructor.
  - destruct hot_day_returns as [x Hx]. rewrite Hrun in Hx. discriminate Hx.
Defined.

Lemma cafe_heat_range_witness :
  ∃ s gone,
    ServiceRun.run (F:=Q) (ServiceController.init Cafe.book [Counter.ignis_template])
      Counter.hot_day = Ok (s, gone)
    ∧ (0 <= ServiceController.cafe_heat s <= 100)%Q.
Proof.
  destruct (ServiceRun.run (F:=Q) (ServiceController.init Cafe.book [Counter.ignis_template])
              Counter.hot_day) as [[s gone]|ex] eqn:Hrun.
  - exists s, gone. split; [reflexivity|].
    apply (cafe_heat_range Cafe.book [Counter.ignis_template] Counter.hot_day s gone).
    + exact Hrun.
    + repeat constructor.
  - destruct hot_day_returns as [x Hx]. rewrite Hrun in Hx. discriminate Hx.
Defined.

Lemma portal_ends_once_witness :
  ∃ m outs r,
    ChaosRun.run (F:=Q) ChaosManager.init Counter.portal_day = Ok (m, outs)
    ∧ outs !! 2 = Some r
    ∧ ChaosRun.ending r = true
    ∧ ChaosManager.is_active m = false.
Proof.
  eexists _, _, _. split; [vm_compute; reflexivity|].
  split; [reflexivity|]. split; [reflexivity|].
  eapply (portal_ends_once Counter.portal_day _ _ 2).
  - vm_compute. reflexivity.
  - reflexivity.
  - reflexivity.
Defined.

Lemma pastries_saved_range_witness :
  ∃ m outs cl,
    ChaosRun.run (F:=Q) ChaosManager.init Counter.portal_day = Ok (m, outs)
    ∧ outs !! 2 = Some (ChaosRun.resolution (Some cl))
    ∧ (1 ≤ PortalEvent.saved cl ≤ 10)%Z.
Proof.
  eexists _, _, _. split; [vm_compute; reflexivity|].
  split; [reflexivity|].
  eapply (pastries_saved_range Counter.portal_day).
  - vm_compute. reflexivity.
  - apply (list_elem_of_lookup_2 _ 2). reflexivity.
Defined.

Lemma portal_open_closes :
  ∃ m' cl,
    ChaosManager.try_resolve (F:=Q) Counter.portal_open "serve_drink"
      (PortalEvent.a_list ["beans"; "moonlight"; "sigil"]) = Ok (m', Some cl).
Proof. eexists _, _. vm_compute. reflexivity. Qed.

Lemma try_resolve_closes_witness :
  ∃ m' cl,
    ChaosManager.try_resolve (F:=Q) Counter.portal_open "serve_drink"
      (PortalEvent.a_list ["beans"; "moonlight"; "sigil"]) = Ok (m', Some cl)
    ∧ ChaosManager.is_active m' = false.
Proof.
  destruct portal_open_closes as (m' & cl & Hres).
  exists m', cl. split; [exact Hres|].
  destruct (try_resolve_closes Counter.portal_open _ _ m' cl Hres)
    as (_ & _ & _ & Hactive & _).
  exact Hactive.
Defined.

Lemma portal_bonus_range_witness :
  ∃ m outs,
    ChaosRun.run (F:=Q) ChaosManager.init Counter.portal_day = Ok (m, outs)
    ∧ ∀ cl, ChaosRun.resolution (Some cl) ∈ outs → (0 ≤ PortalEvent.bonus cl ≤ 10)%Z.
Proof.
  apply (portal_bonus_range Counter.portal_day).
  repeat constructor.
Defined.

Lemma start_scene_by_id_witness :
  ∃ m' started,
    DialogueManager.start_scene DialogueManager.init (Some "results_2") None 0
    = Ok (m', started)
    ∧ (started = true →
       ∃ sc, DialogueManager.current_scene m' = Some sc
             ∧ DialogueScene.id sc = "results_2").
Proof.
  destruct (start_scene_by_id DialogueManager.init "results_2" None 0)
    as (m' & started & Hstart & Hfound & _).
  - discriminate.
  - exists m', started. split; [exact Hstart|]. intros Hstarted.
    destruct (Hfound Hstarted) as (sc & Hsc & Hid & _). by exists sc.
Defined.

Lemma start_scene_by_context_witness :
  ∃ m' started,
    DialogueManager.start_scene DialogueManager.init None (Some "lunch") 0
    = Ok (m', started)
    ∧ (started = false → DialogueManager.current_scene m' = None).
Proof.
  destruct (start_scene_by_context DialogueManager.init "lunch" 0)
    as (m' & started & Hstart & _ & _ & _ & Hnone).
  - discriminate.
  - exists m', started. split; [exact Hstart|]. intros Hstarted.
    by destruct (Hnone Hstarted).
Defined.

Lemma scene_playback_witness :
  ∃ m sc,
    DialogueManager.start_scene DialogueManager.init (Some "intro_1") None 0 = Ok (m, true)
    ∧ DialogueManager.current_scene m = Some sc
    ∧ DialogueManager.shown 4 m = Ok (DialogueScene.lines sc).
Proof.
  eexists _, _. split; [vm_compute; reflexivity|]. split; [reflexivity|].
  apply scene_playback; [reflexivity | reflexivity | simpl; lia].
Defined.

Lemma ordering_returns : Py.returns (HostRun.run (F:=Q) Counter.screen Counter.ordering).
Proof. eexists. vm_compute. reflexivity. Qed.

Lemma ordering_after :
  HostRun.run (F:=Q) Counter.screen Counter.ordering = Ok (Counter.after Counter.ordering).
Proof.
  unfold Counter.after. destruct ordering_returns as [st Hst]. by rewrite Hst.
Qed.

Lemma ordering_cards : Forall (HostRun.card (F:=Q)) Counter.ordering.
Proof. repeat constructor; simpl; lia. Qed.

Lemma host_selection_bound_witness :
  ServiceRun.bound_to_slot (F:=Q)
    (ServiceState.service_controller (Counter.after Counter.ordering)) 0.
Proof.
  apply (host_selection_bound Cafe.book [Cafe.zorp_template] Counter.ordering).
  - exact ordering_after.
  - exact ordering_cards.
  - vm_compute. reflexivity.
Defined.

Lemma host_served_bound_witness :
  (ServiceController.customers_served (F:=Q)
     (ServiceState.service_controller (Counter.after Counter.ordering))
   + Z.of_nat (length (ServiceRun.queued
                         (ServiceState.service_controller (Counter.after Counter.ordering))))
   ≤ 8)%Z.
Proof.
  destruct (host_served_bound Cafe.book [Cafe.zorp_template] Counter.ordering
              (Counter.after Counter.ordering) ordering_after ordering_cards)
    as [_ Hbound].
  exact Hbound.
Defined.

Lemma host_base_modifiers_witness :
  UpgradeManager.get_modifiers (F:=Q)
    (ServiceState.upgrade_manager (Counter.after Counter.ordering))
  = UpgradeManager.base_modifiers.
Proof.
  apply (host_base_modifiers Cafe.book [Cafe.zorp_template] Counter.ordering).
  exact ordering_after.
Defined.



Lemma rush_bound :
  ServiceRun.bound_to_slot (F:=Q)
    (ServiceState.service_controller (Counter.after Counter.rush)) 0.
Proof. by vm_compute. Qed.

Lemma rush_serves :
  ∃ st' r cl,
    ServiceState.serve_drink (F:=Q) (Counter.after Counter.rush) = Ok (st', Some r, Some cl).
Proof. eexists _, _, _. vm_compute. reflexivity. Qed.

Lemma rush_slot :
  ∃ c, ServiceRun.slot (F:=Q)
         (ServiceState.service_controller (Counter.after Counter.rush)) 0 = Some (Some c)
       ∧ RecipeBook.find
           (ServiceController.recipe_book (F:=Q)
              (ServiceState.service_controller (Counter.after Counter.rush)))
           (Customer.desired_recipe c) = Some Cafe.stardust_latte.
Proof. eexists. split; vm_compute; reflexivity. Qed.

Lemma banishing_serves_customer_witness :
  ∃ st' r cl,
    ServiceState.serve_drink (F:=Q) (Counter.after Counter.rush) = Ok (st', Some r, Some cl)
    ∧ ServiceController.tip r = 0%Z
    ∧ ServiceRun.slot (ServiceState.service_controller st') 0 = Some None.
Proof.
  destruct rush_serves as (st' & r & cl & Hserve).
  destruct rush_slot as (c & Hslot & Hfind).
  exists st', r, cl. split; [exact Hserve|].
  destruct (banishing_serves_customer (Counter.after Counter.rush) st' r cl 0 c
              Hserve rush_bound Hslot)
    as (_ & Htip & _ & _ & Hgone).
  - intros recipe Hrecipe. rewrite Hfind in Hrecipe. injection Hrecipe as <-.
    discriminate.
  - split; [exact Htip | exact Hgone].
Defined.

Lemma binary64_int_of_zero : int_of_float (lit 0 : float) = Ok 0%Z.
Proof. vm_compute. reflexivity. Qed.

Lemma closing_time :
  ∃ st' data,
    ServiceState.update (F:=float) (Counter.after [HostRun.on_enter 1 Cafe.no_draws])
      (lit 91) Cafe.no_draws = Ok (st', Some data).
Proof. eexists _, _. vm_compute. reflexivity. Qed.

Lemma day_end_no_time_bonus_witness :
  ∃ st' data,
    ServiceState.update (F:=float) (Counter.after [HostRun.on_enter 1 Cafe.no_draws])
      (lit 91) Cafe.no_draws = Ok (st', Some data)
    ∧ ServiceState.time_bonus data = 0%Z.
Proof.
  destruct closing_time as (st' & data & Hupdate).
  exists st', data. split; [exact Hupdate|].
  destruct (day_end_no_time_bonus (F:=float)
              (Counter.after [HostRun.on_enter 1 Cafe.no_draws]) (lit 91) Cafe.no_draws
              st' data binary64_int_of_zero Hupdate) as (Hbonus & _).
  exact Hbonus.
Defined.
